(** * finance_merged.py: technical indicators over daily price series

    A shallow embedding of [src/finance_merged.py]: the body of
    [fetch_stock_data] (the batching loop, the per-ticker [try] block, the
    indicator pipeline on the [hist] frame, the trailing five-row window)
    and the module-level script that writes the report.

    Numbers.  pandas columns hold IEEE binary64 values.  Here a value is
    [NaN], a signed infinity or a rational: arithmetic on finite values is
    exact (rounding, overflow and the sign of zero are left out), while the
    behaviour of NaN and of division by zero follows IEEE 754 as numpy
    applies it (no exception, [x/0 = inf], [0/0 = NaN]).  A statement
    about the value of a finite result is therefore a statement in exact
    arithmetic: in binary64 a finite result is rounded, and a sum or a
    difference of finite prices near the largest number overflows to an
    infinity, which the window functions then read as NaN.  The overflow
    is shown on the kernel's binary64 numbers ([sum_of_prices_overflows],
    [delta_of_closes_overflows]), and [Module Binary64] gives on them the
    one formula whose range depends on rounding, the stochastic %K.

    pandas.  [rolling(w)] keeps the default [min_periods = w];
    [ewm(span, adjust).mean()] follows the library's recurrence with
    [min_periods = 0] and [ignore_na = False]; both turn infinities into
    NaN before aggregating, read [None] in an object column as NaN and
    raise on text and on dates.  [diff], [shift], [where],
    [concat(..).max(axis=1)] (which skips NaN), [tail] and [reset_index]
    are modelled on lists. *)

From Stdlib Require Import String Ascii List Bool Arith ZArith QArith Qreduction.
From Stdlib Require Import Qabs Qminmax Lia Lqa DecimalString Floats.
Import ListNotations.
Local Open Scope string_scope.
Local Open Scope list_scope.
Local Open Scope nat_scope.

(** ** Values of a float64 column *)

Inductive f64 : Type :=
| NaN
| Inf (neg : bool)
| Fin (q : Q).

(** Finite results are kept in lowest terms, so that equal numbers are
    equal terms. *)
Definition num (q : Q) : f64 := Fin (Qred q).

Definition Qneg (q : Q) : bool := negb (Qle_bool 0 q).

Definition is_nan (x : f64) : bool :=
  match x with NaN => true | _ => false end.

Definition is_fin (x : f64) : bool :=
  match x with Fin _ => true | _ => false end.

Definition fneg (x : f64) : f64 :=
  match x with
  | NaN => NaN
  | Inf s => Inf (negb s)
  | Fin q => num (- q)
  end.

Definition fadd (x y : f64) : f64 :=
  match x, y with
  | NaN, _ | _, NaN => NaN
  | Inf s, Inf t => if Bool.eqb s t then Inf s else NaN
  | Inf s, Fin _ => Inf s
  | Fin _, Inf t => Inf t
  | Fin a, Fin b => num (a + b)
  end.

Definition fsub (x y : f64) : f64 :=
  match x, y with
  | NaN, _ | _, NaN => NaN
  | Inf s, Inf t => if Bool.eqb s t then NaN else Inf s
  | Inf s, Fin _ => Inf s
  | Fin _, Inf t => Inf (negb t)
  | Fin a, Fin b => num (a - b)
  end.

Definition fmul (x y : f64) : f64 :=
  match x, y with
  | NaN, _ | _, NaN => NaN
  | Inf s, Inf t => Inf (xorb s t)
  | Inf s, Fin b => if Qeq_bool b 0 then NaN else Inf (xorb s (Qneg b))
  | Fin a, Inf t => if Qeq_bool a 0 then NaN else Inf (xorb (Qneg a) t)
  | Fin a, Fin b => num (a * b)
  end.

(** Division never raises: a zero divisor gives an infinity, or NaN for
    [0/0]. *)
Definition fdiv (x y : f64) : f64 :=
  match x, y with
  | NaN, _ | _, NaN => NaN
  | Inf _, Inf _ => NaN
  | Inf s, Fin b => Inf (xorb s (Qneg b))
  | Fin _, Inf _ => num 0
  | Fin a, Fin b =>
      if Qeq_bool b 0
      then (if Qeq_bool a 0 then NaN else Inf (Qneg a))
      else num (a / b)
  end.

Definition fabs (x : f64) : f64 :=
  match x with
  | NaN => NaN
  | Inf _ => Inf false
  | Fin q => num (Qabs q)
  end.

(** [x < y]; false as soon as one side is NaN. *)
Definition fltb (x y : f64) : bool :=
  match x, y with
  | NaN, _ | _, NaN => false
  | Inf s, Inf t => s && negb t
  | Inf s, Fin _ => s
  | Fin _, Inf t => negb t
  | Fin a, Fin b => negb (Qle_bool b a)
  end.

Definition fleb (x y : f64) : bool :=
  match x, y with
  | NaN, _ | _, NaN => false
  | Inf s, Inf t => s || negb t
  | Inf s, Fin _ => s
  | Fin _, Inf t => negb t
  | Fin a, Fin b => Qle_bool a b
  end.

(** [x == y] on floats: NaN differs from everything. *)
Definition feqb (x y : f64) : bool :=
  match x, y with
  | Inf s, Inf t => Bool.eqb s t
  | Fin a, Fin b => Qeq_bool a b
  | _, _ => false
  end.

Definition of_Z (z : Z) : f64 := Fin (inject_Z z).

(** ** Series operations *)

Fixpoint zip_with {A B C : Type} (f : A -> B -> C) (l : list A) (m : list B)
  : list C :=
  match l, m with
  | a :: l', b :: m' => f a b :: zip_with f l' m'
  | _, _ => []
  end.

(** [s.shift()]: every value moves one row down, the first row is NaN. *)
Definition shift (l : list f64) : list f64 :=
  match l with
  | [] => []
  | _ :: _ => NaN :: removelast l
  end.

(** [s.diff()]: [s - s.shift()]. *)
Definition diff (l : list f64) : list f64 := zip_with fsub l (shift l).

(** [s.where(cond, other)] keeps the value where the condition holds. *)
Definition where_ (cond : f64 -> bool) (other : f64) (l : list f64)
  : list f64 :=
  map (fun x => if cond x then x else other) l.

(** Row-wise [max(axis=1)] over joined columns: NaN is skipped, and a row
    of NaN only gives NaN. *)
Definition nanmax2 (x y : f64) : f64 :=
  match x, y with
  | NaN, _ => y
  | _, NaN => x
  | _, _ => if fltb x y then y else x
  end.

Definition row_max (xs : list f64) : f64 := fold_left nanmax2 xs NaN.

Fixpoint max_axis1 (a b c : list f64) : list f64 :=
  match a, b, c with
  | x :: a', y :: b', z :: c' => row_max [x; y; z] :: max_axis1 a' b' c'
  | _, _, _ => []
  end.

(** *** Rolling windows *)

(** The rows [i-w+1 .. i] of a column (fewer when the column starts
    later). *)
Definition window {A : Type} (w i : nat) (l : list A) : list A :=
  skipn (i + 1 - w) (firstn (i + 1) l).

(** The observations of a window: its finite values (rolling turns
    infinities into NaN first, and NaN is no observation). *)
Definition observed (l : list f64) : list Q :=
  flat_map (fun x => match x with Fin q => [q] | _ => [] end) l.

(** [s.rolling(window=w).agg()]: NaN unless the window holds [w]
    observations. *)
Definition rolling (w : nat) (agg : list Q -> f64) (l : list f64)
  : list f64 :=
  map (fun i =>
         let obs := observed (window w i l) in
         if length obs <? w then NaN else agg obs)
      (seq 0 (length l)).

Definition Qsum (l : list Q) : Q := fold_right Qplus 0%Q l.

Definition Qlen (l : list Q) : Q := inject_Z (Z.of_nat (length l)).

Definition Qmean (l : list Q) : Q := (Qsum l / Qlen l)%Q.

Definition Qmin_list (l : list Q) : Q :=
  match l with
  | [] => 0%Q
  | x :: l' => fold_left Qmin l' x
  end.

Definition Qmax_list (l : list Q) : Q :=
  match l with
  | [] => 0%Q
  | x :: l' => fold_left Qmax l' x
  end.

(** Sample variance ([ddof = 1]). *)
Definition Qvar (l : list Q) : Q :=
  let m := Qmean l in
  (Qsum (map (fun x => (x - m) * (x - m)) l)
   / inject_Z (Z.of_nat (length l - 1)))%Q.

Definition rolling_mean (w : nat) : list f64 -> list f64 :=
  rolling w (fun obs => num (Qmean obs)).

Definition rolling_min (w : nat) : list f64 -> list f64 :=
  rolling w (fun obs => num (Qmin_list obs)).

Definition rolling_max (w : nat) : list f64 -> list f64 :=
  rolling w (fun obs => num (Qmax_list obs)).

Section Sqrt.

(** The square root of a non-negative rational, as the float library
    rounds it; the development holds for every such function. *)
Variable qsqrt : Q -> Q.

(** [s.rolling(window=w).std()]: the sample standard deviation, undefined
    when there is a single observation. *)
Definition rolling_std (w : nat) : list f64 -> list f64 :=
  rolling w (fun obs =>
               if length obs <=? 1 then NaN else num (qsqrt (Qred (Qvar obs)))).

End Sqrt.

(** *** Exponentially weighted mean *)

(** The loop of pandas' [ewm] for the mean: [weighted] is the running
    average, [old_wt] the weight it carries, [nobs] the observations seen
    so far; the output is defined once [nobs >= 1]. *)
Fixpoint ewm_loop (alpha : Q) (adjust : bool) (vals : list f64)
  (weighted : f64) (old_wt : Q) (nobs : nat) : list f64 :=
  match vals with
  | [] => []
  | cur :: rest =>
      let is_observation := negb (is_nan cur) in
      let nobs := if is_observation then S nobs else nobs in
      let new_wt := if adjust then 1%Q else alpha in
      let '(weighted, old_wt) :=
        if negb (is_nan weighted) then
          let old_wt := Qred (old_wt * (1 - alpha)) in
          if is_observation then
            let weighted :=
              if feqb weighted cur then weighted
              else fdiv (fadd (fmul (Fin old_wt) weighted)
                              (fmul (Fin new_wt) cur))
                        (Fin (old_wt + new_wt)) in
            (weighted, if adjust then Qred (old_wt + new_wt) else 1%Q)
          else (weighted, old_wt)
        else if is_observation then (cur, old_wt)
        else (weighted, old_wt) in
      (if 1 <=? nobs then weighted else NaN)
        :: ewm_loop alpha adjust rest weighted old_wt nobs
  end.

(** The window functions turn infinities into NaN before they
    aggregate. *)
Definition prep_values (vals : list f64) : list f64 :=
  map (fun x => match x with Inf _ => NaN | _ => x end) vals.

(** [s.ewm(span=span, adjust=adjust).mean()], with [alpha = 2/(span+1)]. *)
Definition ewm_mean (span : nat) (adjust : bool) (vals : list f64)
  : list f64 :=
  let alpha := (2 / inject_Z (Z.of_nat (span + 1)))%Q in
  match prep_values vals with
  | [] => []
  | v0 :: rest =>
      let nobs := if is_nan v0 then 0 else 1 in
      (if 1 <=? nobs then v0 else NaN)
        :: ewm_loop alpha adjust rest v0 1%Q nobs
  end.

(** ** Exceptions *)

Inductive exn : Type :=
| KeyError (key : string)
| TypeError (msg : string)
| ValueError (msg : string)
| IndexError (msg : string)
| DataError (msg : string)
| ProviderError (msg : string).

(** [str(e)], as the error line prints it. *)
Definition exn_str (e : exn) : string :=
  match e with
  | KeyError key => String.append "'" (String.append key "'")
  | TypeError msg | ValueError msg | IndexError msg | DataError msg
  | ProviderError msg => msg
  end.

Inductive result (A : Type) : Type :=
| Ok (a : A)
| Raise (e : exn).
Arguments Ok {A} a.
Arguments Raise {A} e.

Definition bind {A B : Type} (c : result A) (k : A -> result B) : result B :=
  match c with
  | Ok a => k a
  | Raise e => Raise e
  end.

Notation "x <- c ;; k" := (bind c (fun x => k))
  (at level 61, c at next level, right associativity).

(** ** Dictionaries

    A Python [dict] keeps its keys in insertion order; assigning to a key
    that is present replaces the value where it stands. *)

Fixpoint lookup {V : Type} (k : string) (d : list (string * V)) : option V :=
  match d with
  | [] => None
  | (k', v) :: d' => if String.eqb k k' then Some v else lookup k d'
  end.

Fixpoint dict_set {V : Type} (k : string) (v : V) (d : list (string * V))
  : list (string * V) :=
  match d with
  | [] => [(k, v)]
  | (k', v') :: d' =>
      if String.eqb k k' then (k, v) :: d' else (k', v') :: dict_set k v d'
  end.

(** [d[k]] *)
Definition dict_getitem {V : Type} (k : string) (d : list (string * V))
  : result V :=
  match lookup k d with
  | Some v => Ok v
  | None => Raise (KeyError k)
  end.

(** ** Data frames *)

Inductive Series : Type :=
| FloatS (v : list f64)
| IntS (v : list Z)
| ObjS (v : list (option string))
| TimeS (tz : option string) (v : list Z).

Inductive dtype : Type :=
| Int64
| Datetime (tz : option string).

Record Index : Type := mkIndex {
  idx_name : option string;
  idx_dtype : dtype;
  idx_vals : list Z
}.

Record DataFrame : Type := mkFrame {
  index : Index;
  columns : list (string * Series)
}.

(** [len(df)]: the number of rows. *)
Definition len (df : DataFrame) : nat := length (idx_vals (index df)).

(** [df[name]] *)
Definition getitem (name : string) (df : DataFrame) : result Series :=
  dict_getitem name (columns df).

(** The values of a column of numbers.  [s.diff()] needs one: on an
    object column it subtracts the Python objects themselves, which
    raises (an object column that reaches line 52 holds [None] only: text
    and dates have failed at line 41). *)
Definition as_float (s : Series) : result (list f64) :=
  match s with
  | FloatS v => Ok v
  | IntS v => Ok (map of_Z v)
  | ObjS _ =>
      Raise (TypeError
               "unsupported operand type(s) for -: 'NoneType' and 'NoneType'")
  | TimeS _ _ =>
      Raise (TypeError
               "Invalid comparison between dtype=timedelta64[ns] and int")
  end.

Definition getitem_float (name : string) (df : DataFrame)
  : result (list f64) :=
  s <- getitem name df ;; as_float s.

Definition is_none (o : option string) : bool :=
  match o with None => true | Some _ => false end.

(** The values of a column as [rolling], [ewm] and the arithmetic of two
    columns take them: a column of numbers as it is; an object column
    that holds [None] only as NaN (the window functions convert it to
    float64, the arithmetic skips the missing values of an object
    column); text and dates make the window functions raise. *)
Definition as_values (s : Series) : result (list f64) :=
  match s with
  | FloatS v => Ok v
  | IntS v => Ok (map of_Z v)
  | ObjS v =>
      if forallb is_none v then Ok (map (fun _ => NaN) v)
      else Raise (DataError "No numeric types to aggregate")
  | TimeS _ _ => Raise (DataError "No numeric types to aggregate")
  end.

Definition getitem_values (name : string) (df : DataFrame)
  : result (list f64) :=
  s <- getitem name df ;; as_values s.

(** [df[name] = s] *)
Definition setitem (name : string) (s : Series) (df : DataFrame) : DataFrame :=
  mkFrame (index df) (dict_set name s (columns df)).

(** [df[name] = value] for a scalar: the value on every row. *)
Definition setitem_scalar (name : string) (value : option string)
  (df : DataFrame) : DataFrame :=
  setitem name (ObjS (repeat value (len df))) df.

Definition lastn {A : Type} (n : nat) (l : list A) : list A :=
  skipn (length l - n) l.

Definition tail_series (n : nat) (s : Series) : Series :=
  match s with
  | FloatS v => FloatS (lastn n v)
  | IntS v => IntS (lastn n v)
  | ObjS v => ObjS (lastn n v)
  | TimeS tz v => TimeS tz (lastn n v)
  end.

(** [df.tail(n)] *)
Definition tail (n : nat) (df : DataFrame) : DataFrame :=
  mkFrame
    (mkIndex (idx_name (index df)) (idx_dtype (index df))
             (lastn n (idx_vals (index df))))
    (map (fun c => (fst c, tail_series n (snd c))) (columns df)).

Definition index_series (i : Index) : Series :=
  match idx_dtype i with
  | Int64 => IntS (idx_vals i)
  | Datetime tz => TimeS tz (idx_vals i)
  end.

(** The name of the column that [reset_index] inserts: the name of the
    index, and for an index without a name [index], or [level_0] when the
    frame has a column [index] already. *)
Definition index_label (df : DataFrame) : string :=
  match idx_name (index df) with
  | Some name => name
  | None =>
      match lookup "index" (columns df) with
      | Some _ => "level_0"
      | None => "index"
      end
  end.

(** [df.reset_index()]: the index becomes the first column, under its
    name, and the rows are numbered from 0. *)
Definition reset_index (df : DataFrame) : result DataFrame :=
  let label := index_label df in
  match lookup label (columns df) with
  | Some _ =>
      Raise (ValueError
               (String.concat "" ["cannot insert "; label; ", already exists"]))
  | None =>
      Ok (mkFrame
            (mkIndex None Int64 (map Z.of_nat (seq 0 (len df))))
            ((label, index_series (index df)) :: columns df))
  end.

(** [df.empty] *)
Definition empty (df : DataFrame) : bool :=
  (len df =? 0) || (length (columns df) =? 0).

(** Lines 88-89: a timezone-aware [Date] column is made timezone-naive. *)
Definition naive_dates (recent_hist : DataFrame) : DataFrame :=
  match lookup "Date" (columns recent_hist) with
  | Some (TimeS (Some _) v) => setitem "Date" (TimeS None v) recent_hist
  | _ => recent_hist
  end.

(** The values of a float column, for statements ([[]] when there is no
    such column). *)
Definition float_col (name : string) (df : DataFrame) : list f64 :=
  match lookup name (columns df) with
  | Some (FloatS v) => v
  | _ => []
  end.

(** ** The indicator pipeline (lines 41-77) *)

Definition sub (a b : list f64) : list f64 := zip_with fsub a b.
Definition add (a b : list f64) : list f64 := zip_with fadd a b.
Definition div (a b : list f64) : list f64 := zip_with fdiv a b.
Definition scale (k : Q) (a : list f64) : list f64 := map (fmul (Fin k)) a.
Definition gt0 (x : f64) : bool := fltb (Fin 0) x.
Definition lt0 (x : f64) : bool := fltb x (Fin 0).

(** Line 58: [100 - (100 / (1 + rs))] on one row. *)
Definition rsi_formula (rs : f64) : f64 :=
  fsub (Fin 100) (fdiv (Fin 100) (fadd (Fin 1) rs)).

(** Lines 52-58, from [delta] on. *)
Definition rsi_of_delta (delta : list f64) : list f64 :=
  let gain := where_ gt0 (Fin 0) delta in
  let loss := map fneg (where_ lt0 (Fin 0) delta) in
  let avg_gain := rolling_mean 14 gain in
  let avg_loss := rolling_mean 14 loss in
  let rs := div avg_gain avg_loss in
  map rsi_formula rs.

(** Line 69. *)
Definition stoch_k_of (close low_14 high_14 : list f64) : list f64 :=
  div (scale 100 (sub close low_14)) (sub high_14 low_14).

Section Engine.

Variable qsqrt : Q -> Q.

Definition indicators (hist : DataFrame) : result DataFrame :=
  (* Moving Averages *)
  close <- getitem_values "Close" hist ;;
  let hist := setitem "50D MA" (FloatS (rolling_mean 50 close)) hist in
  close <- getitem_values "Close" hist ;;
  let hist := setitem "200D MA" (FloatS (rolling_mean 200 close)) hist in
  (* MACD *)
  close <- getitem_values "Close" hist ;;
  let ema12 := ewm_mean 12 true close in
  close <- getitem_values "Close" hist ;;
  let ema26 := ewm_mean 26 true close in
  let hist := setitem "MACD Line" (FloatS (sub ema12 ema26)) hist in
  macd_line <- getitem_values "MACD Line" hist ;;
  let hist :=
    setitem "MACD Signal" (FloatS (ewm_mean 9 false macd_line)) hist in
  macd_line <- getitem_values "MACD Line" hist ;;
  macd_signal <- getitem_values "MACD Signal" hist ;;
  let hist := setitem "MACD Hist" (FloatS (sub macd_line macd_signal)) hist in
  (* RSI *)
  close <- getitem_float "Close" hist ;;
  let delta := diff close in
  let hist := setitem "RSI" (FloatS (rsi_of_delta delta)) hist in
  (* Bollinger Bands *)
  close <- getitem_values "Close" hist ;;
  let hist := setitem "BB Middle" (FloatS (rolling_mean 20 close)) hist in
  close <- getitem_values "Close" hist ;;
  let bb_std := rolling_std qsqrt 20 close in
  bb_middle <- getitem_values "BB Middle" hist ;;
  let hist := setitem "BB Upper" (FloatS (add bb_middle (scale 2 bb_std))) hist in
  bb_middle <- getitem_values "BB Middle" hist ;;
  let hist := setitem "BB Lower" (FloatS (sub bb_middle (scale 2 bb_std))) hist in
  (* Stochastic Oscillator *)
  low <- getitem_values "Low" hist ;;
  let low_14 := rolling_min 14 low in
  high <- getitem_values "High" hist ;;
  let high_14 := rolling_max 14 high in
  close <- getitem_values "Close" hist ;;
  let hist := setitem "Stoch %K" (FloatS (stoch_k_of close low_14 high_14)) hist in
  stoch_k <- getitem_values "Stoch %K" hist ;;
  let hist := setitem "Stoch %D" (FloatS (rolling_mean 3 stoch_k)) hist in
  (* ATR *)
  high <- getitem_values "High" hist ;;
  low <- getitem_values "Low" hist ;;
  let high_low := sub high low in
  high <- getitem_values "High" hist ;;
  close <- getitem_values "Close" hist ;;
  let high_close := map fabs (sub high (shift close)) in
  low <- getitem_values "Low" hist ;;
  close <- getitem_values "Close" hist ;;
  let low_close := map fabs (sub low (shift close)) in
  let tr := max_axis1 high_low high_close low_close in
  Ok (setitem "ATR" (FloatS (rolling_mean 14 tr)) hist).

End Engine.

(** ** The provider: [yf.Tickers] *)

(** A [yf.Ticker]: reading [info] or calling [history] may raise. *)
Record Ticker : Type := mkTicker {
  ticker_info : result (list (string * string));
  ticker_history : result DataFrame
}.

(** What the [try] block of one ticker leaves behind. *)
Inductive outcome : Type :=
| Window (recent_hist : DataFrame)
| NotEnoughData.

Definition str_nat (n : nat) : string :=
  NilZero.string_of_uint (Nat.to_uint n).

Definition newline : string := String (ascii_of_nat 10) EmptyString.

(** [range(0, stop, step)] for a positive step. *)
Definition range_step (stop step : nat) : list nat :=
  map (fun k => k * step) (seq 0 ((stop + step - 1) / step)).

(** [l[i:j]] *)
Definition slice {A : Type} (i j : nat) (l : list A) : list A :=
  firstn (j - i) (skipn i l).

Section Batch.

Variable qsqrt : Q -> Q.

(** [yf.Tickers(symbols).tickers]: the dictionary of ticker objects built
    for one group of symbols.  Building it reads nothing from the network
    and raises nothing (the call stands outside the [try]); the reads
    happen in [stock.info] and [stock.history]. *)
Variable yf_Tickers : string -> list (string * Ticker).

(** Lines 35-93: the body of the [try]. *)
Definition process (data : list (string * Ticker)) (ticker : string)
  : result outcome :=
  stock <- dict_getitem ticker data ;;
  info <- ticker_info stock ;;
  hist <- ticker_history stock ;;
  if 200 <=? len hist then
    hist <- indicators qsqrt hist ;;
    let hist := setitem_scalar "Ticker" (Some ticker) hist in
    let hist := setitem_scalar "Sector" (lookup "sector" info) hist in
    let hist := setitem_scalar "Industry" (lookup "industry" info) hist in
    recent_hist <- reset_index (tail 5 hist) ;;
    Ok (Window (naive_dates recent_hist))
  else Ok NotEnoughData.

(** The loop state: [all_data] and the lines printed so far. *)
Definition state : Type := (list (string * DataFrame) * list string)%type.

(** Lines 33-96: one ticker, with the [except] clause. *)
Definition handle (data : list (string * Ticker)) (st : state)
  (ticker : string) : state :=
  let '(all_data, out) := st in
  match process data ticker with
  | Ok (Window recent_hist) => (dict_set ticker recent_hist all_data, out)
  | Ok NotEnoughData =>
      (all_data,
       out ++ [String.append "[!] Not enough data to compute 200D MA for "
                             ticker])
  | Raise e =>
      (all_data,
       out ++ [String.concat "" ["Error processing "; ticker; ": "; exn_str e]])
  end.

(** Lines 28-96: one group of tickers. *)
Definition run_batch (batch_size : nat) (tickers : list string) (st : state)
  (i : nat) : state :=
  let batch_tickers := slice i (i + batch_size) tickers in
  let line :=
    String.concat ""
      ["Processing batch "; str_nat (i / batch_size + 1); "/";
       str_nat ((length tickers - 1) / batch_size + 1); " (";
       str_nat (length batch_tickers); " tickers)..."] in
  let data := yf_Tickers (String.concat " " batch_tickers) in
  fold_left (handle data) batch_tickers (fst st, snd st ++ [line]).

(** [fetch_stock_data] with its [batch_size] as a parameter. *)
Definition fetch_stock_data_run (batch_size : nat) (tickers : list string)
  : state :=
  fold_left (run_batch batch_size tickers)
            (range_step (length tickers) batch_size) ([], []).

Definition fetch_stock_data (tickers : list string)
  : list (string * DataFrame) :=
  fst (fetch_stock_data_run 50 tickers).

(** ** The script (lines 100-140) *)

Inductive sheet : Type :=
| Summary (rows : list DataFrame)
| Sheet (sheet_name : string) (hist_df : DataFrame).

(** What the script does to the world: a line printed, the symbol file
    written, the workbook opened at [path] with the [to_excel] calls made
    on its writer, in order, and an exception that nothing catches, which
    ends the script. *)
Inductive effect : Type :=
| Print (line : string)
| ToCsv (path : string) (rows : list string)
| ToExcel (path : string) (sheets : list sheet)
| Uncaught (e : exn).

(** [repr] of a list of strings. *)
Definition repr_list (l : list string) : string :=
  String.concat ""
    ["["; String.concat ", "
            (map (fun s => String.concat "" ["'"; s; "'"]) l); "]"].

Definition nonempty_items (ticker_data : list (string * DataFrame))
  : list (string * DataFrame) :=
  filter (fun kv => negb (empty (snd kv))) ticker_data.

(** Lines 120-136: the [to_excel] calls on the writer, in order, each
    with the sheet name it asks for.  The writer keeps one sheet per name:
    a call that asks for a name already in the workbook writes into that
    sheet again, over the cells of the earlier call. *)
Definition report_sheets (ticker_data : list (string * DataFrame))
  : list sheet :=
  let summary_data := map (fun kv => tail 1 (snd kv))
                          (nonempty_items ticker_data) in
  (match summary_data with
   | [] => []
   | _ :: _ => [Summary summary_data]
   end)
  ++ map (fun kv => Sheet (String.substring 0 31 (fst kv)) (snd kv))
         (nonempty_items ticker_data).

(** What [pd.read_html(url)] gives the script: the [Symbol] column of the
    first table of the page, or one of the exceptions that
    [get_sp500_tickers_wikipedia] catches ([FetchFailed] stands for
    [requests.RequestException] and [ValueError]).  Any other exception
    ends the script and is left out. *)
Inductive page : Type :=
| Table (symbols : list string)
| MissingDependency (e : string)
| FetchFailed (e : string).

(** Lines 6-20: the tickers returned and what is printed on the way. *)
Definition get_sp500_tickers_wikipedia (p : page)
  : list string * list effect :=
  match p with
  | Table tickers => (tickers, [])
  | MissingDependency e =>
      ([],
       [Print (String.append "Error: Missing dependency. " e);
        Print "Please install required packages: pip install lxml"])
  | FetchFailed e =>
      ([], [Print (String.append "Error fetching S&P 500 tickers: " e)])
  end.

(** Everything the script prints and writes. *)
Definition script (p : page) : list effect :=
  let '(sp500_tickers, printed) := get_sp500_tickers_wikipedia p in
  [Print "Fetching S&P 500 tickers from Wikipedia..."]
  ++ printed
  ++ [Print (String.concat ""
               ["S&P 500 Tickers ("; str_nat (length sp500_tickers); "):"]);
      Print (String.concat ""
               ["First 5 tickers: "; repr_list (firstn 5 sp500_tickers);
                " ..."])]
  ++
  match sp500_tickers with
  | _ :: _ =>
      let '(ticker_data, out) := fetch_stock_data_run 50 sp500_tickers in
      [ToCsv "sp500_tickers.csv" sp500_tickers;
       Print "S&P 500 tickers saved to sp500_tickers.csv";
       Print (String.concat ""
                [newline; "Processing all ";
                 str_nat (length sp500_tickers);
                 " tickers for detailed analysis..."])]
      ++ map Print out
      ++ [Print (String.concat ""
                   ["Successfully processed ";
                    str_nat (length ticker_data); " tickers"]);
          Print "Saving data to Excel file...";
          ToExcel "sp500_analysis.xlsx" (report_sheets ticker_data)]
      ++ match report_sheets ticker_data with
         | _ :: _ =>
             [Print "Data saved to sp500_analysis.xlsx with multiple sheets"]
         | [] =>
             (* leaving the [with] block saves the workbook, and a workbook
                without a sheet cannot be saved *)
             [Uncaught (IndexError "At least one sheet must be visible")]
         end
  | [] =>
      [Print "No tickers retrieved. Please check dependencies and try again."]
  end.

End Batch.

(** ** Price series *)

(** One daily bar, as [history] returns it. *)
Record Bar : Type := mkBar {
  date : Z;
  open : f64;
  high : f64;
  low : f64;
  close : f64;
  volume : Z
}.

(** The frame [stock.history(period="1y", interval="1d")] builds from a
    price series: the dates as index, named [Date], and one column per
    field (the further columns of yfinance, which nothing reads, are left
    out). *)
Definition history_frame (tz : option string) (bars : list Bar) : DataFrame :=
  mkFrame
    (mkIndex (Some "Date") (Datetime tz) (map date bars))
    [("Open", FloatS (map open bars));
     ("High", FloatS (map high bars));
     ("Low", FloatS (map low bars));
     ("Close", FloatS (map close bars));
     ("Volume", IntS (map volume bars))].

Definition finite_bar (b : Bar) : bool :=
  is_fin (open b) && is_fin (high b) && is_fin (low b) && is_fin (close b).

(** The number of leading undefined entries of a column. *)
Fixpoint leading_nan (l : list f64) : nat :=
  match l with
  | NaN :: l' => S (leading_nan l')
  | _ => 0
  end.

(** ** Line 69 on binary64 numbers *)

Module Binary64.

Definition nth_f (i : nat) (l : list float) : float := nth i l PrimFloat.nan.

Definition fmin (x y : float) : float := if PrimFloat.ltb y x then y else x.
Definition fmax (x y : float) : float := if PrimFloat.ltb x y then y else x.

(** The rolling minimum and maximum of a column without NaN: the least and
    the greatest value of the trailing window, NaN during the warm-up. *)
Definition rolling_sel (w : nat) (sel : float -> float -> float)
  (l : list float) : list float :=
  map (fun i =>
         if i + 1 <? w then PrimFloat.nan
         else match window w i l with
              | [] => PrimFloat.nan
              | x :: rest => fold_left sel rest x
              end)
      (seq 0 (length l)).

Definition stoch_k (close low high : list float) : list float :=
  let low_14 := rolling_sel 14 fmin low in
  let high_14 := rolling_sel 14 fmax high in
  zip_with PrimFloat.div
    (map (PrimFloat.mul 100%float) (zip_with PrimFloat.sub close low_14))
    (zip_with PrimFloat.sub high_14 low_14).

End Binary64.

(** ** The columns as functions of the price columns

    What [indicators] stores under each name, written as a function of the
    [Close], [High] and [Low] columns it reads. *)

Definition macd_line (close : list f64) : list f64 :=
  sub (ewm_mean 12 true close) (ewm_mean 26 true close).

Definition macd_signal (close : list f64) : list f64 :=
  ewm_mean 9 false (macd_line close).

Definition macd_hist (close : list f64) : list f64 :=
  sub (macd_line close) (macd_signal close).

Definition rsi (close : list f64) : list f64 := rsi_of_delta (diff close).

Definition bb_upper (qsqrt : Q -> Q) (close : list f64) : list f64 :=
  add (rolling_mean 20 close) (scale 2 (rolling_std qsqrt 20 close)).

Definition bb_lower (qsqrt : Q -> Q) (close : list f64) : list f64 :=
  sub (rolling_mean 20 close) (scale 2 (rolling_std qsqrt 20 close)).

Definition stoch_k (close low high : list f64) : list f64 :=
  stoch_k_of close (rolling_min 14 low) (rolling_max 14 high).

Definition stoch_d (close low high : list f64) : list f64 :=
  rolling_mean 3 (stoch_k close low high).

Definition true_range (close low high : list f64) : list f64 :=
  max_axis1 (sub high low)
            (map fabs (sub high (shift close)))
            (map fabs (sub low (shift close))).

Definition atr (close low high : list f64) : list f64 :=
  rolling_mean 14 (true_range close low high).

Definition indicator_columns (qsqrt : Q -> Q) (close low high : list f64)
  : list (string * Series) :=
  [("50D MA", FloatS (rolling_mean 50 close));
   ("200D MA", FloatS (rolling_mean 200 close));
   ("MACD Line", FloatS (macd_line close));
   ("MACD Signal", FloatS (macd_signal close));
   ("MACD Hist", FloatS (macd_hist close));
   ("RSI", FloatS (rsi close));
   ("BB Middle", FloatS (rolling_mean 20 close));
   ("BB Upper", FloatS (bb_upper qsqrt close));
   ("BB Lower", FloatS (bb_lower qsqrt close));
   ("Stoch %K", FloatS (stoch_k close low high));
   ("Stoch %D", FloatS (stoch_d close low high));
   ("ATR", FloatS (atr close low high))].

Definition indicator_names : list string :=
  ["50D MA"; "200D MA"; "MACD Line"; "MACD Signal"; "MACD Hist"; "RSI";
   "BB Middle"; "BB Upper"; "BB Lower"; "Stoch %K"; "Stoch %D"; "ATR"].

Definition set_columns (cols : list (string * Series)) (df : DataFrame)
  : DataFrame :=
  fold_left (fun h c => setitem (fst c) (snd c) h) cols df.

(** The rational held by a finite value. *)
Definition qval (x : f64) : Q :=
  match x with Fin q => q | _ => 0%Q end.

(** The [gain] and [loss] columns of lines 53-54. *)
Definition gain_of (close : list f64) : list f64 :=
  where_ gt0 (Fin 0) (diff close).

Definition loss_of (close : list f64) : list f64 :=
  map fneg (where_ lt0 (Fin 0) (diff close)).

(** A finite value that is not negative, positive, zero. *)
Definition fin_nonneg (x : f64) : Prop :=
  match x with Fin q => (0 <= q)%Q | _ => False end.

Definition fin_pos (x : f64) : Prop :=
  match x with Fin q => (0 < q)%Q | _ => False end.

(** The close changes between rows [j] and [j+1]. *)
Definition moves (close : list f64) (j : nat) : bool :=
  negb (feqb (nth j close NaN) (nth (S j) close NaN)).

(** ** Sample data *)

(** A square root rounded down to a multiple of [2^-32]. *)
Definition sqrt_floor (q : Q) : Q :=
  Qmake (Z.sqrt (Qnum q * Zpos (Qden q) * 2 ^ 64))
        (Qden q * 2 ^ 32).

(** [n] bars whose close rises by one a day from 100, with the high one
    above and the low one below. *)
Definition ramp (n : nat) : list Bar :=
  map (fun i =>
         let c := inject_Z (100 + Z.of_nat i) in
         mkBar (Z.of_nat i) (Fin c) (Fin (c + 1)) (Fin (c - 1)) (Fin c) 1000%Z)
      (seq 0 n).

(** [n] identical bars. *)
Definition flat (open_ high_ low_ close_ : Q) (n : nat) : list Bar :=
  map (fun i =>
         mkBar (Z.of_nat i) (Fin open_) (Fin high_) (Fin low_) (Fin close_)
               1000%Z)
      (seq 0 n).

Definition new_york : option string := Some "America/New_York".

(** ** Warm-up lengths

    The number of leading undefined rows the specification lists for each
    rolling column. *)
Definition spec_warmup : list (string * nat) :=
  [("50D MA", 49); ("200D MA", 199); ("RSI", 14); ("BB Middle", 19);
   ("BB Upper", 19); ("BB Lower", 19); ("Stoch %K", 13); ("Stoch %D", 15);
   ("ATR", 14)].

(** A column of [aug] is as long as the series and starts with exactly
    [snd w] undefined rows. *)
Definition has_warmup (n : nat) (aug : DataFrame) (w : string * nat) : Prop :=
  length (float_col (fst w) aug) = n
  /\ leading_nan (float_col (fst w) aug) = snd w.

(** 200 bars: a close of 10, then closes rising by one a day from 5. *)
Definition dip : list Bar :=
  map (fun i =>
         let c := if i =? 0 then 10%Q else inject_Z (4 + Z.of_nat i) in
         mkBar (Z.of_nat i) (Fin c) (Fin (c + 1)) (Fin (c - 1)) (Fin c) 1000%Z)
      (seq 0 200).

(** A value that is undefined or lies in [0, 100]. *)
Definition in_0_100 (x : f64) : Prop :=
  match x with
  | NaN => True
  | Inf _ => False
  | Fin q => (0 <= q <= 100)%Q
  end.

(** The bar has [low <= close <= high]. *)
Definition close_in_range (b : Bar) : bool :=
  fleb (low b) (close b) && fleb (close b) (high b).

(** ** Sample data in binary64 *)

(** The double nearest to 10.67. *)
Definition f10_67 : float := 0x1.5570a3d70a3d7p+3%float.

(** 200 days with a low of 10.0 and a high and a close of 10.67. *)
Definition lows64 : list float := repeat 10%float 200.
Definition highs64 : list float := repeat f10_67 200.
Definition closes64 : list float := repeat f10_67 200.

(** What one identifier adds to [all_data] when its [try] block behaves as
    [P] says. *)
Definition record (P : string -> result outcome)
  (all_data : list (string * DataFrame)) (ticker : string)
  : list (string * DataFrame) :=
  match P ticker with
  | Ok (Window recent_hist) => dict_set ticker recent_hist all_data
  | _ => all_data
  end.

Definition is_print (e : effect) : bool :=
  match e with Print _ => true | _ => false end.

(** The names of the columns [process] adds to the frame. *)
Definition added_names : list string :=
  indicator_names ++ ["Ticker"; "Sector"; "Industry"].

(** The window [process] records for a price series of at least 200 bars:
    lines 41-91 applied to [history_frame tz bars]. *)
Definition report_window (qsqrt : Q -> Q) (ticker : string)
  (info : list (string * string)) (tz : option string) (bars : list Bar)
  : DataFrame :=
  let aug :=
    set_columns
      (indicator_columns qsqrt (map close bars) (map low bars)
                         (map high bars))
      (history_frame tz bars) in
  let hist :=
    setitem_scalar "Industry" (lookup "industry" info)
      (setitem_scalar "Sector" (lookup "sector" info)
         (setitem_scalar "Ticker" (Some ticker) aug)) in
  let recent := tail 5 hist in
  naive_dates
    (mkFrame (mkIndex None Int64 (map Z.of_nat (seq 0 (len recent))))
             (("Date", TimeS tz (lastn 5 (map date bars)))
                :: columns recent)).

(** Sample providers. *)
Definition listed : Ticker :=
  mkTicker (Ok [("sector", "Technology")])
           (Ok (history_frame new_york (flat 10 10 10 10 200))).

Definition unreachable : Ticker :=
  mkTicker (Ok []) (Raise (ProviderError "No data found")).

(** Three days of history, and not even price columns. *)
Definition three_days : DataFrame :=
  mkFrame (mkIndex (Some "Date") (Datetime new_york) [1%Z; 2%Z; 3%Z]) [].

Definition newly_listed : Ticker := mkTicker (Ok []) (Ok three_days).

Definition sample_provider (symbols : string) : list (string * Ticker) :=
  [("A", listed); ("B", unreachable); ("C", listed); ("NEW", newly_listed)].

(** The [try] block of an identifier that the provider serves as [fetch]
    says ([None]: the provider has no such ticker). *)
Definition try_block (qsqrt : Q -> Q) (fetch : string -> option Ticker)
  (ticker : string) : result outcome :=
  process qsqrt
          (match fetch ticker with
           | Some stock => [(ticker, stock)]
           | None => []
           end)
          ticker.

(** The groups of tickers the loop of [fetch_stock_data_run] takes in
    turn: [batch_tickers] for each [i] of [range(0, len(tickers),
    batch_size)]. *)
Definition batches (batch_size : nat) (tickers : list string)
  : list (list string) :=
  map (fun i => slice i (i + batch_size) tickers)
      (range_step (length tickers) batch_size).

(** The [try] block did not record a window. *)
Definition not_recorded (r : result outcome) : bool :=
  match r with
  | Ok (Window _) => false
  | _ => true
  end.

(** The name under which a sheet of the report is written. *)
Definition sheet_title (s : sheet) : string :=
  match s with
  | Summary _ => "Summary"
  | Sheet sheet_name _ => sheet_name
  end.

(** More sample series: [n] bars whose close falls by one a day from 1000,
    and [n] bars that close at their high, one above their low, rising by
    one a day. *)
Definition slide (n : nat) : list Bar :=
  map (fun i =>
         let c := inject_Z (1000 - Z.of_nat i) in
         mkBar (Z.of_nat i) (Fin c) (Fin (c + 1)) (Fin (c - 1)) (Fin c) 1000%Z)
      (seq 0 n).

Definition climb (n : nat) : list Bar :=
  map (fun i =>
         let c := inject_Z (100 + Z.of_nat i) in
         mkBar (Z.of_nat i) (Fin c) (Fin c) (Fin (c - 1)) (Fin c) 1000%Z)
      (seq 0 n).

(** [df.drop(columns=name)] *)
Definition without_column (name : string) (df : DataFrame) : DataFrame :=
  mkFrame (index df)
          (filter (fun c => negb (String.eqb (fst c) name)) (columns df)).

(** A list of 120 identifiers. *)
Definition sample_tickers : list string :=
  concat (repeat ["A"; "B"; "C"; "NEW"] 30).

(** [c.lower()] for an ASCII character, and [s.lower()]. *)
Definition lower_char (c : ascii) : ascii :=
  let n := nat_of_ascii c in
  if (65 <=? n) && (n <=? 90) then ascii_of_nat (n + 32) else c.

Fixpoint lower (s : string) : string :=
  match s with
  | EmptyString => EmptyString
  | String c s' => String (lower_char c) (lower s')
  end.

(** The characters that the writer refuses in the name of a sheet:
    backslash, star, question mark, colon, slash and the square
    brackets. *)
Definition forbidden_in_title (c : ascii) : bool :=
  existsb (Nat.eqb (nat_of_ascii c)) [92; 42; 63; 58; 47; 91; 93].

(** A name in ASCII without a character that the writer refuses. *)
Definition plain_name (s : string) : bool :=
  forallb (fun c => (nat_of_ascii c <? 128) && negb (forbidden_in_title c))
          (list_ascii_of_string s).

(** * Properties *)

(** ** Lists *)

Lemma zip_with_length {A B C : Type} (f : A -> B -> C) l m :
  length (zip_with f l m) = Nat.min (length l) (length m).
Proof.
  revert m; induction l as [|a l IH]; intros [|b m]; simpl; auto.
Qed.

Lemma nth_zip_with {A B C : Type} (f : A -> B -> C) l m i da db dc :
  i < length l -> i < length m ->
  nth i (zip_with f l m) dc = f (nth i l da) (nth i m db).
Proof.
  revert m i; induction l as [|a l IH]; intros [|b m] [|i]; simpl;
    try lia; auto.
  intros; apply IH; lia.
Qed.

Lemma nth_map_seq {A : Type} (f : nat -> A) n i d :
  i < n -> nth i (map f (seq 0 n)) d = f i.
Proof.
  intros Hi.
  rewrite (nth_indep _ d (f 0)) by (rewrite length_map, length_seq; lia).
  rewrite map_nth, seq_nth by lia. reflexivity.
Qed.

Lemma nth_map_in {A B : Type} (f : A -> B) l i da db :
  i < length l -> nth i (map f l) db = f (nth i l da).
Proof.
  intros Hi.
  rewrite (nth_indep _ db (f da)) by (rewrite length_map; lia).
  apply map_nth.
Qed.

Lemma lastn_length {A : Type} n (l : list A) :
  length (lastn n l) = Nat.min n (length l).
Proof. unfold lastn. rewrite length_skipn. lia. Qed.

Lemma lastn_map {A B : Type} (f : A -> B) n l :
  lastn n (map f l) = map f (lastn n l).
Proof. unfold lastn. rewrite length_map. apply skipn_map. Qed.

Lemma shift_length l : length (shift l) = length l.
Proof.
  destruct l as [|x l]; [reflexivity|].
  unfold shift. change (length (NaN :: removelast (x :: l))) with
    (S (length (removelast (x :: l)))).
  rewrite removelast_firstn_len, length_firstn. simpl. lia.
Qed.

Lemma nth_shift l i :
  nth (S i) (shift l) NaN = if S i <? length l then nth i l NaN else NaN.
Proof.
  destruct l as [|x l]; [reflexivity|].
  unfold shift. cbn [nth].
  rewrite removelast_firstn_len.
  destruct (S i <? length (x :: l)) eqn:E.
  - apply Nat.ltb_lt in E. rewrite nth_firstn.
    replace (i <? Nat.pred (length (x :: l))) with true; [reflexivity|].
    symmetry. apply Nat.ltb_lt. simpl in *. lia.
  - apply Nat.ltb_ge in E. apply nth_overflow.
    rewrite length_firstn. simpl in *. lia.
Qed.

Lemma diff_length l : length (diff l) = length l.
Proof. unfold diff. rewrite zip_with_length, shift_length. lia. Qed.

Lemma max_axis1_length a b c :
  length (max_axis1 a b c)
  = Nat.min (length a) (Nat.min (length b) (length c)).
Proof.
  revert b c; induction a as [|x a IH]; intros [|y b] [|z c]; simpl; auto.
Qed.

Lemma nth_max_axis1 a b c i :
  i < length a -> i < length b -> i < length c ->
  nth i (max_axis1 a b c) NaN
  = row_max [nth i a NaN; nth i b NaN; nth i c NaN].
Proof.
  revert b c i; induction a as [|x a IH]; intros [|y b] [|z c] [|i];
    simpl; try lia; auto.
  intros; apply IH; lia.
Qed.

(** ** Rolling windows *)

Lemma rolling_length w agg l : length (rolling w agg l) = length l.
Proof. unfold rolling. now rewrite length_map, length_seq. Qed.

Lemma nth_rolling w agg l i :
  i < length l ->
  nth i (rolling w agg l) NaN
  = if length (observed (window w i l)) <? w then NaN
    else agg (observed (window w i l)).
Proof. intros Hi. unfold rolling. now rewrite nth_map_seq. Qed.

Lemma window_length {A : Type} w i (l : list A) :
  i < length l -> length (window w i l) = Nat.min w (i + 1).
Proof.
  intros Hi. unfold window. rewrite length_skipn, length_firstn. lia.
Qed.

Lemma nth_window {A : Type} w i (l : list A) j d :
  i < length l -> j < Nat.min w (i + 1) ->
  nth j (window w i l) d = nth (i + 1 - w + j) l d.
Proof.
  intros Hi Hj. unfold window.
  rewrite nth_skipn, nth_firstn.
  replace (i + 1 - w + j <? i + 1) with true; [reflexivity|].
  symmetry. apply Nat.ltb_lt. lia.
Qed.

Lemma observed_length l : length (observed l) <= length l.
Proof.
  induction l as [|[| |q] l IH]; simpl; lia.
Qed.

Lemma observed_fin l :
  forallb is_fin l = true -> observed l = map qval l.
Proof.
  induction l as [|[| |q] l IH]; simpl; intros H; try discriminate; auto.
  now rewrite IH.
Qed.

Lemma observed_short l :
  forallb is_fin l = false -> length (observed l) < length l.
Proof.
  induction l as [|[| |q] l IH]; simpl; intros H; try discriminate;
    try (pose proof (observed_length l); lia).
  apply IH in H. lia.
Qed.

(** During the warm-up a rolling aggregate is undefined. *)
Lemma rolling_warmup w agg l i :
  i + 1 < w -> nth i (rolling w agg l) NaN = NaN.
Proof.
  intros Hw. destruct (Nat.lt_ge_cases i (length l)) as [Hi|Hi].
  - rewrite nth_rolling by assumption.
    pose proof (observed_length (window w i l)) as Ho.
    rewrite window_length in Ho by assumption.
    replace (_ <? w) with true; [reflexivity|].
    symmetry. apply Nat.ltb_lt. lia.
  - apply nth_overflow. now rewrite rolling_length.
Qed.

(** Past the warm-up, over a window of finite values, it is the aggregate
    of the window. *)
Lemma rolling_full w agg l i :
  i < length l -> w <= i + 1 ->
  forallb is_fin (window w i l) = true ->
  nth i (rolling w agg l) NaN = agg (map qval (window w i l)).
Proof.
  intros Hi Hw Hf. rewrite nth_rolling by assumption.
  rewrite observed_fin by assumption.
  rewrite length_map, window_length by assumption.
  replace (_ <? w) with false; [reflexivity|].
  symmetry. apply Nat.ltb_ge. lia.
Qed.

(** A window that holds a value that is not finite gives NaN. *)
Lemma rolling_gap w agg l i :
  i < length l ->
  forallb is_fin (window w i l) = false ->
  nth i (rolling w agg l) NaN = NaN.
Proof.
  intros Hi Hf. rewrite nth_rolling by assumption.
  apply observed_short in Hf. rewrite window_length in Hf by assumption.
  replace (_ <? w) with true; [reflexivity|].
  symmetry. apply Nat.ltb_lt. lia.
Qed.

Lemma forallb_window {A : Type} (p : A -> bool) w i (l : list A) :
  forallb p l = true -> forallb p (window w i l) = true.
Proof.
  intros H. unfold window.
  rewrite <- (firstn_skipn (i + 1) l), forallb_app in H.
  apply andb_prop in H. destruct H as [H _].
  rewrite <- (firstn_skipn (i + 1 - w) (firstn (i + 1) l)), forallb_app in H.
  apply andb_prop in H. tauto.
Qed.

Lemma leading_nan_spec l n :
  (forall i, i < n -> nth i l NaN = NaN) ->
  n < length l -> nth n l NaN <> NaN ->
  leading_nan l = n.
Proof.
  revert l; induction n as [|n IH]; intros l Hpre Hlen Hn.
  - destruct l as [|[| |q] l]; simpl in *; try lia; try reflexivity.
    congruence.
  - destruct l as [|x l]; simpl in Hlen; [lia|].
    pose proof (Hpre 0 ltac:(lia)) as H0. simpl in H0. subst x.
    simpl. f_equal. apply IH; [|lia|exact Hn].
    intros i Hi. apply (Hpre (S i)). lia.
Qed.

Lemma leading_nan_ge l n :
  (forall i, i < n -> nth i l NaN = NaN) -> n <= length l ->
  n <= leading_nan l.
Proof.
  revert l; induction n as [|n IH]; intros l Hpre Hlen; [lia|].
  destruct l as [|x l]; simpl in Hlen; [lia|].
  pose proof (Hpre 0 ltac:(lia)) as H0. simpl in H0. subst x.
  simpl. apply le_n_S, IH; [|lia].
  intros i Hi. apply (Hpre (S i)). lia.
Qed.

(** ** Dictionaries and frames *)

Lemma lookup_dict_set {V : Type} k k' (v : V) d :
  lookup k (dict_set k' v d) = if String.eqb k k' then Some v else lookup k d.
Proof.
  induction d as [|[k0 v0] d IH]; simpl; [reflexivity|].
  destruct (String.eqb k' k0) eqn:E0; simpl.
  - apply String.eqb_eq in E0. subst k0.
    destruct (String.eqb k k'); reflexivity.
  - rewrite IH. destruct (String.eqb k k0) eqn:E1; [|reflexivity].
    apply String.eqb_eq in E1. subst k0.
    now rewrite String.eqb_sym, E0.
Qed.

Lemma dict_set_keys {V : Type} k (v : V) d :
  map fst (dict_set k v d)
  = if existsb (String.eqb k) (map fst d) then map fst d
    else map fst d ++ [k].
Proof.
  induction d as [|[k0 v0] d IH]; simpl; [reflexivity|].
  destruct (String.eqb k k0) eqn:E0; simpl.
  - apply String.eqb_eq in E0. now subst k0.
  - rewrite IH. now destruct (existsb (String.eqb k) (map fst d)).
Qed.

Lemma getitem_float_setitem k k' s df :
  getitem_float k (setitem k' s df)
  = if String.eqb k k' then as_float s else getitem_float k df.
Proof.
  unfold getitem_float, getitem, dict_getitem, setitem. simpl.
  rewrite lookup_dict_set. now destruct (String.eqb k k').
Qed.

Lemma getitem_values_setitem k k' s df :
  getitem_values k (setitem k' s df)
  = if String.eqb k k' then as_values s else getitem_values k df.
Proof.
  unfold getitem_values, getitem, dict_getitem, setitem. simpl.
  rewrite lookup_dict_set. now destruct (String.eqb k k').
Qed.

(** A column that reads as numbers reads the same in a window function. *)
Lemma getitem_float_values name df v :
  getitem_float name df = Ok v -> getitem_values name df = Ok v.
Proof.
  unfold getitem_float, getitem_values.
  destruct (getitem name df) as [[w|w|w|tz w]|e]; cbn [bind as_float as_values];
    congruence.
Qed.

Lemma float_col_setitem k k' s df :
  float_col k (setitem k' s df)
  = if String.eqb k k'
    then match s with FloatS v => v | _ => [] end
    else float_col k df.
Proof.
  unfold float_col, setitem. simpl.
  rewrite lookup_dict_set. now destruct (String.eqb k k').
Qed.

Lemma index_setitem k s df : index (setitem k s df) = index df.
Proof. reflexivity. Qed.

Lemma len_setitem k s df : len (setitem k s df) = len df.
Proof. reflexivity. Qed.

Lemma index_set_columns cols df : index (set_columns cols df) = index df.
Proof.
  unfold set_columns. revert df.
  induction cols as [|c cols IH]; intros df; simpl; [reflexivity|].
  now rewrite IH.
Qed.

Lemma lookup_set_columns cols df k :
  existsb (String.eqb k) (map fst cols) = false ->
  lookup k (columns (set_columns cols df)) = lookup k (columns df).
Proof.
  unfold set_columns. revert df.
  induction cols as [|[k' s] cols IH]; intros df H; simpl in *;
    [reflexivity|].
  apply orb_false_elim in H. destruct H as [H1 H2].
  rewrite IH by assumption. simpl. rewrite lookup_dict_set. now rewrite H1.
Qed.

Ltac string_eqb := cbn [String.eqb Ascii.eqb Bool.eqb].

(** [indicators] succeeds as soon as [Close] is a column of numbers and
    the window functions can read [Low] and [High], and stores the twelve
    columns of [indicator_columns]. *)
Lemma indicators_columns_values qsqrt hist close low high :
  getitem_float "Close" hist = Ok close ->
  getitem_values "Low" hist = Ok low ->
  getitem_values "High" hist = Ok high ->
  indicators qsqrt hist
  = Ok (set_columns (indicator_columns qsqrt close low high) hist).
Proof.
  intros Hc Hl Hh. pose proof (getitem_float_values _ _ _ Hc) as Hv.
  unfold indicators.
  repeat (rewrite ?getitem_float_setitem, ?getitem_values_setitem;
          string_eqb;
          rewrite ?Hc, ?Hv, ?Hl, ?Hh; cbn [bind as_float as_values]).
  reflexivity.
Qed.

Lemma indicators_columns qsqrt hist close low high :
  getitem_float "Close" hist = Ok close ->
  getitem_float "Low" hist = Ok low ->
  getitem_float "High" hist = Ok high ->
  indicators qsqrt hist
  = Ok (set_columns (indicator_columns qsqrt close low high) hist).
Proof.
  intros Hc Hl Hh.
  apply indicators_columns_values;
    [assumption|now apply getitem_float_values..].
Qed.

(** It fails with the first column it cannot read. *)
Lemma indicators_raise_close qsqrt hist e :
  getitem_values "Close" hist = Raise e -> indicators qsqrt hist = Raise e.
Proof. intros H. unfold indicators. now rewrite H. Qed.

Lemma float_col_indicators qsqrt close low high df :
  let aug := set_columns (indicator_columns qsqrt close low high) df in
  float_col "50D MA" aug = rolling_mean 50 close /\
  float_col "200D MA" aug = rolling_mean 200 close /\
  float_col "MACD Line" aug = macd_line close /\
  float_col "MACD Signal" aug = macd_signal close /\
  float_col "MACD Hist" aug = macd_hist close /\
  float_col "RSI" aug = rsi close /\
  float_col "BB Middle" aug = rolling_mean 20 close /\
  float_col "BB Upper" aug = bb_upper qsqrt close /\
  float_col "BB Lower" aug = bb_lower qsqrt close /\
  float_col "Stoch %K" aug = stoch_k close low high /\
  float_col "Stoch %D" aug = stoch_d close low high /\
  float_col "ATR" aug = atr close low high.
Proof.
  unfold set_columns, indicator_columns. cbn [fold_left fst snd].
  repeat split; repeat (rewrite float_col_setitem; string_eqb);
    reflexivity.
Qed.

Lemma history_frame_columns tz bars :
  getitem_float "Close" (history_frame tz bars) = Ok (map close bars) /\
  getitem_float "Low" (history_frame tz bars) = Ok (map low bars) /\
  getitem_float "High" (history_frame tz bars) = Ok (map high bars).
Proof. repeat split. Qed.

Lemma indicators_history_frame qsqrt tz bars :
  indicators qsqrt (history_frame tz bars)
  = Ok (set_columns
          (indicator_columns qsqrt (map close bars) (map low bars)
                             (map high bars))
          (history_frame tz bars)).
Proof. apply indicators_columns; reflexivity. Qed.

(** ** Arithmetic on column values *)

Lemma Qred_zero q : (q == 0)%Q -> Qred q = 0%Q.
Proof. intros H. now rewrite (Qred_complete _ _ H). Qed.

Lemma num_eq q v : num q = Fin v -> (v == q)%Q.
Proof.
  unfold num. intros H. assert (E : Qred q = v) by congruence.
  rewrite <- E. apply Qred_correct.
Qed.

Lemma Qeq_bool_false q : ~ (q == 0)%Q -> Qeq_bool q 0 = false.
Proof.
  intros H. destruct (Qeq_bool q 0) eqn:E; [|reflexivity].
  apply Qeq_bool_iff in E. contradiction.
Qed.

Lemma Qeq_bool_true q : (q == 0)%Q -> Qeq_bool q 0 = true.
Proof. apply Qeq_bool_iff. Qed.

Lemma Qneg_false q : (0 <= q)%Q -> Qneg q = false.
Proof.
  intros H. unfold Qneg. apply Qle_bool_iff in H. now rewrite H.
Qed.

Lemma Qsum_nonneg l : Forall (fun q => 0 <= q)%Q l -> (0 <= Qsum l)%Q.
Proof.
  induction 1 as [|q l Hq _ IH]; simpl; [apply Qle_refl|].
  change 0%Q with (0 + 0)%Q at 1. now apply Qplus_le_compat.
Qed.

Lemma Qsum_pos l :
  Forall (fun q => 0 <= q)%Q l -> Exists (fun q => 0 < q)%Q l ->
  (0 < Qsum l)%Q.
Proof.
  intros Hall Hex. induction Hex as [q l Hq|q l _ IH]; simpl;
    inversion Hall as [|? ? Hq0 Hl]; subst.
  - apply Qsum_nonneg in Hl. lra.
  - specialize (IH Hl). lra.
Qed.

Lemma Qsum_zero l : Forall (fun q => q == 0)%Q l -> (Qsum l == 0)%Q.
Proof.
  induction 1 as [|q l Hq _ IH]; simpl; [reflexivity|].
  rewrite Hq, IH. reflexivity.
Qed.

Lemma Qlen_pos l : l <> [] -> (0 < Qlen l)%Q.
Proof.
  intros H. unfold Qlen. destruct l as [|x l]; [congruence|].
  change 0%Q with (inject_Z 0). rewrite <- Zlt_Qlt. simpl length. lia.
Qed.

Lemma Qmean_nonneg l :
  l <> [] -> Forall (fun q => 0 <= q)%Q l -> (0 <= Qmean l)%Q.
Proof.
  intros Hne Hall. unfold Qmean.
  apply Qle_shift_div_l; [now apply Qlen_pos|].
  apply Qsum_nonneg in Hall. lra.
Qed.

Lemma Qmean_pos l :
  Forall (fun q => 0 <= q)%Q l -> Exists (fun q => 0 < q)%Q l ->
  (0 < Qmean l)%Q.
Proof.
  intros Hall Hex. unfold Qmean.
  apply Qlt_shift_div_l.
  - apply Qlen_pos. intros ->. inversion Hex.
  - pose proof (Qsum_pos l Hall Hex). lra.
Qed.

Lemma Qmean_zero l : Forall (fun q => q == 0)%Q l -> (Qmean l == 0)%Q.
Proof.
  intros H. unfold Qmean. rewrite (Qsum_zero l H).
  unfold Qdiv. apply Qmult_0_l.
Qed.

Lemma fold_left_Qmin_le l x :
  (fold_left Qmin l x <= x)%Q
  /\ Forall (fun q => fold_left Qmin l x <= q)%Q l.
Proof.
  revert x; induction l as [|y l IH]; intros x; simpl.
  - split; [apply Qle_refl|constructor].
  - destruct (IH (Qmin x y)) as [H1 H2]. split.
    + eapply Qle_trans; [exact H1|apply Q.le_min_l].
    + constructor; [|exact H2].
      eapply Qle_trans; [exact H1|apply Q.le_min_r].
Qed.

Lemma fold_left_Qmax_ge l x :
  (x <= fold_left Qmax l x)%Q
  /\ Forall (fun q => q <= fold_left Qmax l x)%Q l.
Proof.
  revert x; induction l as [|y l IH]; intros x; simpl.
  - split; [apply Qle_refl|constructor].
  - destruct (IH (Qmax x y)) as [H1 H2]. split.
    + eapply Qle_trans; [apply Q.le_max_l|exact H1].
    + constructor; [|exact H2].
      eapply Qle_trans; [apply Q.le_max_r|exact H1].
Qed.

Lemma Qmin_list_le l q : In q l -> (Qmin_list l <= q)%Q.
Proof.
  destruct l as [|x l]; simpl; [tauto|].
  destruct (fold_left_Qmin_le l x) as [H1 H2].
  intros [<-|Hin]; [exact H1|].
  rewrite Forall_forall in H2. now apply H2.
Qed.

Lemma Qmax_list_ge l q : In q l -> (q <= Qmax_list l)%Q.
Proof.
  destruct l as [|x l]; simpl; [tauto|].
  destruct (fold_left_Qmax_ge l x) as [H1 H2].
  intros [<-|Hin]; [exact H1|].
  rewrite Forall_forall in H2. now apply H2.
Qed.

(** Pointwise reading of the column operations: they give NaN where an
    operand is NaN, so the equations hold at every row. *)
Lemma nth_zip_strict (f : f64 -> f64 -> f64) a b i :
  (forall y, f NaN y = NaN) -> (forall x, f x NaN = NaN) ->
  nth i (zip_with f a b) NaN = f (nth i a NaN) (nth i b NaN).
Proof.
  intros Hl Hr. revert b i.
  induction a as [|x a IH]; intros [|y b] [|i]; simpl; auto.
Qed.

Lemma nth_sub a b i : nth i (sub a b) NaN = fsub (nth i a NaN) (nth i b NaN).
Proof. apply nth_zip_strict; [reflexivity|now intros [| |]]. Qed.

Lemma nth_add a b i : nth i (add a b) NaN = fadd (nth i a NaN) (nth i b NaN).
Proof. apply nth_zip_strict; [reflexivity|now intros [| |]]. Qed.

Lemma nth_div a b i : nth i (div a b) NaN = fdiv (nth i a NaN) (nth i b NaN).
Proof. apply nth_zip_strict; [reflexivity|now intros [| |]]. Qed.

Lemma nth_map_strict (f : f64 -> f64) a i :
  f NaN = NaN -> nth i (map f a) NaN = f (nth i a NaN).
Proof. intros H. rewrite <- H at 1. apply map_nth. Qed.

Lemma nth_scale k a i : nth i (scale k a) NaN = fmul (Fin k) (nth i a NaN).
Proof. unfold scale. now apply nth_map_strict. Qed.

Lemma forallb_nth {A : Type} (p : A -> bool) l d :
  (forall i, i < length l -> p (nth i l d) = true) -> forallb p l = true.
Proof.
  intros H. apply forallb_forall. intros x Hx.
  destruct (In_nth l x d Hx) as [i [Hi <-]]. now apply H.
Qed.

Lemma nth_forallb {A : Type} (p : A -> bool) l d i :
  forallb p l = true -> i < length l -> p (nth i l d) = true.
Proof.
  intros H Hi. rewrite forallb_forall in H. apply H. now apply nth_In.
Qed.

Lemma is_fin_qval x : is_fin x = true -> x = Fin (qval x).
Proof. now destruct x. Qed.

Lemma In_window {A : Type} w i j (l : list A) d :
  i < length l -> i + 1 - w <= j -> j <= i ->
  In (nth j l d) (window w i l).
Proof.
  intros Hi Hj1 Hj2.
  replace j with (i + 1 - w + (j - (i + 1 - w))) by lia.
  rewrite <- (nth_window w i l) by lia.
  apply nth_In. rewrite window_length by assumption. lia.
Qed.

Lemma window_has_gap w i j l :
  i < length l -> i + 1 - w <= j -> j <= i ->
  is_fin (nth j l NaN) = false ->
  forallb is_fin (window w i l) = false.
Proof.
  intros Hi Hj1 Hj2 Hn.
  destruct (forallb is_fin (window w i l)) eqn:E; [|reflexivity].
  rewrite forallb_forall in E.
  rewrite (E _ (In_window w i j l NaN Hi Hj1 Hj2)) in Hn. discriminate.
Qed.

(** ** Warm-up of the rolling columns *)

Lemma Forall_window {A : Type} (P : A -> Prop) w i (l : list A) d :
  i < length l ->
  (forall j, i + 1 - w <= j -> j <= i -> P (nth j l d)) ->
  Forall P (window w i l).
Proof.
  intros Hi H. apply Forall_forall. intros x Hx.
  destruct (In_nth _ _ d Hx) as [k [Hk <-]].
  rewrite window_length in Hk by assumption.
  rewrite nth_window by assumption. apply H; lia.
Qed.

Lemma fin_nonneg_is_fin x : fin_nonneg x -> is_fin x = true.
Proof. now destruct x. Qed.

Lemma fin_pos_nonneg x : fin_pos x -> fin_nonneg x.
Proof. destruct x; simpl; auto. apply Qlt_le_weak. Qed.

Lemma Forall_fin_nonneg l :
  Forall fin_nonneg l ->
  forallb is_fin l = true /\ Forall (fun q => 0 <= q)%Q (map qval l).
Proof.
  induction 1 as [|x l Hx _ [IH1 IH2]]; simpl; [now split|].
  split.
  - now rewrite (fin_nonneg_is_fin x Hx).
  - constructor; [|exact IH2]. now destruct x.
Qed.

Lemma rolling_leading w agg l :
  1 <= w -> w <= length l -> forallb is_fin l = true ->
  (forall obs, length obs = w -> agg obs <> NaN) ->
  leading_nan (rolling w agg l) = w - 1.
Proof.
  intros Hw Hl Hf Hagg. apply leading_nan_spec.
  - intros i Hi. apply rolling_warmup. lia.
  - rewrite rolling_length. lia.
  - rewrite rolling_full; try lia; [|now apply forallb_window].
    apply Hagg. rewrite length_map, window_length; lia.
Qed.

Lemma rolling_mean_leading w l :
  1 <= w -> w <= length l -> forallb is_fin l = true ->
  leading_nan (rolling_mean w l) = w - 1.
Proof.
  intros. apply rolling_leading; auto. discriminate.
Qed.

Lemma rolling_mean_fin w l i :
  i < length l -> w <= i + 1 -> forallb is_fin (window w i l) = true ->
  nth i (rolling_mean w l) NaN = num (Qmean (map qval (window w i l))).
Proof. intros. unfold rolling_mean. now rewrite rolling_full. Qed.

Lemma ewm_loop_length alpha adjust vals weighted old_wt nobs :
  length (ewm_loop alpha adjust vals weighted old_wt nobs) = length vals.
Proof.
  revert weighted old_wt nobs.
  induction vals as [|cur rest IH]; intros; [reflexivity|].
  cbn [ewm_loop].
  destruct (negb (is_nan weighted)), (negb (is_nan cur));
    cbn [length]; now rewrite IH.
Qed.

Lemma prep_values_length vals : length (prep_values vals) = length vals.
Proof. apply length_map. Qed.

(** Finite values, and NaN, pass unchanged. *)
Lemma prep_values_fin vals :
  forallb is_fin vals = true -> prep_values vals = vals.
Proof.
  induction vals as [|[| |x] rest IH]; simpl; try discriminate;
    [reflexivity|].
  intros H. now rewrite IH.
Qed.

Lemma forallb_is_fin_repeat c n : forallb is_fin (repeat (Fin c) n) = true.
Proof. induction n as [|n IH]; [reflexivity|exact IH]. Qed.

Lemma ewm_mean_length span adjust vals :
  length (ewm_mean span adjust vals) = length vals.
Proof.
  unfold ewm_mean. rewrite <- (prep_values_length vals).
  destruct (prep_values vals) as [|v0 rest]; [reflexivity|].
  cbn [length]. now rewrite ewm_loop_length.
Qed.

Lemma where_length cond other l : length (where_ cond other l) = length l.
Proof. apply length_map. Qed.

Lemma sub_length a b : length (sub a b) = Nat.min (length a) (length b).
Proof. apply zip_with_length. Qed.

Lemma add_length a b : length (add a b) = Nat.min (length a) (length b).
Proof. apply zip_with_length. Qed.

Lemma div_length a b : length (div a b) = Nat.min (length a) (length b).
Proof. apply zip_with_length. Qed.

Lemma scale_length k a : length (scale k a) = length a.
Proof. apply length_map. Qed.

Ltac col_length :=
  unfold rolling_mean, rolling_std, rolling_min, rolling_max;
  repeat first
    [ rewrite length_map | rewrite rolling_length | rewrite ewm_mean_length
    | rewrite sub_length | rewrite add_length | rewrite div_length
    | rewrite scale_length | rewrite where_length | rewrite diff_length
    | rewrite shift_length | rewrite max_axis1_length ].

(** Every indicator column is as long as the price columns. *)
Lemma indicator_columns_length qsqrt close low high n name s :
  length close = n -> length low = n -> length high = n ->
  In (name, s) (indicator_columns qsqrt close low high) ->
  exists v, s = FloatS v /\ length v = n.
Proof.
  intros Hc Hl Hh Hin. unfold indicator_columns in Hin.
  repeat (destruct Hin as [Hin|Hin];
          [injection Hin as <- <-; eexists; split; [reflexivity|]|]);
    [..|destruct Hin].
  all: unfold macd_hist, macd_signal, macd_line, rsi, rsi_of_delta,
         bb_upper, bb_lower, stoch_d, stoch_k, stoch_k_of, atr, true_range,
         rolling_mean, rolling_std, rolling_min, rolling_max;
       col_length; lia.
Qed.

(** ** RSI *)

Lemma Qle_bool_false x y : Qle_bool x y = false <-> (y < x)%Q.
Proof.
  split; intros H.
  - apply Qnot_le_lt. intros Hle. apply Qle_bool_iff in Hle. congruence.
  - destruct (Qle_bool x y) eqn:E; [|reflexivity].
    apply Qle_bool_iff in E. lra.
Qed.

Lemma nth_diff_0 close : nth 0 (diff close) NaN = NaN.
Proof.
  change (diff close) with (sub close (shift close)). rewrite nth_sub.
  replace (nth 0 (shift close) NaN) with NaN by now destruct close.
  now destruct (nth 0 close NaN).
Qed.

Lemma nth_diff_S close i a b :
  S i < length close ->
  nth i close NaN = Fin a -> nth (S i) close NaN = Fin b ->
  nth (S i) (diff close) NaN = num (b - a).
Proof.
  intros Hi Ha Hb.
  change (diff close) with (sub close (shift close)).
  rewrite nth_sub, nth_shift, Hb.
  apply Nat.ltb_lt in Hi. now rewrite Hi, Ha.
Qed.

Lemma nth_gain close j :
  j < length close ->
  nth j (gain_of close) NaN
  = (let d := nth j (diff close) NaN in if gt0 d then d else Fin 0).
Proof.
  intros Hj. unfold gain_of, where_.
  now rewrite (nth_map_in _ _ _ NaN) by (rewrite diff_length; lia).
Qed.

Lemma nth_loss close j :
  j < length close ->
  nth j (loss_of close) NaN
  = fneg (let d := nth j (diff close) NaN in if lt0 d then d else Fin 0).
Proof.
  intros Hj. unfold loss_of, where_.
  rewrite (nth_map_in _ _ _ NaN) by (rewrite length_map, diff_length; lia).
  now rewrite (nth_map_in _ _ _ NaN) by (rewrite diff_length; lia).
Qed.

(** The first row has no previous close: [where] turns its NaN delta into
    0, in the gains and in the losses. *)
Lemma gain_loss_0 close :
  0 < length close ->
  nth 0 (gain_of close) NaN = Fin 0 /\ nth 0 (loss_of close) NaN = Fin 0.
Proof.
  intros H. rewrite nth_gain, nth_loss by assumption.
  rewrite nth_diff_0. split; reflexivity.
Qed.

Lemma gain_loss_S close i a b :
  S i < length close ->
  nth i close NaN = Fin a -> nth (S i) close NaN = Fin b ->
  let g := nth (S i) (gain_of close) NaN in
  let l := nth (S i) (loss_of close) NaN in
  ((a < b)%Q -> fin_pos g /\ l = Fin 0) /\
  ((b < a)%Q -> g = Fin 0 /\ fin_pos l) /\
  ((a == b)%Q -> g = Fin 0 /\ l = Fin 0).
Proof.
  intros Hi Ha Hb. cbv zeta.
  rewrite nth_gain, nth_loss by assumption.
  rewrite (nth_diff_S close i a b Hi Ha Hb). cbv zeta.
  unfold gt0, lt0, num. cbn [fltb].
  pose proof (Qred_correct (b - a)) as Hr.
  split; [|split]; intros H; split.
  - replace (Qle_bool (Qred (b - a)) 0) with false
      by (symmetry; apply Qle_bool_false; lra).
    cbn [negb fin_pos]. lra.
  - replace (Qle_bool 0 (Qred (b - a))) with true
      by (symmetry; apply Qle_bool_iff; lra).
    reflexivity.
  - replace (Qle_bool (Qred (b - a)) 0) with true
      by (symmetry; apply Qle_bool_iff; lra).
    reflexivity.
  - replace (Qle_bool 0 (Qred (b - a))) with false
      by (symmetry; apply Qle_bool_false; lra).
    cbn [negb fneg fin_pos num].
    pose proof (Qred_correct (- Qred (b - a))) as Hr'. lra.
  - replace (Qle_bool (Qred (b - a)) 0) with true
      by (symmetry; apply Qle_bool_iff; lra).
    reflexivity.
  - replace (Qle_bool 0 (Qred (b - a))) with true
      by (symmetry; apply Qle_bool_iff; lra).
    reflexivity.
Qed.

Lemma gain_loss_nonneg close j :
  j < length close ->
  (forall k, j - 1 <= k -> k <= j -> is_fin (nth k close NaN) = true) ->
  fin_nonneg (nth j (gain_of close) NaN)
  /\ fin_nonneg (nth j (loss_of close) NaN).
Proof.
  intros Hj Hf. destruct j as [|i].
  - destruct (gain_loss_0 close Hj) as [-> ->]. simpl. lra.
  - pose proof (is_fin_qval _ (Hf i ltac:(lia) ltac:(lia))) as Ha.
    pose proof (is_fin_qval _ (Hf (S i) ltac:(lia) ltac:(lia))) as Hb.
    destruct (gain_loss_S close i _ _ Hj Ha Hb) as [H1 [H2 H3]].
    destruct (Q_dec (qval (nth i close NaN)) (qval (nth (S i) close NaN)))
      as [[H|H]|H].
    + destruct (H1 H) as [Hg ->]. split; [now apply fin_pos_nonneg|].
      simpl; lra.
    + destruct (H2 H) as [-> Hl]. split; [simpl; lra|].
      now apply fin_pos_nonneg.
    + destruct (H3 H) as [-> ->]. simpl. lra.
Qed.

Lemma rsi_formula_NaN : rsi_formula NaN = NaN.
Proof. reflexivity. Qed.

(** With no loss and some gain, [rs] is infinite and the formula gives
    exactly 100. *)
Lemma rsi_formula_saturates g l :
  (0 < g)%Q -> (l == 0)%Q ->
  rsi_formula (fdiv (num g) (num l)) = Fin 100.
Proof.
  intros Hg Hl. unfold num. rewrite (Qred_zero l Hl).
  pose proof (Qred_correct g) as Hr. cbn [fdiv].
  change (Qeq_bool 0 0) with true. cbv iota.
  rewrite Qeq_bool_false by lra. rewrite Qneg_false by lra.
  reflexivity.
Qed.

(** With neither gain nor loss, [rs] is [0/0] and the formula gives NaN. *)
Lemma rsi_formula_flat g l :
  (g == 0)%Q -> (l == 0)%Q -> rsi_formula (fdiv (num g) (num l)) = NaN.
Proof.
  intros Hg Hl. unfold num. now rewrite (Qred_zero g Hg), (Qred_zero l Hl).
Qed.

Lemma rsi_formula_defined g l :
  (0 <= g)%Q -> ~ ((g == 0)%Q /\ (l == 0)%Q) ->
  rsi_formula (fdiv (num g) (num l)) <> NaN.
Proof.
  intros Hg Hn. destruct (Qeq_dec l 0) as [Hl|Hl].
  - rewrite rsi_formula_saturates; [discriminate| |exact Hl].
    destruct (Qeq_dec g 0); [tauto|lra].
  - unfold num. pose proof (Qred_correct l) as Hr. cbn [fdiv].
    rewrite Qeq_bool_false by lra.
    unfold rsi_formula, num. cbn [fadd fdiv num].
    destruct (Qeq_bool _ 0); discriminate.
Qed.

(** Row [i] of the RSI column, once the closes of rows [i-14 .. i] are
    finite: the formula applied to the two window means. *)
Lemma nth_rsi close i :
  13 <= i -> i < length close ->
  (forall j, i - 14 <= j -> j <= i -> is_fin (nth j close NaN) = true) ->
  let G := map qval (window 14 i (gain_of close)) in
  let L := map qval (window 14 i (loss_of close)) in
  nth i (rsi close) NaN = rsi_formula (fdiv (num (Qmean G)) (num (Qmean L)))
  /\ Forall (fun q => 0 <= q)%Q G /\ Forall (fun q => 0 <= q)%Q L.
Proof.
  intros Hi Hlen Hf. cbv zeta.
  assert (HG : Forall fin_nonneg (window 14 i (gain_of close))).
  { apply (Forall_window _ _ _ _ NaN);
      [unfold gain_of; now rewrite where_length, diff_length|].
    intros j Hj1 Hj2. apply gain_loss_nonneg; [lia|].
    intros k Hk1 Hk2. apply Hf; lia. }
  assert (HL : Forall fin_nonneg (window 14 i (loss_of close))).
  { apply (Forall_window _ _ _ _ NaN);
      [unfold loss_of; now rewrite length_map, where_length, diff_length|].
    intros j Hj1 Hj2. apply gain_loss_nonneg; [lia|].
    intros k Hk1 Hk2. apply Hf; lia. }
  apply Forall_fin_nonneg in HG, HL.
  destruct HG as [HG1 HG2], HL as [HL1 HL2].
  split; [|split; assumption].
  change (rsi close) with
    (map rsi_formula
       (div (rolling_mean 14 (gain_of close))
            (rolling_mean 14 (loss_of close)))).
  rewrite nth_map_strict by reflexivity. rewrite nth_div.
  rewrite !rolling_mean_fin; auto; try lia.
  - unfold loss_of. now rewrite length_map, where_length, diff_length.
  - unfold gain_of. now rewrite where_length, diff_length.
Qed.

(** Before row 13 the RSI is undefined. *)
Lemma rsi_warmup close i : i < 13 -> nth i (rsi close) NaN = NaN.
Proof.
  intros Hi.
  change (rsi close) with
    (map rsi_formula
       (div (rolling_mean 14 (gain_of close))
            (rolling_mean 14 (loss_of close)))).
  rewrite nth_map_strict by reflexivity. rewrite nth_div.
  unfold rolling_mean. now rewrite rolling_warmup by lia.
Qed.

Lemma window_Exists_pos w i j l :
  i < length l -> i + 1 - w <= j -> j <= i ->
  fin_pos (nth j l NaN) ->
  Exists (fun q => 0 < q)%Q (map qval (window w i l)).
Proof.
  intros Hi Hj1 Hj2 Hp. apply Exists_exists.
  exists (qval (nth j l NaN)). split.
  - apply in_map. now apply In_window.
  - now destruct (nth j l NaN).
Qed.

Lemma gain_of_length close : length (gain_of close) = length close.
Proof. unfold gain_of. now rewrite where_length, diff_length. Qed.

Lemma loss_of_length close : length (loss_of close) = length close.
Proof.
  unfold loss_of. now rewrite length_map, where_length, diff_length.
Qed.

Lemma feqb_false_neq a b :
  feqb (Fin a) (Fin b) = false -> (a < b)%Q \/ (b < a)%Q.
Proof.
  simpl. intros H. destruct (Q_dec a b) as [[H'|H']|H']; auto.
  apply Qeq_bool_iff in H'. congruence.
Qed.

(** The RSI column has 13 leading undefined rows, and no more as soon as
    the close moves within the first 14 rows. *)
Lemma rsi_leading close :
  14 <= length close -> forallb is_fin close = true ->
  13 <= leading_nan (rsi close)
  /\ (existsb (moves close) (seq 0 13) = true ->
      leading_nan (rsi close) = 13).
Proof.
  intros Hlen Hf.
  assert (Hlen' : length (rsi close) = length close).
  { unfold rsi, rsi_of_delta. col_length. lia. }
  split.
  - apply leading_nan_ge; [|lia]. intros i Hi. now apply rsi_warmup.
  - intros Hm. apply leading_nan_spec; [|lia|].
    + intros i Hi. now apply rsi_warmup.
    + destruct (nth_rsi close 13) as [-> [HG HL]]; try lia.
      { intros j _ Hj. apply nth_forallb; [assumption|lia]. }
      apply existsb_exists in Hm. destruct Hm as [j [Hj Hmj]].
      apply in_seq in Hj. unfold moves in Hmj.
      apply negb_true_iff in Hmj.
      pose proof (is_fin_qval _ (nth_forallb is_fin close NaN j Hf
                                   ltac:(lia))) as Ha.
      pose proof (is_fin_qval _ (nth_forallb is_fin close NaN (S j) Hf
                                   ltac:(lia))) as Hb.
      rewrite Ha, Hb in Hmj. apply feqb_false_neq in Hmj.
      destruct (gain_loss_S close j _ _ ltac:(lia) Ha Hb) as [H1 [H2 _]].
      apply rsi_formula_defined.
      * apply Qmean_nonneg; [|exact HG].
        intros E. apply (f_equal (@length Q)) in E.
        rewrite length_map, window_length in E
          by (rewrite gain_of_length; lia).
        simpl in E. lia.
      * intros [E1 E2]. destruct Hmj as [Hlt|Hlt].
        -- destruct (H1 Hlt) as [Hp _].
           assert (0 < Qmean (map qval (window 14 13 (gain_of close))))%Q.
           { apply Qmean_pos; [exact HG|].
             apply (window_Exists_pos 14 13 (S j));
               [rewrite gain_of_length|..]; auto; lia. }
           lra.
        -- destruct (H2 Hlt) as [_ Hp].
           assert (0 < Qmean (map qval (window 14 13 (loss_of close))))%Q.
           { apply Qmean_pos; [exact HL|].
             apply (window_Exists_pos 14 13 (S j));
               [rewrite loss_of_length|..]; auto; lia. }
           lra.
Qed.

Lemma Forall_qval_zero l :
  Forall (fun x => x = Fin 0) l -> Forall (fun q => q == 0)%Q (map qval l).
Proof.
  induction 1 as [|x l Hx _ IH]; simpl; constructor; auto.
  subst x. reflexivity.
Qed.

(** Over rows [i-14 .. i] with finite closes that never fall and rise at
    least once, the RSI of row [i] is exactly 100. *)
Lemma rsi_saturates close i :
  13 <= i -> i < length close ->
  (forall j, i - 14 <= j -> j <= i -> is_fin (nth j close NaN) = true) ->
  (forall j, i - 14 <= j -> j < i ->
             fleb (nth j close NaN) (nth (S j) close NaN) = true) ->
  (exists j, i - 14 <= j /\ j < i
             /\ fltb (nth j close NaN) (nth (S j) close NaN) = true) ->
  nth i (rsi close) NaN = Fin 100.
Proof.
  intros Hi Hlen Hf Hmono [j [Hj1 [Hj2 Hup]]].
  destruct (nth_rsi close i Hi Hlen Hf) as [-> [HG HL]].
  apply rsi_formula_saturates.
  - apply Qmean_pos; [exact HG|].
    apply (window_Exists_pos 14 i (S j));
      [rewrite gain_of_length; lia|lia|lia|].
    pose proof (is_fin_qval _ (Hf j ltac:(lia) ltac:(lia))) as Ha.
    pose proof (is_fin_qval _ (Hf (S j) ltac:(lia) ltac:(lia))) as Hb.
    destruct (gain_loss_S close j _ _ ltac:(lia) Ha Hb) as [H1 _].
    rewrite Ha, Hb in Hup. simpl in Hup.
    apply negb_true_iff, Qle_bool_false in Hup.
    now destruct (H1 Hup).
  - apply Qmean_zero, Forall_qval_zero.
    apply (Forall_window _ _ _ _ NaN); [rewrite loss_of_length; lia|].
    intros k Hk1 Hk2. destruct k as [|k].
    + now destruct (gain_loss_0 close ltac:(lia)).
    + pose proof (is_fin_qval _ (Hf k ltac:(lia) ltac:(lia))) as Ha.
      pose proof (is_fin_qval _ (Hf (S k) ltac:(lia) ltac:(lia))) as Hb.
      destruct (gain_loss_S close k _ _ ltac:(lia) Ha Hb) as [H1 [_ H3]].
      pose proof (Hmono k ltac:(lia) ltac:(lia)) as Hle.
      rewrite Ha, Hb in Hle. simpl in Hle. apply Qle_bool_iff in Hle.
      destruct (Qle_lt_or_eq _ _ Hle) as [H|H].
      * now destruct (H1 H).
      * now destruct (H3 H).
Qed.

(** ** Rolling aggregates that are defined *)

Lemma forallb_window_nth {A : Type} (p : A -> bool) w i (l : list A) d :
  i < length l ->
  (forall j, i + 1 - w <= j -> j <= i -> p (nth j l d) = true) ->
  forallb p (window w i l) = true.
Proof.
  intros Hi H. apply forallb_forall. apply Forall_forall.
  now apply (Forall_window (fun x => p x = true) w i l d).
Qed.

(** A finite rolling aggregate comes from a full window of finite
    values. *)
Lemma rolling_fin_inv w agg l i v :
  i < length l -> nth i (rolling w agg l) NaN = Fin v ->
  w <= i + 1 /\ forallb is_fin (window w i l) = true
  /\ agg (map qval (window w i l)) = Fin v.
Proof.
  intros Hi H.
  assert (Hw : w <= i + 1).
  { destruct (Nat.le_gt_cases w (i + 1)) as [Hw|Hw]; [exact Hw|].
    rewrite rolling_warmup in H by lia. discriminate. }
  destruct (forallb is_fin (window w i l)) eqn:Hf.
  - rewrite rolling_full in H by assumption. auto.
  - rewrite rolling_gap in H by assumption. discriminate.
Qed.

Lemma rolling_min_le low i v :
  i < length low -> nth i (rolling_min 14 low) NaN = Fin v ->
  exists a, nth i low NaN = Fin a /\ (v <= a)%Q.
Proof.
  intros Hi H. unfold rolling_min in H.
  destruct (rolling_fin_inv _ _ _ _ _ Hi H) as [Hw [Hf Hv]].
  pose proof (In_window 14 i i low NaN Hi ltac:(lia) ltac:(lia)) as Hin.
  rewrite forallb_forall in Hf.
  pose proof (is_fin_qval _ (Hf _ Hin)) as Ha.
  exists (qval (nth i low NaN)). split; [exact Ha|].
  injection Hv as <-. rewrite Qred_correct.
  apply Qmin_list_le. now apply in_map.
Qed.

Lemma rolling_max_ge high i v :
  i < length high -> nth i (rolling_max 14 high) NaN = Fin v ->
  exists b, nth i high NaN = Fin b /\ (b <= v)%Q.
Proof.
  intros Hi H. unfold rolling_max in H.
  destruct (rolling_fin_inv _ _ _ _ _ Hi H) as [Hw [Hf Hv]].
  pose proof (In_window 14 i i high NaN Hi ltac:(lia) ltac:(lia)) as Hin.
  rewrite forallb_forall in Hf.
  pose proof (is_fin_qval _ (Hf _ Hin)) as Hb.
  exists (qval (nth i high NaN)). split; [exact Hb|].
  injection Hv as <-. rewrite Qred_correct.
  apply Qmax_list_ge. now apply in_map.
Qed.

(** A rolling minimum, maximum or mean is NaN or finite. *)
Lemma rolling_num_cases w f l i :
  nth i (rolling w (fun obs => num (f obs)) l) NaN = NaN
  \/ exists v, nth i (rolling w (fun obs => num (f obs)) l) NaN = Fin v.
Proof.
  destruct (Nat.lt_ge_cases i (length l)) as [Hi|Hi].
  - rewrite nth_rolling by assumption.
    destruct (_ <? w); [now left|right]. unfold num. eauto.
  - left. apply nth_overflow. now rewrite rolling_length.
Qed.

(** ** Stochastic oscillator *)

Lemma nth_stoch_k close low high i :
  nth i (stoch_k close low high) NaN
  = fdiv (fmul (Fin 100)
               (fsub (nth i close NaN) (nth i (rolling_min 14 low) NaN)))
         (fsub (nth i (rolling_max 14 high) NaN)
               (nth i (rolling_min 14 low) NaN)).
Proof.
  unfold stoch_k, stoch_k_of. now rewrite nth_div, nth_scale, !nth_sub.
Qed.

Lemma fsub_NaN_r x : fsub x NaN = NaN.
Proof. now destruct x. Qed.

Lemma fdiv_NaN_r x : fdiv x NaN = NaN.
Proof. now destruct x. Qed.

Lemma stoch_k_warmup close low high i :
  i < 13 -> nth i (stoch_k close low high) NaN = NaN.
Proof.
  intros Hi. rewrite nth_stoch_k. unfold rolling_min.
  rewrite rolling_warmup by lia. now rewrite !fsub_NaN_r.
Qed.

(** Where the bar has [low <= close <= high], %K is undefined or lies in
    [0, 100]. *)
Lemma stoch_k_bounded close low high i :
  i < length low -> i < length high ->
  fleb (nth i low NaN) (nth i close NaN) = true ->
  fleb (nth i close NaN) (nth i high NaN) = true ->
  match nth i (stoch_k close low high) NaN with
  | NaN => True
  | Inf _ => False
  | Fin x => (0 <= x <= 100)%Q
  end.
Proof.
  intros Hl Hh Hlc Hch. rewrite nth_stoch_k.
  destruct (rolling_num_cases 14 Qmin_list low i) as [E|[l E]];
    fold (rolling_min 14 low) in E; rewrite E.
  { now rewrite !fsub_NaN_r. }
  destruct (rolling_num_cases 14 Qmax_list high i) as [E'|[h E']];
    fold (rolling_max 14 high) in E'; rewrite E'.
  { cbn [fsub]. now rewrite fdiv_NaN_r. }
  destruct (rolling_min_le low i l Hl E) as [a [Ha Hla]].
  destruct (rolling_max_ge high i h Hh E') as [b [Hb Hbh]].
  rewrite Ha in Hlc. rewrite Hb in Hch.
  destruct (nth i close NaN) as [|s|c]; try discriminate.
  { destruct s; discriminate. }
  simpl in Hlc, Hch. apply Qle_bool_iff in Hlc, Hch.
  unfold fsub, fmul, fdiv, num.
  pose proof (Qred_correct (c - l)) as R1.
  pose proof (Qred_correct (100 * Qred (c - l))) as R2.
  pose proof (Qred_correct (h - l)) as R3.
  destruct (Qeq_bool (Qred (h - l)) 0) eqn:Ez.
  - apply Qeq_bool_iff in Ez.
    rewrite Qeq_bool_true; [exact I|]. lra.
  - pose proof (Qred_correct
                  (Qred (100 * Qred (c - l)) / Qred (h - l))) as R4.
    assert (Hd : (0 < Qred (h - l))%Q).
    { destruct (Qeq_dec (Qred (h - l)) 0) as [Hz|Hz]; [|lra].
      apply Qeq_bool_iff in Hz. congruence. }
    rewrite R4. split.
    + apply Qle_shift_div_l; [exact Hd|]. lra.
    + apply Qle_shift_div_r; [exact Hd|]. lra.
Qed.

(** Over finite columns, past the warm-up and with [low < high] on the
    bar, %K is a number. *)
Lemma stoch_k_fin close low high i :
  length close = length low -> length high = length low ->
  forallb is_fin close = true -> forallb is_fin low = true ->
  forallb is_fin high = true ->
  13 <= i -> i < length low ->
  fltb (nth i low NaN) (nth i high NaN) = true ->
  is_fin (nth i (stoch_k close low high) NaN) = true.
Proof.
  intros Hcl Hhl Hfc Hfl Hfh Hi Hlen Hlt. rewrite nth_stoch_k.
  assert (El : exists l, nth i (rolling_min 14 low) NaN = Fin l).
  { unfold rolling_min. rewrite rolling_full; try lia;
      [unfold num; eauto|now apply forallb_window]. }
  assert (Eh : exists h, nth i (rolling_max 14 high) NaN = Fin h).
  { unfold rolling_max. rewrite rolling_full; try lia;
      [unfold num; eauto|now apply forallb_window]. }
  destruct El as [l El], Eh as [h Eh]. rewrite El, Eh.
  destruct (rolling_min_le low i l Hlen El) as [a [Ha Hla]].
  destruct (rolling_max_ge high i h ltac:(lia) Eh) as [b [Hb Hbh]].
  rewrite Ha, Hb in Hlt. simpl in Hlt.
  apply negb_true_iff, Qle_bool_false in Hlt.
  rewrite (is_fin_qval _ (nth_forallb is_fin close NaN i Hfc ltac:(lia))).
  unfold fsub, fmul, fdiv, num.
  pose proof (Qred_correct (h - l)) as R3.
  rewrite Qeq_bool_false by lra. reflexivity.
Qed.

Lemma Qsum_bounds lo hi l :
  Forall (fun q => lo <= q <= hi)%Q l ->
  (lo * Qlen l <= Qsum l <= hi * Qlen l)%Q.
Proof.
  unfold Qlen. induction 1 as [|q l Hq _ IH]; simpl Qsum; simpl length.
  - change (inject_Z (Z.of_nat 0)) with 0%Q. lra.
  - rewrite Nat2Z.inj_succ. unfold Z.succ. rewrite inject_Z_plus.
    change (inject_Z 1) with 1%Q. lra.
Qed.

Lemma Qmean_bounds lo hi l :
  l <> [] -> Forall (fun q => lo <= q <= hi)%Q l ->
  (lo <= Qmean l <= hi)%Q.
Proof.
  intros Hne Hall. pose proof (Qlen_pos l Hne) as Hp.
  pose proof (Qsum_bounds lo hi l Hall) as [H1 H2].
  unfold Qmean. split.
  - apply Qle_shift_div_l; [exact Hp|exact H1].
  - apply Qle_shift_div_r; [exact Hp|exact H2].
Qed.

Lemma stoch_k_length close low high :
  length close = length low -> length high = length low ->
  length (stoch_k close low high) = length low.
Proof.
  intros H1 H2. unfold stoch_k, stoch_k_of. col_length. lia.
Qed.

(** %D, a mean of three %K values, is undefined or lies in [0, 100]
    too. *)
Lemma stoch_d_bounded close low high i :
  length close = length low -> length high = length low ->
  (forall j, j < length low ->
             fleb (nth j low NaN) (nth j close NaN) = true
             /\ fleb (nth j close NaN) (nth j high NaN) = true) ->
  match nth i (stoch_d close low high) NaN with
  | NaN => True
  | Inf _ => False
  | Fin x => (0 <= x <= 100)%Q
  end.
Proof.
  intros Hcl Hhl Hbar. unfold stoch_d, rolling_mean.
  destruct (rolling_num_cases 3 Qmean (stoch_k close low high) i)
    as [E|[v E]]; rewrite E; [exact I|].
  destruct (Nat.lt_ge_cases i (length low)) as [Hi|Hi].
  2:{ rewrite nth_overflow in E; [discriminate|].
      rewrite rolling_length, stoch_k_length; assumption. }
  apply rolling_fin_inv in E; [|now rewrite stoch_k_length].
  destruct E as [Hw [Hf Hv]]. apply num_eq in Hv.
  cut (0 <= Qmean (map qval (window 3 i (stoch_k close low high))) <= 100)%Q;
    [lra|].
  apply Qmean_bounds.
  - intros E. apply (f_equal (@length Q)) in E.
    rewrite length_map, window_length in E
      by (rewrite stoch_k_length; assumption).
    cbn [length] in E. lia.
  - apply Forall_forall. intros q Hq. apply in_map_iff in Hq.
    destruct Hq as [x [<- Hx]].
    destruct (In_nth _ _ NaN Hx) as [k [Hk Hnth]].
    rewrite window_length in Hk by (rewrite stoch_k_length; assumption).
    rewrite nth_window in Hnth
      by (try rewrite stoch_k_length; assumption).
    rewrite forallb_forall in Hf. pose proof (Hf _ Hx) as Hfin.
    destruct (Hbar (i + 1 - 3 + k) ltac:(lia)) as [B1 B2].
    pose proof (stoch_k_bounded close low high (i + 1 - 3 + k)
                  ltac:(lia) ltac:(lia) B1 B2) as Hb.
    rewrite Hnth in Hb. destruct x; try discriminate. exact Hb.
Qed.

(** The warm-up of %K and %D over finite bars with [low < high]. *)
Lemma stoch_leading close low high :
  length close = length low -> length high = length low ->
  forallb is_fin close = true -> forallb is_fin low = true ->
  forallb is_fin high = true ->
  16 <= length low ->
  13 <= leading_nan (stoch_k close low high)
  /\ 15 <= leading_nan (stoch_d close low high)
  /\ ((forall i, i < length low ->
                 fltb (nth i low NaN) (nth i high NaN) = true) ->
      leading_nan (stoch_k close low high) = 13
      /\ leading_nan (stoch_d close low high) = 15).
Proof.
  intros Hcl Hhl Hfc Hfl Hfh Hlen.
  pose proof (stoch_k_length close low high Hcl Hhl) as Hk.
  assert (Hd : length (stoch_d close low high) = length low).
  { unfold stoch_d. col_length. exact Hk. }
  assert (Wd : forall i, i < 15 -> nth i (stoch_d close low high) NaN = NaN).
  { intros i Hi. unfold stoch_d, rolling_mean.
    destruct (Nat.lt_ge_cases i 2) as [H2|H2].
    - apply rolling_warmup. lia.
    - apply rolling_gap; [lia|].
      apply (window_has_gap 3 i (i - 2)); try lia.
      rewrite stoch_k_warmup by lia. reflexivity. }
  split; [|split].
  - apply leading_nan_ge; [|lia]. intros i Hi. now apply stoch_k_warmup.
  - apply leading_nan_ge; [exact Wd|lia].
  - intros Hlt.
    assert (Fk : forall i, 13 <= i -> i < length low ->
                           is_fin (nth i (stoch_k close low high) NaN) = true).
    { intros i H1 H2. apply stoch_k_fin; auto. }
    split.
    + apply leading_nan_spec; [|lia|].
      * intros i Hi. now apply stoch_k_warmup.
      * specialize (Fk 13 ltac:(lia) ltac:(lia)).
        now destruct (nth 13 (stoch_k close low high) NaN).
    + apply leading_nan_spec; [exact Wd|lia|].
      unfold stoch_d. rewrite rolling_mean_fin; [discriminate|lia|lia|].
      apply (forallb_window_nth _ _ _ _ NaN); [lia|].
      intros j Hj1 Hj2. apply Fk; lia.
Qed.

(** ** Average true range *)

Lemma row_max_fin a x y :
  (x = NaN \/ is_fin x = true) -> (y = NaN \/ is_fin y = true) ->
  is_fin (row_max [Fin a; x; y]) = true.
Proof.
  intros [->|Hx] [->|Hy]; unfold row_max; cbn [fold_left nanmax2];
    try reflexivity.
  - destruct y; try discriminate. cbn [nanmax2]. now destruct (fltb _ _).
  - destruct x; try discriminate. cbn [nanmax2]. now destruct (fltb _ _).
  - destruct x; try discriminate. cbn [nanmax2].
    destruct (fltb _ _); destruct y; try discriminate;
      cbn [nanmax2]; now destruct (fltb _ _).
Qed.

Lemma shift_fin_or_nan close i :
  forallb is_fin close = true ->
  nth i (shift close) NaN = NaN \/ is_fin (nth i (shift close) NaN) = true.
Proof.
  intros Hf. destruct i as [|i].
  - left. now destruct close.
  - rewrite nth_shift. destruct (S i <? length close) eqn:E; [|now left].
    apply Nat.ltb_lt in E. right. apply nth_forallb; [assumption|lia].
Qed.

Lemma fabs_fsub_cases a x :
  (x = NaN \/ is_fin x = true) ->
  fabs (fsub (Fin a) x) = NaN \/ is_fin (fabs (fsub (Fin a) x)) = true.
Proof. intros [->|H]; [now left|right]. now destruct x. Qed.

Lemma true_range_fin close low high :
  length close = length low -> length high = length low ->
  forallb is_fin close = true -> forallb is_fin low = true ->
  forallb is_fin high = true ->
  length (true_range close low high) = length low
  /\ forallb is_fin (true_range close low high) = true.
Proof.
  intros Hcl Hhl Hfc Hfl Hfh.
  assert (Hlen : length (true_range close low high) = length low).
  { unfold true_range. col_length. lia. }
  split; [exact Hlen|].
  apply (forallb_nth _ _ NaN). intros i Hi. rewrite Hlen in Hi.
  unfold true_range.
  rewrite nth_max_axis1 by (col_length; lia).
  rewrite (nth_map_strict fabs) by reflexivity.
  rewrite (nth_map_strict fabs) by reflexivity.
  rewrite !nth_sub.
  rewrite (is_fin_qval _ (nth_forallb is_fin high NaN i Hfh ltac:(lia))).
  rewrite (is_fin_qval _ (nth_forallb is_fin low NaN i Hfl ltac:(lia))).
  cbn [fsub]. unfold num.
  apply row_max_fin; apply fabs_fsub_cases; now apply shift_fin_or_nan.
Qed.

Lemma atr_leading close low high :
  length close = length low -> length high = length low ->
  forallb is_fin close = true -> forallb is_fin low = true ->
  forallb is_fin high = true ->
  14 <= length low ->
  leading_nan (atr close low high) = 13.
Proof.
  intros Hcl Hhl Hfc Hfl Hfh Hlen.
  destruct (true_range_fin close low high Hcl Hhl Hfc Hfl Hfh) as [H1 H2].
  unfold atr.
  rewrite rolling_mean_leading; [reflexivity|lia|rewrite H1; lia|exact H2].
Qed.

(** ** Bollinger bands *)

Lemma bb_leading qsqrt close :
  20 <= length close -> forallb is_fin close = true ->
  leading_nan (bb_upper qsqrt close) = 19
  /\ leading_nan (bb_lower qsqrt close) = 19.
Proof.
  intros Hlen Hf.
  assert (Hm : forall i, i < 19 -> nth i (rolling_mean 20 close) NaN = NaN).
  { intros i Hi. unfold rolling_mean. apply rolling_warmup. lia. }
  assert (Em : exists m, nth 19 (rolling_mean 20 close) NaN = Fin m).
  { rewrite rolling_mean_fin; try lia; [unfold num; eauto|].
    now apply forallb_window. }
  assert (Es : exists s, nth 19 (rolling_std qsqrt 20 close) NaN = Fin s).
  { unfold rolling_std. rewrite rolling_full; try lia;
      [|now apply forallb_window].
    rewrite length_map, window_length by lia. cbn. unfold num. eauto. }
  destruct Em as [m Em], Es as [s Es].
  split; apply leading_nan_spec.
  - intros i Hi. unfold bb_upper. now rewrite nth_add, Hm.
  - unfold bb_upper. col_length. lia.
  - unfold bb_upper. rewrite nth_add, nth_scale, Em, Es. discriminate.
  - intros i Hi. unfold bb_lower. now rewrite nth_sub, Hm.
  - unfold bb_lower. col_length. lia.
  - unfold bb_lower. rewrite nth_sub, nth_scale, Em, Es. discriminate.
Qed.

(** ** Price series *)

Lemma finite_bars_columns bars :
  forallb finite_bar bars = true ->
  forallb is_fin (map close bars) = true
  /\ forallb is_fin (map low bars) = true
  /\ forallb is_fin (map high bars) = true.
Proof.
  induction bars as [|b bars IH]; simpl; [auto|].
  intros H. apply andb_prop in H. destruct H as [Hb H].
  destruct (IH H) as [I1 [I2 I3]]. rewrite I1, I2, I3.
  unfold finite_bar in Hb.
  repeat (apply andb_prop in Hb; destruct Hb as [Hb ?]).
  repeat split; apply andb_true_intro; auto.
Qed.

Lemma float_col_length qsqrt close low high df n name :
  length close = n -> length low = n -> length high = n ->
  In name indicator_names ->
  length (float_col name
            (set_columns (indicator_columns qsqrt close low high) df)) = n.
Proof.
  intros Hc Hl Hh Hin.
  pose proof (float_col_indicators qsqrt close low high df) as H.
  cbv zeta in H. decompose [and] H. clear H.
  unfold indicator_names in Hin.
  repeat (destruct Hin as [<-|Hin]; [
    match goal with
    | E : float_col ?k _ = _ |- context [float_col ?k _] => rewrite E
    end;
    unfold macd_hist, macd_signal, macd_line, rsi, rsi_of_delta, bb_upper,
      bb_lower, stoch_d, stoch_k, stoch_k_of, atr, true_range;
    col_length; lia |]).
  destruct Hin.
Qed.

(** *** Overflow in binary64

    The exact model has no overflow.  On binary64 numbers the sum of two
    finite prices, and the difference of two finite closes, can be an
    infinity; the window functions read it as NaN.  The statements below
    that give the value of a finite result are statements of exact
    arithmetic. *)

Example sum_of_prices_overflows :
  PrimFloat.is_infinity 0x1p1023%float = false
  /\ PrimFloat.is_infinity 0x1.8p1023%float = false
  /\ PrimFloat.add 0x1p1023%float 0x1.8p1023%float = PrimFloat.infinity.
Proof. refine (conj _ (conj _ _)); vm_compute; reflexivity. Qed.

Example delta_of_closes_overflows :
  PrimFloat.is_infinity 0x1.8p1023%float = false
  /\ PrimFloat.sub 0x1.8p1023%float (-0x1.8p1023)%float = PrimFloat.infinity
  /\ PrimFloat.sub (-0x1.8p1023)%float 0x1.8p1023%float
     = PrimFloat.neg_infinity.
Proof. refine (conj _ (conj _ _)); vm_compute; reflexivity. Qed.

(** C1 (amended).  In exact arithmetic: for every series of at least 200
    bars with finite prices, [indicators] succeeds and every indicator
    column is as long as the series.  The leading undefined rows number 49
    for the 50-day average, 199 for the 200-day average, 19 for the three
    Bollinger columns and 13 for the ATR (the true range of the first bar
    is its high minus its low).  The RSI has at least 13, and exactly 13
    when the close moves within the first 14 bars (the first delta counts
    as 0).  %K has at least 13 and %D at least 15, exactly 13 and 15 when
    every bar has [low < high].  (As computed in binary64, prices so large
    that a rolling sum overflows leave NaN where the exact column is
    defined: see [sum_of_prices_overflows].) *)
Theorem indicator_warmup qsqrt tz bars :
  200 <= length bars -> forallb finite_bar bars = true ->
  exists aug,
    indicators qsqrt (history_frame tz bars) = Ok aug
    /\ (forall name, In name indicator_names ->
                     length (float_col name aug) = length bars)
    /\ leading_nan (float_col "50D MA" aug) = 49
    /\ leading_nan (float_col "200D MA" aug) = 199
    /\ leading_nan (float_col "BB Middle" aug) = 19
    /\ leading_nan (float_col "BB Upper" aug) = 19
    /\ leading_nan (float_col "BB Lower" aug) = 19
    /\ leading_nan (float_col "ATR" aug) = 13
    /\ 13 <= leading_nan (float_col "RSI" aug)
    /\ (existsb (moves (map close bars)) (seq 0 13) = true ->
        leading_nan (float_col "RSI" aug) = 13)
    /\ 13 <= leading_nan (float_col "Stoch %K" aug)
    /\ 15 <= leading_nan (float_col "Stoch %D" aug)
    /\ (forallb (fun b => fltb (low b) (high b)) bars = true ->
        leading_nan (float_col "Stoch %K" aug) = 13
        /\ leading_nan (float_col "Stoch %D" aug) = 15).
Proof.
  intros Hlen Hfin.
  destruct (finite_bars_columns bars Hfin) as [Fc [Fl Fh]].
  eexists. split; [apply indicators_history_frame|].
  pose proof (float_col_indicators qsqrt (map close bars) (map low bars)
                (map high bars) (history_frame tz bars)) as H.
  cbv zeta in H. decompose [and] H. clear H.
  assert (Lc : length (map close bars) = length (map low bars))
    by now rewrite !length_map.
  assert (Lh : length (map high bars) = length (map low bars))
    by now rewrite !length_map.
  assert (Ll : length (map low bars) = length bars) by apply length_map.
  destruct (rsi_leading (map close bars)) as [R1 R2];
    [rewrite length_map; lia|exact Fc|].
  destruct (stoch_leading (map close bars) (map low bars) (map high bars))
    as [S1 [S2 S3]]; auto; [lia|].
  destruct (bb_leading qsqrt (map close bars)) as [B1 B2];
    [rewrite length_map; lia|exact Fc|].
  split.
  { intros name Hin. apply float_col_length; auto; apply length_map. }
  repeat match goal with
         | E : float_col _ _ = _ |- _ => rewrite E; clear E
         end.
  repeat split; auto.
  - apply rolling_mean_leading; [lia|rewrite length_map; lia|exact Fc].
  - apply rolling_mean_leading; [lia|rewrite length_map; lia|exact Fc].
  - apply rolling_mean_leading; [lia|rewrite length_map; lia|exact Fc].
  - apply atr_leading; auto. lia.
  - apply S3. intros i Hi. rewrite Ll in Hi.
    rewrite forallb_forall in H.
    rewrite (nth_map_in low _ _ (mkBar 0 NaN NaN NaN NaN 0)) by assumption.
    rewrite (nth_map_in high _ _ (mkBar 0 NaN NaN NaN NaN 0))
      by assumption.
    apply H. now apply nth_In.
  - apply S3. intros i Hi. rewrite Ll in Hi.
    rewrite forallb_forall in H.
    rewrite (nth_map_in low _ _ (mkBar 0 NaN NaN NaN NaN 0)) by assumption.
    rewrite (nth_map_in high _ _ (mkBar 0 NaN NaN NaN NaN 0))
      by assumption.
    apply H. now apply nth_In.
Qed.

Lemma indicator_warmup_witness :
  exists aug,
    indicators sqrt_floor (history_frame new_york (ramp 200)) = Ok aug
    /\ (forall name, In name indicator_names ->
                     length (float_col name aug) = length (ramp 200))
    /\ leading_nan (float_col "50D MA" aug) = 49
    /\ leading_nan (float_col "200D MA" aug) = 199
    /\ leading_nan (float_col "BB Middle" aug) = 19
    /\ leading_nan (float_col "BB Upper" aug) = 19
    /\ leading_nan (float_col "BB Lower" aug) = 19
    /\ leading_nan (float_col "ATR" aug) = 13
    /\ 13 <= leading_nan (float_col "RSI" aug)
    /\ (existsb (moves (map close (ramp 200))) (seq 0 13) = true ->
        leading_nan (float_col "RSI" aug) = 13)
    /\ 13 <= leading_nan (float_col "Stoch %K" aug)
    /\ 15 <= leading_nan (float_col "Stoch %D" aug)
    /\ (forallb (fun b => fltb (low b) (high b)) (ramp 200) = true ->
        leading_nan (float_col "Stoch %K" aug) = 13
        /\ leading_nan (float_col "Stoch %D" aug) = 15).
Proof.
  apply (indicator_warmup sqrt_floor new_york (ramp 200)).
  - vm_compute. lia.
  - vm_compute. reflexivity.
Defined.

(** On 200 bars of a rising ramp the RSI and the ATR have 13 leading
    undefined rows, not the 14 the specification lists. *)
Lemma spec_warmup_fails :
  exists aug,
    indicators sqrt_floor (history_frame new_york (ramp 200)) = Ok aug
    /\ leading_nan (float_col "RSI" aug) = 13
    /\ leading_nan (float_col "ATR" aug) = 13
    /\ ~ Forall (has_warmup 200 aug) spec_warmup.
Proof.
  eexists. split; [apply indicators_history_frame|].
  pose proof (float_col_indicators sqrt_floor (map close (ramp 200))
                (map low (ramp 200)) (map high (ramp 200))
                (history_frame new_york (ramp 200))) as H.
  cbv zeta in H.
  destruct H as (_ & _ & _ & _ & _ & HRSI & _ & _ & _ & _ & _ & HATR).
  assert (R : leading_nan (rsi (map close (ramp 200))) = 13)
    by (vm_compute; reflexivity).
  assert (A : leading_nan (atr (map close (ramp 200)) (map low (ramp 200))
                               (map high (ramp 200))) = 13)
    by (vm_compute; reflexivity).
  refine (conj _ (conj _ _)).
  - now rewrite HRSI.
  - now rewrite HATR.
  - intros HF. rewrite Forall_forall in HF.
    destruct (HF ("RSI", 14)) as [_ HR]; [simpl; tauto|].
    cbn [fst snd] in HR. rewrite HRSI, R in HR. discriminate.
Qed.

(** On 200 identical bars the RSI, %K and %D are undefined on every row:
    the warm-up lengths of these columns depend on the data. *)
Example flat_series_undefined :
  leading_nan (rsi (map close (flat 10 10 10 10 200))) = 200
  /\ leading_nan (stoch_k (map close (flat 10 10 10 10 200))
                          (map low (flat 10 10 10 10 200))
                          (map high (flat 10 10 10 10 200))) = 200
  /\ leading_nan (stoch_d (map close (flat 10 10 10 10 200))
                          (map low (flat 10 10 10 10 200))
                          (map high (flat 10 10 10 10 200))) = 200.
Proof. refine (conj _ (conj _ _)); vm_compute; reflexivity. Qed.

(** ** What [indicators] returns *)

Ltac run_indicators_in H Hv Hc Hl Hh :=
  unfold indicators in H;
  repeat (rewrite ?getitem_float_setitem, ?getitem_values_setitem in H;
          cbn [String.eqb Ascii.eqb Bool.eqb] in H;
          try rewrite Hv in H; try rewrite Hc in H;
          try rewrite Hl in H; try rewrite Hh in H;
          cbn [bind as_float as_values] in H).

(** When [indicators] succeeds, [Close] is a column of numbers, the
    window functions could read [Low] and [High], and the result is the
    frame with the twelve columns of [indicator_columns]. *)
Lemma indicators_inv qsqrt hist aug :
  indicators qsqrt hist = Ok aug ->
  exists close low high,
    getitem_float "Close" hist = Ok close
    /\ getitem_values "Low" hist = Ok low
    /\ getitem_values "High" hist = Ok high
    /\ aug = set_columns (indicator_columns qsqrt close low high) hist.
Proof.
  intros H.
  destruct (getitem_values "Close" hist) as [cv|e] eqn:Hv;
    [|rewrite (indicators_raise_close _ _ _ Hv) in H; discriminate].
  destruct (getitem_float "Close" hist) as [close|e] eqn:Hc;
    [|run_indicators_in H Hv Hc Hc Hc; discriminate].
  destruct (getitem_values "Low" hist) as [low|e] eqn:Hl;
    [|run_indicators_in H Hv Hc Hl Hl; discriminate].
  destruct (getitem_values "High" hist) as [high|e] eqn:Hh;
    [|run_indicators_in H Hv Hc Hl Hh; discriminate].
  rewrite (indicators_columns_values _ _ _ _ _ Hc Hl Hh) in H.
  injection H as <-. now exists close, low, high.
Qed.

(** C3 (amended).  In exact arithmetic: the window of the RSI of row [i]
    holds the 14 deltas of rows [i-13 .. i], so it reaches back to the
    close of row [i-14] (and the delta of row 0 counts as 0).  When the
    closes of these rows are finite, never fall and rise at least once, the
    RSI of row [i] is exactly 100, a number and not NaN.  (As computed in
    binary64, two closes so far apart that their difference overflows give
    an infinite delta, which the rolling mean reads as NaN: see
    [delta_of_closes_overflows].) *)
Theorem rsi_saturates_at_100 qsqrt hist aug close i :
  indicators qsqrt hist = Ok aug ->
  getitem_float "Close" hist = Ok close ->
  13 <= i -> i < length close ->
  (forall j, i - 14 <= j -> j <= i -> is_fin (nth j close NaN) = true) ->
  (forall j, i - 14 <= j -> j < i ->
             fleb (nth j close NaN) (nth (S j) close NaN) = true) ->
  (exists j, i - 14 <= j /\ j < i
             /\ fltb (nth j close NaN) (nth (S j) close NaN) = true) ->
  nth i (float_col "RSI" aug) NaN = Fin 100.
Proof.
  intros Hind Hc Hi Hlen Hfin Hmono Hup.
  destruct (indicators_inv _ _ _ Hind) as (c & l & h & Hc' & _ & _ & ->).
  rewrite Hc in Hc'. injection Hc' as <-.
  destruct (float_col_indicators qsqrt close l h hist)
    as (_ & _ & _ & _ & _ & -> & _).
  now apply rsi_saturates.
Qed.

Lemma rsi_saturates_at_100_witness :
  nth 13
      (float_col "RSI"
         (set_columns
            (indicator_columns sqrt_floor (map close (ramp 200))
                               (map low (ramp 200)) (map high (ramp 200)))
            (history_frame new_york (ramp 200)))) NaN
  = Fin 100.
Proof.
  apply (rsi_saturates_at_100 sqrt_floor (history_frame new_york (ramp 200))
           _ (map close (ramp 200)) 13).
  - apply indicators_history_frame.
  - reflexivity.
  - lia.
  - vm_compute. lia.
  - intros j _ Hj. do 14 (destruct j as [|j]; [reflexivity|]). lia.
  - intros j _ Hj. do 13 (destruct j as [|j]; [reflexivity|]). lia.
  - exists 0. repeat split; try lia.
Defined.

(** Two windows of 14 closes that never fall, and an RSI that is not 100:
    over flat closes the RSI of row 13 is NaN ([0/0]); after a fall
    between rows 0 and 1 the closes of rows 1 to 14 only rise, and the RSI
    of row 14 is 650/9. *)
Lemma rsi_nondecreasing_not_100 :
  (exists aug,
      indicators sqrt_floor (history_frame new_york (flat 10 10 10 10 200))
      = Ok aug
      /\ (forall j, j < 13 ->
            fleb (nth j (map close (flat 10 10 10 10 200)) NaN)
                 (nth (S j) (map close (flat 10 10 10 10 200)) NaN) = true)
      /\ nth 13 (float_col "RSI" aug) NaN = NaN)
  /\ (exists aug,
      indicators sqrt_floor (history_frame new_york dip) = Ok aug
      /\ (forall j, 1 <= j -> j < 14 ->
            fltb (nth j (map close dip) NaN)
                 (nth (S j) (map close dip) NaN) = true)
      /\ nth 14 (float_col "RSI" aug) NaN = Fin (650 # 9)).
Proof.
  split; eexists; (split; [apply indicators_history_frame|]);
    (split;
     [|match goal with
       | |- context [set_columns (indicator_columns ?q ?c ?l ?h) ?df] =>
           destruct (float_col_indicators q c l h df)
             as (_ & _ & _ & _ & _ & -> & _)
       end; vm_compute; reflexivity]).
  - intros j Hj. do 13 (destruct j as [|j]; [reflexivity|]). lia.
  - intros j Hj1 Hj2. destruct j as [|j]; [lia|].
    do 13 (destruct j as [|j]; [reflexivity|]). lia.
Qed.

(** ** MACD *)

(** C5.  Whenever [indicators] succeeds, the MACD line is the difference
    of the adjusted EMAs of the close with spans 12 and 26, the signal is
    the unadjusted EMA of the line with span 9, and at every row the
    histogram is the line minus the signal: where both are numbers [a] and
    [b], it is the number [a - b]. *)
Theorem macd_hist_exact qsqrt hist aug :
  indicators qsqrt hist = Ok aug ->
  exists close,
    getitem_float "Close" hist = Ok close
    /\ float_col "MACD Line" aug
       = sub (ewm_mean 12 true close) (ewm_mean 26 true close)
    /\ float_col "MACD Signal" aug
       = ewm_mean 9 false (float_col "MACD Line" aug)
    /\ (forall i,
          nth i (float_col "MACD Hist" aug) NaN
          = fsub (nth i (float_col "MACD Line" aug) NaN)
                 (nth i (float_col "MACD Signal" aug) NaN))
    /\ (forall i a b,
          nth i (float_col "MACD Line" aug) NaN = Fin a ->
          nth i (float_col "MACD Signal" aug) NaN = Fin b ->
          nth i (float_col "MACD Hist" aug) NaN = num (a - b)).
Proof.
  intros Hind.
  destruct (indicators_inv _ _ _ Hind) as (c & l & h & Hc & _ & _ & ->).
  exists c. split; [exact Hc|].
  destruct (float_col_indicators qsqrt c l h hist)
    as (_ & _ & -> & -> & -> & _).
  split; [reflexivity|]. split; [reflexivity|].
  assert (Hpt : forall i,
             nth i (macd_hist c) NaN
             = fsub (nth i (macd_line c) NaN) (nth i (macd_signal c) NaN)).
  { intros i. unfold macd_hist. apply nth_sub. }
  split; [exact Hpt|].
  intros i a b Ha Hb. now rewrite Hpt, Ha, Hb.
Qed.

Lemma macd_hist_exact_witness :
  exists aug close,
    indicators sqrt_floor (history_frame new_york (ramp 200)) = Ok aug
    /\ getitem_float "Close" (history_frame new_york (ramp 200)) = Ok close
    /\ forall i,
         nth i (float_col "MACD Hist" aug) NaN
         = fsub (nth i (float_col "MACD Line" aug) NaN)
                (nth i (float_col "MACD Signal" aug) NaN).
Proof.
  eexists.
  destruct (macd_hist_exact sqrt_floor (history_frame new_york (ramp 200)) _
              (indicators_history_frame sqrt_floor new_york (ramp 200)))
    as (close & Hc & _ & _ & Hpt & _).
  exists close. split; [apply indicators_history_frame|].
  split; [exact Hc|exact Hpt].
Defined.

(** ** Stochastic oscillator on a window without range *)




(** ** Range of the stochastic oscillator *)

(** C10 (amended).  In exact arithmetic: for every series whose bars all
    have [low <= close <= high], every row of %K and of %D is undefined or
    lies in [0, 100]. *)
Theorem stoch_in_range qsqrt tz bars :
  forallb close_in_range bars = true ->
  exists aug,
    indicators qsqrt (history_frame tz bars) = Ok aug
    /\ forall i,
         in_0_100 (nth i (float_col "Stoch %K" aug) NaN)
         /\ in_0_100 (nth i (float_col "Stoch %D" aug) NaN).
Proof.
  intros Hbars. eexists. split; [apply indicators_history_frame|].
  destruct (float_col_indicators qsqrt (map close bars) (map low bars)
              (map high bars) (history_frame tz bars))
    as (_ & _ & _ & _ & _ & _ & _ & _ & _ & -> & -> & _).
  assert (Hbar : forall j, j < length (map low bars) ->
            fleb (nth j (map low bars) NaN) (nth j (map close bars) NaN)
            = true
            /\ fleb (nth j (map close bars) NaN) (nth j (map high bars) NaN)
               = true).
  { intros j Hj. rewrite length_map in Hj.
    rewrite (nth_map_in low _ _ (mkBar 0 NaN NaN NaN NaN 0)) by assumption.
    rewrite (nth_map_in close _ _ (mkBar 0 NaN NaN NaN NaN 0))
      by assumption.
    rewrite (nth_map_in high _ _ (mkBar 0 NaN NaN NaN NaN 0))
      by assumption.
    rewrite forallb_forall in Hbars.
    specialize (Hbars _ (nth_In bars (mkBar 0 NaN NaN NaN NaN 0) Hj)).
    unfold close_in_range in Hbars. now apply andb_prop in Hbars. }
  intros i. split.
  - destruct (Nat.lt_ge_cases i (length (map low bars))) as [Hi|Hi].
    + destruct (Hbar i Hi) as [B1 B2].
      apply stoch_k_bounded; auto. now rewrite length_map in *.
    + rewrite nth_overflow; [exact I|].
      rewrite stoch_k_length; [exact Hi| |]; now rewrite !length_map.
  - apply stoch_d_bounded; auto; now rewrite !length_map.
Qed.

Lemma stoch_in_range_witness :
  exists aug,
    indicators sqrt_floor (history_frame new_york (ramp 200)) = Ok aug
    /\ forall i,
         in_0_100 (nth i (float_col "Stoch %K" aug) NaN)
         /\ in_0_100 (nth i (float_col "Stoch %D" aug) NaN).
Proof.
  apply (stoch_in_range sqrt_floor new_york (ramp 200)).
  vm_compute. reflexivity.
Defined.

(** In binary64 the bound fails by one unit in the last place: with a low
    of 10.0 and a close at the high of 10.67, [10.67 - 10.0] is
    0.66999999999999993, a hundred times that rounds to 67.0, and the
    quotient is 100.00000000000001. *)
Lemma stoch_k_binary64_above_100 :
  forallb (fun x => PrimFloat.leb 10 x) closes64 = true
  /\ forallb (fun x => PrimFloat.leb x f10_67) closes64 = true
  /\ PrimFloat.ltb 100 (Binary64.nth_f 13
                          (Binary64.stoch_k closes64 lows64 highs64))
     = true
  /\ PrimFloat.eqb (Binary64.nth_f 13
                      (Binary64.stoch_k closes64 lows64 highs64))
                   0x1.9000000000001p+6
     = true.
Proof. repeat split; vm_compute; reflexivity. Qed.

(** ** The batch loop *)

Lemma firstn_add {A : Type} a b (l : list A) :
  firstn (a + b) l = firstn a l ++ firstn b (skipn a l).
Proof.
  revert l; induction a as [|a IH]; intros l; [reflexivity|].
  destruct l as [|x l]; simpl.
  - now rewrite firstn_nil.
  - now rewrite IH.
Qed.

Lemma slice_chunk {A : Type} i n (l : list A) :
  slice i (i + n) l = firstn n (skipn i l).
Proof. unfold slice. now replace (i + n - i) with n by lia. Qed.

Lemma chunks_cover stop step :
  0 < step -> stop <= (stop + step - 1) / step * step.
Proof.
  intros Hs.
  pose proof (Nat.div_mod_eq (stop + step - 1) step) as E.
  pose proof (Nat.mod_upper_bound (stop + step - 1) step ltac:(lia)) as U.
  nia.
Qed.

Section BatchProperties.

Variable qsqrt : Q -> Q.
Variable yf_Tickers : string -> list (string * Ticker).

Lemma process_lookup d1 d2 t :
  lookup t d1 = lookup t d2 -> process qsqrt d1 t = process qsqrt d2 t.
Proof. intros H. unfold process, dict_getitem. now rewrite H. Qed.

Lemma handle_fst P data st t :
  process qsqrt data t = P t ->
  fst (handle qsqrt data st t) = record P (fst st) t.
Proof.
  intros H. unfold handle, record. destruct st as [all_data out].
  rewrite H. now destruct (P t) as [[w|]|e].
Qed.

Lemma fold_handle_fst P data batch st :
  (forall t, In t batch -> process qsqrt data t = P t) ->
  fst (fold_left (handle qsqrt data) batch st)
  = fold_left (record P) batch (fst st).
Proof.
  revert st; induction batch as [|t batch IH]; intros st H; [reflexivity|].
  simpl. rewrite IH by (intros; apply H; now right).
  f_equal. apply handle_fst. apply H. now left.
Qed.

Section PerIdentifier.

(** The provider serves an identifier the same way in whatever group it
    is asked for: [P] gives the result of its [try] block. *)
Variable P : string -> result outcome.
Hypothesis per_identifier :
  forall batch t, In t batch ->
    process qsqrt (yf_Tickers (String.concat " " batch)) t = P t.

Lemma run_batch_fst bs tickers st i :
  fst (run_batch qsqrt yf_Tickers bs tickers st i)
  = fold_left (record P) (firstn bs (skipn i tickers)) (fst st).
Proof.
  unfold run_batch. rewrite slice_chunk.
  rewrite (fold_handle_fst P); [reflexivity|].
  intros t Ht. now apply per_identifier.
Qed.

Lemma fold_run_batch_fst bs tickers k st :
  fst (fold_left (run_batch qsqrt yf_Tickers bs tickers)
                 (map (fun j => j * bs) (seq 0 k)) st)
  = fold_left (record P) (firstn (k * bs) tickers) (fst st).
Proof.
  induction k as [|k IH]; [reflexivity|].
  rewrite seq_S, map_app, fold_left_app. simpl.
  rewrite run_batch_fst, IH.
  replace (bs + k * bs) with (k * bs + bs) by lia.
  now rewrite firstn_add, fold_left_app.
Qed.

(** Whatever the positive group size, the result is the one of taking
    the identifiers one after the other. *)
Lemma fetch_stock_data_run_fst bs tickers :
  0 < bs ->
  fst (fetch_stock_data_run qsqrt yf_Tickers bs tickers)
  = fold_left (record P) tickers [].
Proof.
  intros Hbs. unfold fetch_stock_data_run, range_step.
  rewrite fold_run_batch_fst. simpl fst.
  now rewrite firstn_all2 by now apply chunks_cover.
Qed.

End PerIdentifier.

Lemma lookup_record_keep P ts d k w :
  P k = Ok (Window w) -> lookup k d = Some w ->
  lookup k (fold_left (record P) ts d) = Some w.
Proof.
  intros HP. revert d; induction ts as [|t ts IH]; intros d Hd; [exact Hd|].
  simpl. apply IH. unfold record.
  destruct (P t) as [[w'|]|e] eqn:Et; try exact Hd.
  rewrite lookup_dict_set. destruct (String.eqb k t) eqn:E; [|exact Hd].
  apply String.eqb_eq in E. subst t. congruence.
Qed.

Lemma lookup_record_in P ts d k w :
  P k = Ok (Window w) -> In k ts ->
  lookup k (fold_left (record P) ts d) = Some w.
Proof.
  intros HP. revert d; induction ts as [|t ts IH]; intros d Hin;
    [destruct Hin|].
  simpl. destruct Hin as [->|Hin]; [|now apply IH].
  apply lookup_record_keep; [exact HP|].
  unfold record. rewrite HP, lookup_dict_set. now rewrite String.eqb_refl.
Qed.

Lemma lookup_record_skip P ts d k :
  (forall w, P k <> Ok (Window w)) ->
  lookup k (fold_left (record P) ts d) = lookup k d.
Proof.
  intros HP. revert d; induction ts as [|t ts IH]; intros d; [reflexivity|].
  simpl. rewrite IH. unfold record.
  destruct (P t) as [[w'|]|e] eqn:Et; try reflexivity.
  rewrite lookup_dict_set. destruct (String.eqb k t) eqn:E; [|reflexivity].
  apply String.eqb_eq in E. subst t. now apply HP in Et.
Qed.

(** An invariant of [all_data] that every [handle] keeps holds of the
    result. *)
Lemma run_invariant (I : list (string * DataFrame) -> Prop) bs tickers :
  (forall symbols st t,
      I (fst st) -> I (fst (handle qsqrt (yf_Tickers symbols) st t))) ->
  I [] -> I (fst (fetch_stock_data_run qsqrt yf_Tickers bs tickers)).
Proof.
  intros Hstep H0. unfold fetch_stock_data_run.
  assert (Hin : forall data batch st,
             (exists symbols, data = yf_Tickers symbols) ->
             I (fst st) -> I (fst (fold_left (handle qsqrt data) batch st))).
  { intros data batch. induction batch as [|t batch IH]; intros st Hd Hst;
      [exact Hst|].
    simpl. apply IH; [exact Hd|]. destruct Hd as [symbols ->].
    now apply Hstep. }
  assert (Hout : forall starts st,
             I (fst st) ->
             I (fst (fold_left (run_batch qsqrt yf_Tickers bs tickers)
                               starts st))).
  { induction starts as [|i starts IH]; intros st Hst; [exact Hst|].
    simpl. apply IH. unfold run_batch. apply Hin; [eauto|exact Hst]. }
  now apply Hout.
Qed.

Lemma handle_lookup_skip data st t k :
  (forall w, process qsqrt data k <> Ok (Window w)) ->
  lookup k (fst st) = None ->
  lookup k (fst (handle qsqrt data st t)) = None.
Proof.
  intros Hk Hst. unfold handle. destruct st as [all_data out].
  destruct (process qsqrt data t) as [[w|]|e] eqn:Et; try exact Hst.
  simpl. rewrite lookup_dict_set. destruct (String.eqb k t) eqn:E;
    [|exact Hst].
  apply String.eqb_eq in E. subst t. now apply Hk in Et.
Qed.

End BatchProperties.

(** ** The recorded window *)

Lemma lookup_setitem k k' s df :
  lookup k (columns (setitem k' s df))
  = if String.eqb k k' then Some s else lookup k (columns df).
Proof. apply lookup_dict_set. Qed.

Lemma lookup_tail k n df :
  lookup k (columns (tail n df))
  = option_map (tail_series n) (lookup k (columns df)).
Proof.
  unfold tail. cbn [columns].
  induction (columns df) as [|[k' s] d IH]; [reflexivity|].
  simpl. now destruct (String.eqb k k').
Qed.

Lemma len_tail n df : len (tail n df) = Nat.min n (len df).
Proof. unfold len, tail. cbn [index idx_vals]. apply lastn_length. Qed.

Lemma len_set_columns cols df : len (set_columns cols df) = len df.
Proof. unfold len. now rewrite index_set_columns. Qed.

Lemma existsb_eqb_false k names name :
  existsb (String.eqb k) names = false -> In name names ->
  String.eqb k name = false.
Proof.
  intros H Hin. destruct (String.eqb k name) eqn:E; [|reflexivity].
  rewrite <- H. symmetry. apply existsb_exists. eauto.
Qed.

Lemma reset_index_tail df tz stamps n :
  index df = mkIndex (Some "Date") (Datetime tz) stamps ->
  lookup "Date" (columns df) = None ->
  reset_index (tail n df)
  = Ok (mkFrame (mkIndex None Int64 (map Z.of_nat (seq 0 (len (tail n df)))))
                (("Date", TimeS tz (lastn n stamps)) :: columns (tail n df))).
Proof.
  intros Hi Hl. unfold reset_index.
  assert (E : index (tail n df)
              = mkIndex (Some "Date") (Datetime tz) (lastn n stamps)).
  { unfold tail. cbn [index]. now rewrite Hi. }
  unfold index_label. rewrite E. cbn [idx_name].
  rewrite lookup_tail, Hl. reflexivity.
Qed.

Section Window.

Variable qsqrt : Q -> Q.

(** Lines 35-91 on a price series of at least 200 bars. *)
Lemma process_history_frame data ticker stock info tz bars :
  lookup ticker data = Some stock ->
  ticker_info stock = Ok info ->
  ticker_history stock = Ok (history_frame tz bars) ->
  200 <= length bars ->
  process qsqrt data ticker
  = Ok (Window (report_window qsqrt ticker info tz bars)).
Proof.
  intros Hs Hi Hh Hlen. unfold process, dict_getitem.
  rewrite Hs. cbn [bind]. rewrite Hi. cbn [bind]. rewrite Hh. cbn [bind].
  replace (200 <=? len (history_frame tz bars)) with true
    by (symmetry; apply Nat.leb_le; unfold len; simpl;
        now rewrite length_map).
  rewrite indicators_history_frame. cbn [bind].
  rewrite (reset_index_tail _ tz (map date bars)); [reflexivity| |].
  - unfold setitem_scalar. now rewrite !index_setitem, index_set_columns.
  - unfold setitem_scalar. rewrite !lookup_setitem. string_eqb.
    now rewrite lookup_set_columns by reflexivity.
Qed.

(** The window has five rows, the dates of the last five bars without
    timezone, and under every name that [process] does not assign the last
    five values of the column of the input. *)
Lemma report_window_columns ticker info tz bars :
  5 <= length bars ->
  let w := report_window qsqrt ticker info tz bars in
  len w = 5
  /\ lookup "Date" (columns w) = Some (TimeS None (lastn 5 (map date bars)))
  /\ forall name,
       existsb (String.eqb name) ("Date" :: added_names) = false ->
       lookup name (columns w)
       = option_map (tail_series 5)
                    (lookup name (columns (history_frame tz bars))).
Proof.
  intros Hlen. cbv zeta. unfold report_window, naive_dates.
  cbn [columns lookup]. string_eqb.
  assert (L : Nat.min 5 (length bars) = 5) by lia.
  assert (Hcol : forall name,
     existsb (String.eqb name) ("Date" :: added_names) = false ->
     lookup name
       (columns
          (tail 5
             (setitem_scalar "Industry" (lookup "industry" info)
                (setitem_scalar "Sector" (lookup "sector" info)
                   (setitem_scalar "Ticker" (Some ticker)
                      (set_columns
                         (indicator_columns qsqrt (map close bars)
                            (map low bars) (map high bars))
                         (history_frame tz bars)))))))
     = option_map (tail_series 5)
                  (lookup name (columns (history_frame tz bars)))).
  { intros name Hn. rewrite lookup_tail. f_equal.
    unfold setitem_scalar. rewrite !lookup_setitem.
    rewrite (existsb_eqb_false _ _ "Industry" Hn) by (simpl; tauto).
    rewrite (existsb_eqb_false _ _ "Sector" Hn) by (simpl; tauto).
    rewrite (existsb_eqb_false _ _ "Ticker" Hn) by (simpl; tauto).
    apply lookup_set_columns.
    cbn [existsb] in Hn. apply orb_false_elim in Hn. destruct Hn as [_ Hn].
    unfold added_names in Hn. rewrite existsb_app in Hn.
    now apply orb_false_elim in Hn. }
  assert (Hlen5 : forall hist : DataFrame,
     len hist = length bars ->
     length (map Z.of_nat (seq 0 (len (tail 5 hist)))) = 5).
  { intros hist Hh. now rewrite length_map, length_seq, len_tail, Hh. }
  destruct tz as [z|].
  - refine (conj _ (conj _ _)).
    + unfold len. cbn [index setitem idx_vals]. apply Hlen5.
      unfold setitem_scalar. rewrite !len_setitem, len_set_columns.
      unfold len. simpl. apply length_map.
    + rewrite lookup_setitem. reflexivity.
    + intros name Hn. rewrite lookup_setitem.
      rewrite (existsb_eqb_false _ _ "Date" Hn) by (simpl; tauto).
      cbn [columns lookup].
      rewrite (existsb_eqb_false _ _ "Date" Hn) by (simpl; tauto).
      now apply Hcol.
  - refine (conj _ (conj _ _)).
    + unfold len. cbn [index idx_vals]. apply Hlen5.
      unfold setitem_scalar. rewrite !len_setitem, len_set_columns.
      unfold len. simpl. apply length_map.
    + cbn [columns lookup]. string_eqb. reflexivity.
    + intros name Hn. cbn [columns lookup].
      rewrite (existsb_eqb_false _ _ "Date" Hn) by (simpl; tauto).
      now apply Hcol.
Qed.

End Window.

(** ** The batch run as a whole *)

Section BatchRun.

Variable qsqrt : Q -> Q.
Variable yf_Tickers : string -> list (string * Ticker).

Lemma try_block_process fetch data t :
  lookup t data = fetch t ->
  process qsqrt data t = try_block qsqrt fetch t.
Proof.
  intros H. unfold try_block. apply process_lookup. rewrite H.
  destruct (fetch t); simpl; [now rewrite String.eqb_refl|reflexivity].
Qed.

(** C2.  When the history of an identifier has fewer than 200 rows, its
    [try] block ends with the not-enough-data outcome and raises nothing,
    whatever the frame holds (it may lack the price columns that the
    rolling computations read), and the identifier is absent from the
    result of the batch run. *)
Theorem short_history_skipped ticker stock info hist tickers :
  (forall symbols, lookup ticker (yf_Tickers symbols) = Some stock) ->
  ticker_info stock = Ok info ->
  ticker_history stock = Ok hist ->
  len hist < 200 ->
  (forall symbols,
      process qsqrt (yf_Tickers symbols) ticker = Ok NotEnoughData)
  /\ lookup ticker (fetch_stock_data qsqrt yf_Tickers tickers) = None.
Proof.
  intros Hs Hi Hh Hlen.
  assert (Hp : forall symbols,
             process qsqrt (yf_Tickers symbols) ticker = Ok NotEnoughData).
  { intros symbols. unfold process, dict_getitem.
    rewrite Hs. cbn [bind]. rewrite Hi. cbn [bind]. rewrite Hh. cbn [bind].
    replace (200 <=? len hist) with false; [reflexivity|].
    symmetry. apply Nat.leb_gt. exact Hlen. }
  split; [exact Hp|].
  unfold fetch_stock_data.
  apply (run_invariant qsqrt yf_Tickers (fun d => lookup ticker d = None));
    [|reflexivity].
  intros symbols st t Hst. apply handle_lookup_skip; [|exact Hst].
  intros w. rewrite Hp. discriminate.
Qed.

(** C4.  When the provider serves each identifier in the same way in every
    group, an identifier whose [try] block raises (while fetching or while
    computing) is absent from the result, and every identifier of the list
    whose [try] block yields a window is present with that window, whatever
    happened to the others.  With three identifiers of which the second
    raises, the result holds exactly the windows of the first and the
    third, in this order, and the run prints the error and ends. *)
Theorem failures_isolated fetch tickers :
  (forall batch t, In t batch ->
     lookup t (yf_Tickers (String.concat " " batch)) = fetch t) ->
  (forall t e,
      try_block qsqrt fetch t = Raise e ->
      lookup t (fetch_stock_data qsqrt yf_Tickers tickers) = None)
  /\ (forall t w,
        In t tickers -> try_block qsqrt fetch t = Ok (Window w) ->
        lookup t (fetch_stock_data qsqrt yf_Tickers tickers) = Some w)
  /\ (forall a b c wa wc e,
        a <> c ->
        try_block qsqrt fetch a = Ok (Window wa) ->
        try_block qsqrt fetch b = Raise e ->
        try_block qsqrt fetch c = Ok (Window wc) ->
        fetch_stock_data_run qsqrt yf_Tickers 50 [a; b; c]
        = ([(a, wa); (c, wc)],
           ["Processing batch 1/1 (3 tickers)...";
            String.concat "" ["Error processing "; b; ": "; exn_str e]])).
Proof.
  intros Hper.
  assert (HP : forall batch t, In t batch ->
             process qsqrt (yf_Tickers (String.concat " " batch)) t
             = try_block qsqrt fetch t).
  { intros batch t Hin. apply try_block_process. now apply Hper. }
  assert (Hall : fetch_stock_data qsqrt yf_Tickers tickers
                 = fold_left (record (try_block qsqrt fetch)) tickers []).
  { unfold fetch_stock_data.
    apply fetch_stock_data_run_fst; [exact HP|lia]. }
  refine (conj _ (conj _ _)).
  - intros t e He. rewrite Hall, lookup_record_skip; [reflexivity|].
    intros w. rewrite He. discriminate.
  - intros t w Hin Hw. rewrite Hall. now apply lookup_record_in.
  - intros a b c wa wc e Hac Ha Hb Hc.
    unfold fetch_stock_data_run.
    change (range_step (length [a; b; c]) 50) with [0].
    cbn [fold_left]. unfold run_batch.
    change (slice 0 (0 + 50) [a; b; c]) with [a; b; c].
    cbn [fold_left fst snd app]. unfold handle.
    rewrite !HP by (simpl; tauto). rewrite Ha, Hb, Hc.
    cbn [dict_set app].
    replace (String.eqb c a) with false; [reflexivity|].
    symmetry. apply String.eqb_neq. congruence.
Qed.

(** C7.  When the provider serves each identifier in the same way in every
    group, [fetch_stock_data], which takes the identifiers in groups of
    50, returns the dictionary that a run with groups of one identifier
    returns: the same keys in the same order with the same windows, and so
    for any two positive group sizes. *)
Theorem grouping_transparent fetch tickers :
  (forall batch t, In t batch ->
     lookup t (yf_Tickers (String.concat " " batch)) = fetch t) ->
  fetch_stock_data qsqrt yf_Tickers tickers
  = fst (fetch_stock_data_run qsqrt yf_Tickers 1 tickers)
  /\ forall m n, 0 < m -> 0 < n ->
       fst (fetch_stock_data_run qsqrt yf_Tickers m tickers)
       = fst (fetch_stock_data_run qsqrt yf_Tickers n tickers).
Proof.
  intros Hper.
  assert (HP : forall batch t, In t batch ->
             process qsqrt (yf_Tickers (String.concat " " batch)) t
             = try_block qsqrt fetch t).
  { intros batch t Hin. apply try_block_process. now apply Hper. }
  assert (Hany : forall m, 0 < m ->
             fst (fetch_stock_data_run qsqrt yf_Tickers m tickers)
             = fold_left (record (try_block qsqrt fetch)) tickers []).
  { intros m Hm. now apply fetch_stock_data_run_fst. }
  split.
  - unfold fetch_stock_data. rewrite !Hany by lia. reflexivity.
  - intros m n Hm Hn. now rewrite !Hany.
Qed.

End BatchRun.

Lemma short_history_skipped_witness :
  indicators sqrt_floor three_days = Raise (KeyError "Close")
  /\ (forall symbols,
        process sqrt_floor (sample_provider symbols) "NEW"
        = Ok NotEnoughData)
  /\ lookup "NEW"
        (fetch_stock_data sqrt_floor sample_provider ["A"; "NEW"; "C"])
      = None.
Proof.
  split; [reflexivity|].
  apply (short_history_skipped sqrt_floor sample_provider "NEW" newly_listed
           [] three_days ["A"; "NEW"; "C"]).
  - intros symbols. reflexivity.
  - reflexivity.
  - reflexivity.
  - vm_compute. lia.
Defined.

Lemma failures_isolated_witness :
  exists wa wc e,
    fetch_stock_data_run sqrt_floor sample_provider 50 ["A"; "B"; "C"]
    = ([("A", wa); ("C", wc)],
       ["Processing batch 1/1 (3 tickers)...";
        String.concat "" ["Error processing "; "B"; ": "; exn_str e]]).
Proof.
  exists (report_window sqrt_floor "A" [("sector", "Technology")] new_york
                        (flat 10 10 10 10 200)).
  exists (report_window sqrt_floor "C" [("sector", "Technology")] new_york
                        (flat 10 10 10 10 200)).
  exists (ProviderError "No data found").
  destruct (failures_isolated sqrt_floor sample_provider
              (fun t => lookup t (sample_provider "")) ["A"; "B"; "C"])
    as (_ & _ & H3).
  - intros batch t _. reflexivity.
  - apply H3.
    + discriminate.
    + unfold try_block.
      apply (process_history_frame sqrt_floor _ "A" listed
               [("sector", "Technology")] new_york (flat 10 10 10 10 200));
        reflexivity.
    + reflexivity.
    + unfold try_block.
      apply (process_history_frame sqrt_floor _ "C" listed
               [("sector", "Technology")] new_york (flat 10 10 10 10 200));
        reflexivity.
Defined.

Lemma grouping_transparent_witness :
  fetch_stock_data sqrt_floor sample_provider ["A"; "B"; "C"; "NEW"]
  = fst (fetch_stock_data_run sqrt_floor sample_provider 1
           ["A"; "B"; "C"; "NEW"])
  /\ forall m n, 0 < m -> 0 < n ->
       fst (fetch_stock_data_run sqrt_floor sample_provider m
              ["A"; "B"; "C"; "NEW"])
       = fst (fetch_stock_data_run sqrt_floor sample_provider n
                ["A"; "B"; "C"; "NEW"]).
Proof.
  apply (grouping_transparent sqrt_floor sample_provider
           (fun t => lookup t (sample_provider ""))).
  intros batch t _. reflexivity.
Defined.

(** ** The script *)

(** C8.  Whenever [get_sp500_tickers_wikipedia] returns no ticker, the
    script only prints: its opening line, the lines of the failure if
    there was one, the count and the (empty) first tickers, and last the
    message that no ticker was retrieved.  It writes neither the symbol
    file nor the report.  (With a ticker it writes the symbol file and
    opens the workbook.) *)
Theorem empty_list_no_report qsqrt yf_Tickers p :
  fst (get_sp500_tickers_wikipedia p) = [] ->
  script qsqrt yf_Tickers p
  = [Print "Fetching S&P 500 tickers from Wikipedia..."]
    ++ snd (get_sp500_tickers_wikipedia p)
    ++ [Print "S&P 500 Tickers (0):";
        Print "First 5 tickers: [] ...";
        Print
          "No tickers retrieved. Please check dependencies and try again."]
  /\ forallb is_print (script qsqrt yf_Tickers p) = true
  /\ forall t ts,
       In (ToCsv "sp500_tickers.csv" (t :: ts))
          (script qsqrt yf_Tickers (Table (t :: ts)))
       /\ exists sheets,
            In (ToExcel "sp500_analysis.xlsx" sheets)
               (script qsqrt yf_Tickers (Table (t :: ts))).
Proof.
  intros Hp. refine (conj _ (conj _ _)).
  - destruct p as [[|t ts]|e|e]; try discriminate; reflexivity.
  - destruct p as [[|t ts]|e|e]; try discriminate; reflexivity.
  - intros t ts. unfold script. cbn [get_sp500_tickers_wikipedia].
    destruct (fetch_stock_data_run qsqrt yf_Tickers 50 (t :: ts))
      as [ticker_data out].
    split.
    + apply in_or_app. right. apply in_or_app. right.
      apply in_or_app. right. apply in_or_app. left. simpl. tauto.
    + eexists. apply in_or_app. right. apply in_or_app. right.
      apply in_or_app. right. apply in_or_app. right.
      apply in_or_app. right. simpl. eauto.
Qed.

Lemma empty_list_no_report_witness :
  script sqrt_floor sample_provider (FetchFailed "HTTP Error 403: Forbidden")
  = [Print "Fetching S&P 500 tickers from Wikipedia...";
     Print "Error fetching S&P 500 tickers: HTTP Error 403: Forbidden";
     Print "S&P 500 Tickers (0):";
     Print "First 5 tickers: [] ...";
     Print "No tickers retrieved. Please check dependencies and try again."]
  /\ forallb is_print
       (script sqrt_floor sample_provider
               (FetchFailed "HTTP Error 403: Forbidden")) = true.
Proof.
  destruct (empty_list_no_report sqrt_floor sample_provider
              (FetchFailed "HTTP Error 403: Forbidden") eq_refl)
    as (H1 & H2 & _).
  split; [exact H1|exact H2].
Defined.

(** ** The original columns *)

(** C9.  For every price series of at least 200 bars, [indicators] leaves
    the index and every column it does not assign as they were, and the
    recorded window has five rows that hold, in the order of the input,
    the dates (without timezone), opens, highs, lows, closes and volumes
    of the last five bars. *)
Theorem original_columns_kept qsqrt data ticker stock info tz bars :
  lookup ticker data = Some stock ->
  ticker_info stock = Ok info ->
  ticker_history stock = Ok (history_frame tz bars) ->
  200 <= length bars ->
  exists aug w,
    indicators qsqrt (history_frame tz bars) = Ok aug
    /\ index aug = index (history_frame tz bars)
    /\ (forall name,
          existsb (String.eqb name) indicator_names = false ->
          lookup name (columns aug)
          = lookup name (columns (history_frame tz bars)))
    /\ process qsqrt data ticker = Ok (Window w)
    /\ len w = 5
    /\ lookup "Date" (columns w)
       = Some (TimeS None (lastn 5 (map date bars)))
    /\ lookup "Open" (columns w) = Some (FloatS (lastn 5 (map open bars)))
    /\ lookup "High" (columns w) = Some (FloatS (lastn 5 (map high bars)))
    /\ lookup "Low" (columns w) = Some (FloatS (lastn 5 (map low bars)))
    /\ lookup "Close" (columns w) = Some (FloatS (lastn 5 (map close bars)))
    /\ lookup "Volume" (columns w)
       = Some (IntS (lastn 5 (map volume bars))).
Proof.
  intros Hs Hi Hh Hlen.
  exists (set_columns
            (indicator_columns qsqrt (map close bars) (map low bars)
                               (map high bars))
            (history_frame tz bars)).
  exists (report_window qsqrt ticker info tz bars).
  destruct (report_window_columns qsqrt ticker info tz bars ltac:(lia))
    as (W1 & W2 & W3).
  split; [apply indicators_history_frame|].
  split; [apply index_set_columns|].
  split; [intros name Hn; now apply lookup_set_columns|].
  split; [now apply (process_history_frame qsqrt data ticker stock)|].
  split; [exact W1|]. split; [exact W2|].
  repeat split; rewrite W3 by reflexivity; reflexivity.
Qed.

Lemma original_columns_kept_witness :
  exists aug w,
    indicators sqrt_floor (history_frame new_york (ramp 200)) = Ok aug
    /\ index aug = index (history_frame new_york (ramp 200))
    /\ (forall name,
          existsb (String.eqb name) indicator_names = false ->
          lookup name (columns aug)
          = lookup name (columns (history_frame new_york (ramp 200))))
    /\ process sqrt_floor
               [("RAMP", mkTicker (Ok [])
                           (Ok (history_frame new_york (ramp 200))))]
               "RAMP"
       = Ok (Window w)
    /\ len w = 5
    /\ lookup "Date" (columns w)
       = Some (TimeS None (lastn 5 (map date (ramp 200))))
    /\ lookup "Open" (columns w)
       = Some (FloatS (lastn 5 (map open (ramp 200))))
    /\ lookup "High" (columns w)
       = Some (FloatS (lastn 5 (map high (ramp 200))))
    /\ lookup "Low" (columns w)
       = Some (FloatS (lastn 5 (map low (ramp 200))))
    /\ lookup "Close" (columns w)
       = Some (FloatS (lastn 5 (map close (ramp 200))))
    /\ lookup "Volume" (columns w)
       = Some (IntS (lastn 5 (map volume (ramp 200)))).
Proof.
  apply (original_columns_kept sqrt_floor _ "RAMP"
           (mkTicker (Ok []) (Ok (history_frame new_york (ramp 200))))
           [] new_york (ramp 200)).
  - reflexivity.
  - reflexivity.
  - reflexivity.
  - vm_compute. lia.
Defined.

(** ** Range of the RSI *)

Lemma rsi_formula_range g l :
  (0 <= g)%Q -> (0 <= l)%Q ->
  in_0_100 (rsi_formula (fdiv (num g) (num l))).
Proof.
  intros Hg Hl. destruct (Qeq_dec l 0) as [Hz|Hz].
  - destruct (Qeq_dec g 0) as [Hg0|Hg0].
    + now rewrite rsi_formula_flat.
    + rewrite rsi_formula_saturates; [simpl; lra|lra|exact Hz].
  - unfold num. pose proof (Qred_correct l) as Rl.
    pose proof (Qred_correct g) as Rg. cbn [fdiv].
    rewrite Qeq_bool_false by lra.
    unfold rsi_formula. cbn [fadd num]. unfold num.
    set (r := Qred (Qred g / Qred l)).
    assert (Hr : (0 <= r)%Q).
    { pose proof (Qred_correct (Qred g / Qred l)) as Rr. fold r in Rr.
      assert (0 <= Qred g / Qred l)%Q by (apply Qle_shift_div_l; lra).
      lra. }
    pose proof (Qred_correct (1 + r)) as Rs.
    clearbody r.
    cbn [fdiv]. rewrite (Qeq_bool_false (Qred (1 + r))) by lra.
    cbn [fsub]. unfold in_0_100, num.
    pose proof (Qred_correct (100 / Qred (1 + r))) as Rt.
    pose proof (Qred_correct (100 - Qred (100 / Qred (1 + r)))) as Ru.
    assert (Ht : (0 <= 100 / Qred (1 + r) <= 100)%Q).
    { split.
      - apply Qle_shift_div_l; lra.
      - apply Qle_shift_div_r; lra. }
    lra.
Qed.

(** Over finite closes every row of the RSI is undefined or lies in
    [0, 100]. *)
Lemma rsi_in_range close i :
  forallb is_fin close = true -> in_0_100 (nth i (rsi close) NaN).
Proof.
  intros Hf.
  destruct (Nat.lt_ge_cases i 13) as [H13|H13];
    [now rewrite rsi_warmup|].
  destruct (Nat.lt_ge_cases i (length close)) as [Hi|Hi].
  - destruct (nth_rsi close i H13 Hi) as [-> [HG HL]].
    { intros j _ Hj. apply nth_forallb; [assumption|lia]. }
    apply rsi_formula_range; apply Qmean_nonneg; auto;
      intros E; apply (f_equal (@length Q)) in E;
      rewrite length_map, window_length in E
        by (rewrite ?gain_of_length, ?loss_of_length; lia);
      cbn [length] in E; lia.
  - rewrite nth_overflow; [exact I|].
    unfold rsi, rsi_of_delta. col_length. lia.
Qed.

(** With no gain and some loss [rs] is 0 and the formula gives 0. *)
Lemma rsi_formula_bottoms g l :
  (g == 0)%Q -> (0 < l)%Q -> rsi_formula (fdiv (num g) (num l)) = Fin 0.
Proof.
  intros Hg Hl. unfold num. rewrite (Qred_zero g Hg).
  pose proof (Qred_correct l) as Rl. cbn [fdiv].
  rewrite Qeq_bool_false by lra.
  unfold num. rewrite (Qred_zero (0 / Qred l)); [reflexivity|].
  unfold Qdiv. apply Qmult_0_l.
Qed.

(** Over rows [i-14 .. i] with finite closes that never rise and fall at
    least once, the RSI of row [i] is exactly 0. *)
Lemma rsi_bottoms close i :
  13 <= i -> i < length close ->
  (forall j, i - 14 <= j -> j <= i -> is_fin (nth j close NaN) = true) ->
  (forall j, i - 14 <= j -> j < i ->
             fleb (nth (S j) close NaN) (nth j close NaN) = true) ->
  (exists j, i - 14 <= j /\ j < i
             /\ fltb (nth (S j) close NaN) (nth j close NaN) = true) ->
  nth i (rsi close) NaN = Fin 0.
Proof.
  intros Hi Hlen Hf Hmono [j [Hj1 [Hj2 Hdown]]].
  destruct (nth_rsi close i Hi Hlen Hf) as [-> [HG HL]].
  apply rsi_formula_bottoms.
  - apply Qmean_zero, Forall_qval_zero.
    apply (Forall_window _ _ _ _ NaN); [rewrite gain_of_length; lia|].
    intros k Hk1 Hk2. destruct k as [|k].
    + now destruct (gain_loss_0 close ltac:(lia)).
    + pose proof (is_fin_qval _ (Hf k ltac:(lia) ltac:(lia))) as Ha.
      pose proof (is_fin_qval _ (Hf (S k) ltac:(lia) ltac:(lia))) as Hb.
      destruct (gain_loss_S close k _ _ ltac:(lia) Ha Hb) as [_ [H2 H3]].
      pose proof (Hmono k ltac:(lia) ltac:(lia)) as Hle.
      rewrite Ha, Hb in Hle. simpl in Hle. apply Qle_bool_iff in Hle.
      destruct (Qle_lt_or_eq _ _ Hle) as [H|H].
      * now destruct (H2 H).
      * symmetry in H. now destruct (H3 H).
  - apply Qmean_pos; [exact HL|].
    apply (window_Exists_pos 14 i (S j));
      [rewrite loss_of_length; lia|lia|lia|].
    pose proof (is_fin_qval _ (Hf j ltac:(lia) ltac:(lia))) as Ha.
    pose proof (is_fin_qval _ (Hf (S j) ltac:(lia) ltac:(lia))) as Hb.
    destruct (gain_loss_S close j _ _ ltac:(lia) Ha Hb) as [_ [H2 _]].
    rewrite Ha, Hb in Hdown. simpl in Hdown.
    apply negb_true_iff, Qle_bool_false in Hdown.
    now destruct (H2 Hdown).
Qed.

(** ** MACD: no warm-up *)

Lemma ewm_loop_fin alpha adjust vals x old_wt nobs :
  (0 < alpha)%Q -> (alpha < 1)%Q -> (0 < old_wt)%Q -> 1 <= nobs ->
  forallb is_fin vals = true ->
  forallb is_fin (ewm_loop alpha adjust vals (Fin x) old_wt nobs) = true.
Proof.
  intros Ha0 Ha1. revert x old_wt nobs.
  induction vals as [|cur rest IH]; intros x old_wt nobs Hw Hn Hf;
    [reflexivity|].
  simpl in Hf. apply andb_prop in Hf. destruct Hf as [Hc Hr].
  destruct cur as [| |c]; try discriminate.
  cbn [ewm_loop is_nan negb].
  pose proof (Qred_correct (old_wt * (1 - alpha))) as R1.
  assert (Hw1 : (0 < Qred (old_wt * (1 - alpha)))%Q).
  { assert (0 < old_wt * (1 - alpha))%Q by (apply Qmult_lt_0_compat; lra).
    lra. }
  set (w1 := Qred (old_wt * (1 - alpha))) in *.
  set (new_wt := if adjust then 1%Q else alpha).
  assert (Hnew : (0 < new_wt)%Q) by (unfold new_wt; destruct adjust; lra).
  assert (Hwt : exists y,
             (if feqb (Fin x) (Fin c) then Fin x
              else fdiv (fadd (fmul (Fin w1) (Fin x)) (fmul (Fin new_wt) (Fin c)))
                        (Fin (w1 + new_wt))) = Fin y).
  { destruct (feqb (Fin x) (Fin c)); [eauto|].
    cbn [fmul fadd num]. unfold num. cbn [fdiv].
    rewrite Qeq_bool_false by lra. unfold num. eauto. }
  destruct Hwt as [y Hy]. rewrite Hy.
  replace (1 <=? S nobs) with true by (symmetry; apply Nat.leb_le; lia).
  cbn [forallb is_fin andb]. apply IH; [|lia|exact Hr].
  destruct adjust; [|lra].
  pose proof (Qred_correct (w1 + new_wt)). lra.
Qed.

Lemma ewm_mean_fin span adjust vals :
  2 <= span -> forallb is_fin vals = true ->
  forallb is_fin (ewm_mean span adjust vals) = true.
Proof.
  intros Hs Hf. unfold ewm_mean. rewrite (prep_values_fin vals Hf).
  destruct vals as [|v0 rest]; [reflexivity|].
  simpl in Hf. apply andb_prop in Hf. destruct Hf as [H0 Hr].
  destruct v0 as [| |x]; try discriminate.
  cbn [is_nan Nat.leb forallb is_fin andb].
  assert (Hpos : (0 < inject_Z (Z.of_nat (span + 1)))%Q).
  { change 0%Q with (inject_Z 0). rewrite <- Zlt_Qlt. lia. }
  assert (Hbig : (2 < inject_Z (Z.of_nat (span + 1)))%Q).
  { change 2%Q with (inject_Z 2). rewrite <- Zlt_Qlt. lia. }
  apply ewm_loop_fin; auto; try lra.
  - apply Qlt_shift_div_l; lra.
  - apply Qlt_shift_div_r; lra.
Qed.

Lemma sub_fin a b :
  forallb is_fin a = true -> forallb is_fin b = true ->
  forallb is_fin (sub a b) = true.
Proof.
  revert b; induction a as [|x a IH]; intros [|y b] Ha Hb; try reflexivity.
  simpl in Ha, Hb. apply andb_prop in Ha, Hb.
  destruct Ha as [Hx Ha], Hb as [Hy Hb].
  destruct x; try discriminate. destruct y; try discriminate.
  simpl. now apply IH.
Qed.

Lemma forallb_leading_zero l :
  forallb is_fin l = true -> leading_nan l = 0.
Proof. destruct l as [|[| |q] l]; simpl; try discriminate; reflexivity. Qed.

(** Over finite closes the three MACD columns are numbers on every row,
    and the first row of each is 0. *)
Lemma macd_fin close :
  forallb is_fin close = true ->
  forallb is_fin (macd_line close) = true
  /\ forallb is_fin (macd_signal close) = true
  /\ forallb is_fin (macd_hist close) = true.
Proof.
  intros Hf.
  assert (Hl : forallb is_fin (macd_line close) = true).
  { unfold macd_line. apply sub_fin; apply ewm_mean_fin; auto; lia. }
  assert (Hs : forallb is_fin (macd_signal close) = true).
  { unfold macd_signal. apply ewm_mean_fin; auto; lia. }
  repeat split; auto. unfold macd_hist. now apply sub_fin.
Qed.

Lemma macd_first_row close :
  forallb is_fin close = true -> close <> [] ->
  nth 0 (macd_line close) NaN = Fin 0
  /\ nth 0 (macd_signal close) NaN = Fin 0
  /\ nth 0 (macd_hist close) NaN = Fin 0.
Proof.
  intros Hf Hne. destruct close as [|[| |x] rest]; try congruence;
    try discriminate.
  assert (Hl : nth 0 (macd_line (Fin x :: rest)) NaN = Fin 0).
  { unfold macd_line. rewrite nth_sub.
    cbn [ewm_mean prep_values map nth is_nan Nat.leb].
    unfold fsub, num. f_equal. apply Qred_zero. ring. }
  assert (Hs : nth 0 (macd_signal (Fin x :: rest)) NaN = Fin 0).
  { unfold macd_signal.
    destruct (macd_line (Fin x :: rest)) as [|v0 l] eqn:E;
      [discriminate Hl|].
    simpl in Hl. subst v0. reflexivity. }
  repeat split; auto.
  unfold macd_hist. now rewrite nth_sub, Hl, Hs.
Qed.

(** *** Constant closes *)

Lemma ewm_loop_const alpha adjust c n old_wt nobs :
  1 <= nobs ->
  ewm_loop alpha adjust (repeat (Fin c) n) (Fin c) old_wt nobs
  = repeat (Fin c) n.
Proof.
  revert old_wt nobs; induction n as [|n IH]; intros old_wt nobs Hn;
    [reflexivity|].
  cbn [repeat ewm_loop is_nan negb feqb].
  replace (Qeq_bool c c) with true
    by (symmetry; apply Qeq_bool_iff; reflexivity).
  replace (1 <=? S nobs) with true by (symmetry; apply Nat.leb_le; lia).
  f_equal. apply IH. lia.
Qed.

Lemma ewm_mean_const span adjust c n :
  ewm_mean span adjust (repeat (Fin c) n) = repeat (Fin c) n.
Proof.
  unfold ewm_mean.
  rewrite (prep_values_fin _ (forallb_is_fin_repeat c n)).
  destruct n as [|n]; [reflexivity|].
  cbn [repeat is_nan Nat.leb]. f_equal.
  now apply ewm_loop_const.
Qed.

Lemma sub_repeat a b n :
  sub (repeat a n) (repeat b n) = repeat (fsub a b) n.
Proof.
  induction n as [|n IH]; [reflexivity|].
  cbn [repeat]. unfold sub in *. cbn [zip_with]. now rewrite IH.
Qed.

(** When the close never changes, the three MACD columns are 0 on every
    row. *)
Lemma macd_const c n :
  macd_line (repeat (Fin c) n) = repeat (Fin 0) n
  /\ macd_signal (repeat (Fin c) n) = repeat (Fin 0) n
  /\ macd_hist (repeat (Fin c) n) = repeat (Fin 0) n.
Proof.
  assert (Hz : fsub (Fin c) (Fin c) = Fin 0).
  { unfold fsub, num. f_equal. apply Qred_zero. ring. }
  assert (Hl : macd_line (repeat (Fin c) n) = repeat (Fin 0) n).
  { unfold macd_line. now rewrite !ewm_mean_const, sub_repeat, Hz. }
  assert (Hs : macd_signal (repeat (Fin c) n) = repeat (Fin 0) n).
  { unfold macd_signal. now rewrite Hl, ewm_mean_const. }
  repeat split; auto.
  unfold macd_hist. rewrite Hl, Hs, sub_repeat. reflexivity.
Qed.

(** ** Sign of the ATR *)

(** Adds [Qred x == x] for every reduced rational of the goal. *)
Ltac qred_facts :=
  repeat match goal with
         | |- context [Qred ?x] =>
             lazymatch goal with
             | H : (Qred x == x)%Q |- _ => fail
             | _ => pose proof (Qred_correct x)
             end
         end.

Lemma nanmax2_fin a b :
  exists m, nanmax2 (Fin a) (Fin b) = Fin m /\ (a <= m)%Q /\ (b <= m)%Q.
Proof.
  cbn [nanmax2 fltb]. destruct (Qle_bool b a) eqn:E; cbn [negb].
  - apply Qle_bool_iff in E. exists a. repeat split; lra.
  - apply Qle_bool_false in E. exists b. repeat split; lra.
Qed.

Lemma row_max_ge_second a b x :
  (x = NaN \/ is_fin x = true) ->
  exists m, row_max [Fin a; Fin b; x] = Fin m /\ (a <= m)%Q /\ (b <= m)%Q.
Proof.
  intros Hx. unfold row_max. cbn [fold_left].
  change (nanmax2 NaN (Fin a)) with (Fin a).
  destruct (nanmax2_fin a b) as [m [-> [H1 H2]]].
  destruct Hx as [->|Hx].
  - exists m. repeat split; auto.
  - destruct x as [| |c]; try discriminate.
    destruct (nanmax2_fin m c) as [m' [-> [H3 _]]].
    exists m'. repeat split; lra.
Qed.

Lemma row_max_first a :
  row_max [Fin a; NaN; NaN] = Fin a.
Proof. reflexivity. Qed.

(** The true range of a row after the first is not negative, whatever the
    finite prices. *)
Lemma true_range_nonneg close low high i :
  length close = length low -> length high = length low ->
  forallb is_fin close = true -> forallb is_fin low = true ->
  forallb is_fin high = true ->
  1 <= i -> i < length low ->
  fin_nonneg (nth i (true_range close low high) NaN).
Proof.
  intros Hcl Hhl Hfc Hfl Hfh Hi Hlen. unfold true_range.
  rewrite nth_max_axis1 by (col_length; lia).
  rewrite (nth_map_strict fabs) by reflexivity.
  rewrite (nth_map_strict fabs) by reflexivity.
  rewrite !nth_sub.
  rewrite (is_fin_qval _ (nth_forallb is_fin high NaN i Hfh ltac:(lia))).
  rewrite (is_fin_qval _ (nth_forallb is_fin low NaN i Hfl ltac:(lia))).
  destruct i as [|i]; [lia|]. rewrite nth_shift.
  replace (S i <? length close) with true
    by (symmetry; apply Nat.ltb_lt; lia).
  rewrite (is_fin_qval _ (nth_forallb is_fin close NaN i Hfc ltac:(lia))).
  cbn [fsub fabs num]. unfold num.
  match goal with
  | |- fin_nonneg (row_max [Fin ?a; Fin ?b; ?x]) =>
      destruct (row_max_ge_second a b x) as [m [-> [_ H2]]]; [now right|];
      assert (Hb : (0 <= b)%Q)
  end.
  { match goal with
    | |- (0 <= Qred (Qabs ?y))%Q =>
        pose proof (Qred_correct (Qabs y)); pose proof (Qabs_nonneg y)
    end. lra. }
  simpl. lra.
Qed.

Lemma true_range_first close low high :
  length close = length low -> length high = length low ->
  forallb is_fin low = true -> forallb is_fin high = true ->
  0 < length low ->
  nth 0 (true_range close low high) NaN
  = fsub (nth 0 high NaN) (nth 0 low NaN).
Proof.
  intros Hcl Hhl Hfl Hfh Hlen. unfold true_range.
  rewrite nth_max_axis1 by (col_length; lia).
  rewrite (nth_map_strict fabs) by reflexivity.
  rewrite (nth_map_strict fabs) by reflexivity.
  rewrite !nth_sub.
  replace (nth 0 (shift close) NaN) with NaN by now destruct close.
  rewrite (is_fin_qval _ (nth_forallb is_fin high NaN 0 Hfh ltac:(lia))).
  rewrite (is_fin_qval _ (nth_forallb is_fin low NaN 0 Hfl ltac:(lia))).
  reflexivity.
Qed.

(** From row 14 on the ATR is a number that is not negative; so is row 13
    when the first bar has [low <= high]. *)
Lemma atr_nonneg close low high i :
  length close = length low -> length high = length low ->
  forallb is_fin close = true -> forallb is_fin low = true ->
  forallb is_fin high = true ->
  13 <= i -> i < length low ->
  (i = 13 -> fleb (nth 0 low NaN) (nth 0 high NaN) = true) ->
  fin_nonneg (nth i (atr close low high) NaN).
Proof.
  intros Hcl Hhl Hfc Hfl Hfh Hi Hlen H0.
  destruct (true_range_fin close low high Hcl Hhl Hfc Hfl Hfh) as [L F].
  unfold atr. rewrite rolling_mean_fin; [|lia|lia|now apply forallb_window].
  assert (HW : Forall fin_nonneg (window 14 i (true_range close low high))).
  { apply (Forall_window _ _ _ _ NaN); [lia|].
    intros j Hj1 Hj2. destruct j as [|j].
    - rewrite true_range_first; auto; [|lia].
      assert (i = 13) by lia. specialize (H0 H).
      pose proof (is_fin_qval _ (nth_forallb is_fin high NaN 0 Hfh
                                   ltac:(lia))) as Eh.
      pose proof (is_fin_qval _ (nth_forallb is_fin low NaN 0 Hfl
                                   ltac:(lia))) as El.
      rewrite Eh, El in H0. rewrite Eh, El.
      cbn [fleb] in H0. apply Qle_bool_iff in H0.
      cbn [fsub fin_nonneg num]. unfold num, fin_nonneg.
      qred_facts. lra.
    - apply true_range_nonneg; auto; lia. }
  apply Forall_fin_nonneg in HW. destruct HW as [_ HW].
  cbn [fin_nonneg num]. unfold num, fin_nonneg.
  match goal with
  | |- (0 <= Qred ?x)%Q =>
      pose proof (Qred_correct x); cut (0 <= x)%Q; [lra|]
  end.
  apply Qmean_nonneg; [|exact HW].
  intros E. apply (f_equal (@length Q)) in E.
  rewrite length_map, window_length in E by lia. cbn [length] in E. lia.
Qed.

(** ** Moving averages between the bounds of their window *)

Lemma between_fin lo hi x :
  fleb (Fin lo) x && fleb x (Fin hi) = true ->
  exists c, x = Fin c /\ (lo <= c <= hi)%Q.
Proof.
  intros H. apply andb_prop in H. destruct H as [H1 H2].
  destruct x as [|s|c]; try discriminate.
  - simpl in H1, H2. subst s. discriminate.
  - simpl in H1, H2. apply Qle_bool_iff in H1, H2. eauto.
Qed.

Lemma rolling_mean_between w close i lo hi :
  1 <= w -> w <= i + 1 -> i < length close ->
  forallb (fun x => fleb (Fin lo) x && fleb x (Fin hi)) (window w i close)
  = true ->
  exists m, nth i (rolling_mean w close) NaN = Fin m /\ (lo <= m <= hi)%Q.
Proof.
  intros Hw Hwi Hi Hb. rewrite forallb_forall in Hb.
  assert (HF : forallb is_fin (window w i close) = true).
  { apply forallb_forall. intros x Hx.
    destruct (between_fin lo hi x (Hb x Hx)) as [c [-> _]]. reflexivity. }
  rewrite rolling_mean_fin by assumption.
  eexists. split; [reflexivity|].
  pose proof (Qred_correct (Qmean (map qval (window w i close)))) as R.
  cut (lo <= Qmean (map qval (window w i close)) <= hi)%Q; [lra|].
  apply Qmean_bounds.
  - intros E. apply (f_equal (@length Q)) in E.
    rewrite length_map, window_length in E by assumption.
    cbn [length] in E. lia.
  - apply Forall_forall. intros q Hq. apply in_map_iff in Hq.
    destruct Hq as [x [<- Hx]].
    destruct (between_fin lo hi x (Hb x Hx)) as [c [-> Hc]]. exact Hc.
Qed.

(** ** %K at the ends of the range *)

Lemma stoch_k_ends close low high i h l :
  nth i (rolling_max 14 high) NaN = Fin h ->
  nth i (rolling_min 14 low) NaN = Fin l ->
  ~ (h == l)%Q ->
  (forall c, nth i close NaN = Fin c -> (c == h)%Q ->
             nth i (stoch_k close low high) NaN = Fin 100)
  /\ (forall c, nth i close NaN = Fin c -> (c == l)%Q ->
                nth i (stoch_k close low high) NaN = Fin 0).
Proof.
  intros Hh Hl Hne. split; intros c Hc Hcq;
    rewrite nth_stoch_k, Hh, Hl, Hc; unfold fsub, fmul, fdiv, num;
    pose proof (Qred_correct (h - l)) as R1;
    pose proof (Qred_correct (c - l)) as R2;
    pose proof (Qred_correct (100 * Qred (c - l))) as R3;
    rewrite Qeq_bool_false by lra; f_equal.
  - change 100%Q with (Qred 100). apply Qred_complete.
    rewrite R3, R2, R1, Hcq. field. lra.
  - apply Qred_zero. rewrite R3, R2, R1, Hcq. field. lra.
Qed.

(** ** Further properties of the indicator columns *)

Lemma indicators_float_cols qsqrt hist aug close :
  indicators qsqrt hist = Ok aug ->
  getitem_float "Close" hist = Ok close ->
  exists low high,
    getitem_values "Low" hist = Ok low
    /\ getitem_values "High" hist = Ok high
    /\ length (float_col "MACD Line" aug) = length (macd_line close)
    /\ float_col "50D MA" aug = rolling_mean 50 close
    /\ float_col "200D MA" aug = rolling_mean 200 close
    /\ float_col "MACD Line" aug = macd_line close
    /\ float_col "MACD Signal" aug = macd_signal close
    /\ float_col "MACD Hist" aug = macd_hist close
    /\ float_col "RSI" aug = rsi close
    /\ float_col "BB Middle" aug = rolling_mean 20 close
    /\ float_col "BB Upper" aug = bb_upper qsqrt close
    /\ float_col "BB Lower" aug = bb_lower qsqrt close
    /\ float_col "Stoch %K" aug = stoch_k close low high
    /\ float_col "Stoch %D" aug = stoch_d close low high
    /\ float_col "ATR" aug = atr close low high.
Proof.
  intros Hind Hc.
  destruct (indicators_inv _ _ _ Hind) as (c & l & h & Hc' & Hl & Hh & ->).
  rewrite Hc in Hc'. injection Hc' as <-.
  exists l, h. split; [exact Hl|]. split; [exact Hh|].
  pose proof (float_col_indicators qsqrt close l h hist) as H.
  cbv zeta in H.
  destruct H as (H1 & H2 & H3 & H4 & H5 & H6 & H7 & H8 & H9 & H10 & H11
                 & H12).
  rewrite H3. repeat (split; [assumption || reflexivity|]). assumption.
Qed.

(** X1.  In exact arithmetic: whenever [indicators] succeeds on finite
    closes, every row of the RSI column is undefined or lies in
    [0, 100]. *)
Theorem rsi_within_0_100 qsqrt hist aug close :
  indicators qsqrt hist = Ok aug ->
  getitem_float "Close" hist = Ok close ->
  forallb is_fin close = true ->
  forall i, in_0_100 (nth i (float_col "RSI" aug) NaN).
Proof.
  intros Hind Hc Hf i.
  destruct (indicators_float_cols _ _ _ _ Hind Hc)
    as (l & h & _ & _ & _ & _ & _ & _ & _ & _ & -> & _).
  now apply rsi_in_range.
Qed.

Lemma rsi_within_0_100_witness :
  forallb is_fin (map close (ramp 200)) = true
  /\ forall i,
       in_0_100
         (nth i
            (float_col "RSI"
               (set_columns
                  (indicator_columns sqrt_floor (map close (ramp 200))
                     (map low (ramp 200)) (map high (ramp 200)))
                  (history_frame new_york (ramp 200)))) NaN).
Proof.
  split; [vm_compute; reflexivity|].
  apply (rsi_within_0_100 sqrt_floor (history_frame new_york (ramp 200)) _
           (map close (ramp 200))).
  - apply indicators_history_frame.
  - reflexivity.
  - vm_compute. reflexivity.
Defined.

(** X2.  In exact arithmetic: the window of the RSI of row [i] spans the
    closes of rows [i-14 .. i]; when they are finite, never rise and fall
    at least once, the RSI of row [i] is exactly 0.  (In binary64 a fall
    so large that the difference overflows gives an infinite delta and an
    undefined RSI: see [delta_of_closes_overflows].) *)
Theorem rsi_bottoms_at_0 qsqrt hist aug close i :
  indicators qsqrt hist = Ok aug ->
  getitem_float "Close" hist = Ok close ->
  13 <= i -> i < length close ->
  (forall j, i - 14 <= j -> j <= i -> is_fin (nth j close NaN) = true) ->
  (forall j, i - 14 <= j -> j < i ->
             fleb (nth (S j) close NaN) (nth j close NaN) = true) ->
  (exists j, i - 14 <= j /\ j < i
             /\ fltb (nth (S j) close NaN) (nth j close NaN) = true) ->
  nth i (float_col "RSI" aug) NaN = Fin 0.
Proof.
  intros Hind Hc Hi Hlen Hfin Hmono Hdown.
  destruct (indicators_float_cols _ _ _ _ Hind Hc)
    as (l & h & _ & _ & _ & _ & _ & _ & _ & _ & -> & _).
  now apply rsi_bottoms.
Qed.

Lemma rsi_bottoms_at_0_witness :
  nth 13
      (float_col "RSI"
         (set_columns
            (indicator_columns sqrt_floor (map close (slide 200))
                               (map low (slide 200)) (map high (slide 200)))
            (history_frame new_york (slide 200)))) NaN
  = Fin 0.
Proof.
  apply (rsi_bottoms_at_0 sqrt_floor (history_frame new_york (slide 200))
           _ (map close (slide 200)) 13).
  - apply indicators_history_frame.
  - reflexivity.
  - lia.
  - vm_compute. lia.
  - intros j _ Hj. do 14 (destruct j as [|j]; [reflexivity|]). lia.
  - intros j _ Hj. do 13 (destruct j as [|j]; [reflexivity|]). lia.
  - exists 0. repeat split; try lia.
Defined.

(** X3.  In exact arithmetic: whenever [indicators] succeeds on finite
    closes, the MACD line, signal and histogram are numbers on every row
    (these columns have no warm-up), and on the first row all three are 0.
    (In binary64 the weighted sums of the averages overflow on closes near
    the largest number, and the line is then NaN from the second row
    on.) *)
Theorem macd_defined_everywhere qsqrt hist aug close :
  indicators qsqrt hist = Ok aug ->
  getitem_float "Close" hist = Ok close ->
  forallb is_fin close = true ->
  forallb is_fin (float_col "MACD Line" aug) = true
  /\ forallb is_fin (float_col "MACD Signal" aug) = true
  /\ forallb is_fin (float_col "MACD Hist" aug) = true
  /\ length (float_col "MACD Hist" aug) = length close
  /\ (close <> [] ->
      nth 0 (float_col "MACD Line" aug) NaN = Fin 0
      /\ nth 0 (float_col "MACD Signal" aug) NaN = Fin 0
      /\ nth 0 (float_col "MACD Hist" aug) NaN = Fin 0).
Proof.
  intros Hind Hc Hf.
  destruct (indicators_float_cols _ _ _ _ Hind Hc)
    as (l & h & _ & _ & _ & _ & _ & -> & -> & -> & _).
  destruct (macd_fin close Hf) as (F1 & F2 & F3).
  refine (conj F1 (conj F2 (conj F3 (conj _ _)))).
  - unfold macd_hist, macd_signal, macd_line. col_length. lia.
  - intros Hne. now apply macd_first_row.
Qed.

Lemma macd_defined_everywhere_witness :
  forallb is_fin
    (float_col "MACD Hist"
       (set_columns
          (indicator_columns sqrt_floor (map close (ramp 200))
             (map low (ramp 200)) (map high (ramp 200)))
          (history_frame new_york (ramp 200)))) = true
  /\ length
       (float_col "MACD Hist"
          (set_columns
             (indicator_columns sqrt_floor (map close (ramp 200))
                (map low (ramp 200)) (map high (ramp 200)))
             (history_frame new_york (ramp 200))))
     = length (map close (ramp 200)).
Proof.
  destruct (macd_defined_everywhere sqrt_floor
              (history_frame new_york (ramp 200)) _ (map close (ramp 200))
              (indicators_history_frame sqrt_floor new_york (ramp 200))
              eq_refl)
    as (_ & _ & H3 & H4 & _).
  - vm_compute. reflexivity.
  - split; [exact H3|exact H4].
Defined.

(** X4.  When the close is the same finite number on every row, the MACD
    line, signal and histogram are 0 on every row. *)
Theorem macd_flat_is_zero qsqrt hist aug c n :
  indicators qsqrt hist = Ok aug ->
  getitem_float "Close" hist = Ok (repeat (Fin c) n) ->
  float_col "MACD Line" aug = repeat (Fin 0) n
  /\ float_col "MACD Signal" aug = repeat (Fin 0) n
  /\ float_col "MACD Hist" aug = repeat (Fin 0) n.
Proof.
  intros Hind Hc.
  destruct (indicators_float_cols _ _ _ _ Hind Hc)
    as (l & h & _ & _ & _ & _ & _ & -> & -> & -> & _).
  apply macd_const.
Qed.

Lemma macd_flat_is_zero_witness :
  float_col "MACD Hist"
    (set_columns
       (indicator_columns sqrt_floor (map close (flat 10 10 10 10 200))
          (map low (flat 10 10 10 10 200)) (map high (flat 10 10 10 10 200)))
       (history_frame new_york (flat 10 10 10 10 200)))
  = repeat (Fin 0) 200.
Proof.
  destruct (macd_flat_is_zero sqrt_floor
              (history_frame new_york (flat 10 10 10 10 200)) _ 10 200
              (indicators_history_frame sqrt_floor new_york
                 (flat 10 10 10 10 200)))
    as (_ & _ & H).
  - reflexivity.
  - exact H.
Defined.

(** X5.  In exact arithmetic: whenever [indicators] succeeds on finite
    prices, the ATR is a number that is not negative on every row from 14
    on, whatever the prices, and on row 13 too when the first bar has
    [low <= high].  (In binary64 the rolling sum of the true ranges
    overflows on prices near the largest number, and the ATR is then
    NaN.) *)
Theorem atr_not_negative qsqrt hist aug close low high i :
  indicators qsqrt hist = Ok aug ->
  getitem_float "Close" hist = Ok close ->
  getitem_float "Low" hist = Ok low ->
  getitem_float "High" hist = Ok high ->
  length close = length low -> length high = length low ->
  forallb is_fin close = true -> forallb is_fin low = true ->
  forallb is_fin high = true ->
  13 <= i -> i < length low ->
  (i = 13 -> fleb (nth 0 low NaN) (nth 0 high NaN) = true) ->
  fin_nonneg (nth i (float_col "ATR" aug) NaN).
Proof.
  intros Hind Hc Hl Hh L1 L2 F1 F2 F3 Hi Hlen H0.
  destruct (indicators_float_cols _ _ _ _ Hind Hc)
    as (l & h & Hl' & Hh' & _ & _ & _ & _ & _ & _ & _ & _ & _ & _ & _ & _
        & ->).
  apply getitem_float_values in Hl, Hh.
  rewrite Hl in Hl'. injection Hl' as <-.
  rewrite Hh in Hh'. injection Hh' as <-.
  now apply atr_nonneg.
Qed.

Lemma atr_not_negative_witness :
  fin_nonneg
    (nth 13
       (float_col "ATR"
          (set_columns
             (indicator_columns sqrt_floor (map close (ramp 200))
                (map low (ramp 200)) (map high (ramp 200)))
             (history_frame new_york (ramp 200)))) NaN).
Proof.
  apply (atr_not_negative sqrt_floor (history_frame new_york (ramp 200)) _
           (map close (ramp 200)) (map low (ramp 200))
           (map high (ramp 200)) 13).
  - apply indicators_history_frame.
  - reflexivity.
  - reflexivity.
  - reflexivity.
  - vm_compute. reflexivity.
  - vm_compute. reflexivity.
  - vm_compute. reflexivity.
  - vm_compute. reflexivity.
  - vm_compute. reflexivity.
  - lia.
  - vm_compute. lia.
  - intros _. vm_compute. reflexivity.
Defined.

(** X7.  In exact arithmetic: past its warm-up, a moving average
    (50-day, 200-day, or the 20-day middle band) is a number between any
    two bounds that hold for all the closes of its window.  (In binary64
    the rolling sum overflows on closes near the largest number, and the
    average is then NaN: see [sum_of_prices_overflows].) *)
Theorem moving_average_between qsqrt hist aug close w name i lo hi :
  indicators qsqrt hist = Ok aug ->
  getitem_float "Close" hist = Ok close ->
  In (w, name) [(50, "50D MA"); (200, "200D MA"); (20, "BB Middle")] ->
  w <= i + 1 -> i < length close ->
  forallb (fun x => fleb (Fin lo) x && fleb x (Fin hi)) (window w i close)
  = true ->
  exists m, nth i (float_col name aug) NaN = Fin m /\ (lo <= m <= hi)%Q.
Proof.
  intros Hind Hc Hin Hw Hi Hb.
  destruct (indicators_float_cols _ _ _ _ Hind Hc)
    as (l & h & _ & _ & _ & E50 & E200 & _ & _ & _ & _ & E20 & _).
  simpl in Hin.
  destruct Hin as [Hin|[Hin|[Hin|[]]]]; injection Hin as <- <-.
  - rewrite E50. apply rolling_mean_between; auto. lia.
  - rewrite E200. apply rolling_mean_between; auto. lia.
  - rewrite E20. apply rolling_mean_between; auto. lia.
Qed.

Lemma moving_average_between_witness :
  exists m,
    nth 199
        (float_col "200D MA"
           (set_columns
              (indicator_columns sqrt_floor (map close (ramp 200))
                 (map low (ramp 200)) (map high (ramp 200)))
              (history_frame new_york (ramp 200)))) NaN = Fin m
    /\ (100 <= m <= 299)%Q.
Proof.
  apply (moving_average_between sqrt_floor
           (history_frame new_york (ramp 200)) _ (map close (ramp 200))
           200 "200D MA" 199 100 299).
  - apply indicators_history_frame.
  - reflexivity.
  - simpl. tauto.
  - lia.
  - vm_compute. lia.
  - vm_compute. reflexivity.
Defined.

(** X8.  At a row where the rolling 14-bar high and low are numbers that
    differ, %K is exactly 100 when the close equals the rolling high and
    exactly 0 when it equals the rolling low (in exact arithmetic). *)
Theorem stoch_k_at_range_ends qsqrt hist aug close low high i h l :
  indicators qsqrt hist = Ok aug ->
  getitem_float "Close" hist = Ok close ->
  getitem_float "Low" hist = Ok low ->
  getitem_float "High" hist = Ok high ->
  nth i (rolling_max 14 high) NaN = Fin h ->
  nth i (rolling_min 14 low) NaN = Fin l ->
  ~ (h == l)%Q ->
  (forall c, nth i close NaN = Fin c -> (c == h)%Q ->
             nth i (float_col "Stoch %K" aug) NaN = Fin 100)
  /\ (forall c, nth i close NaN = Fin c -> (c == l)%Q ->
                nth i (float_col "Stoch %K" aug) NaN = Fin 0).
Proof.
  intros Hind Hc Hl Hh Hmax Hmin Hne.
  destruct (indicators_float_cols _ _ _ _ Hind Hc)
    as (lo & hi & Hl' & Hh' & _ & _ & _ & _ & _ & _ & _ & _ & _ & _ & -> & _).
  apply getitem_float_values in Hl, Hh.
  rewrite Hl in Hl'. injection Hl' as <-.
  rewrite Hh in Hh'. injection Hh' as <-.
  now apply stoch_k_ends.
Qed.

Lemma stoch_k_at_range_ends_witness :
  nth 13
      (float_col "Stoch %K"
         (set_columns
            (indicator_columns sqrt_floor (map close (climb 200))
               (map low (climb 200)) (map high (climb 200)))
            (history_frame new_york (climb 200)))) NaN
  = Fin 100.
Proof.
  destruct (stoch_k_at_range_ends sqrt_floor
              (history_frame new_york (climb 200)) _
              (map close (climb 200)) (map low (climb 200))
              (map high (climb 200)) 13 113%Q 99%Q
              (indicators_history_frame sqrt_floor new_york (climb 200))
              eq_refl eq_refl eq_refl)
    as [H _].
  - vm_compute. reflexivity.
  - vm_compute. reflexivity.
  - intros E. vm_compute in E. discriminate.
  - apply (H 113%Q); [vm_compute|]; reflexivity.
Defined.

(** ** The groups of the batch loop *)

Lemma batches_cover_prefix bs (l : list string) k :
  concat (map (fun i => slice i (i + bs) l)
              (map (fun j => j * bs) (seq 0 k)))
  = firstn (k * bs) l.
Proof.
  induction k as [|k IH]; [reflexivity|].
  rewrite seq_S, !map_app, concat_app, IH. simpl.
  rewrite slice_chunk, app_nil_r.
  replace (bs + k * bs) with (k * bs + bs) by lia.
  now rewrite firstn_add.
Qed.

(** X9.  For a positive [batch_size], the groups of the loop are the
    ticker list cut in order into pieces: put back together they give the
    list, none is empty or longer than [batch_size], all but the last have
    exactly [batch_size] tickers, and for a list that is not empty their
    number is the total that the banner line prints. *)
Theorem batches_partition bs tickers :
  0 < bs ->
  concat (batches bs tickers) = tickers
  /\ length (batches bs tickers) = (length tickers + bs - 1) / bs
  /\ Forall (fun b => 1 <= length b <= bs) (batches bs tickers)
  /\ (forall k, S k < length (batches bs tickers) ->
        length (nth k (batches bs tickers) []) = bs)
  /\ (tickers <> [] ->
      (length tickers - 1) / bs + 1 = length (batches bs tickers)).
Proof.
  intros Hbs. unfold batches, range_step.
  set (n := (length tickers + bs - 1) / bs).
  assert (Hn : forall k, k < n -> k * bs < length tickers).
  { intros k Hk. unfold n in Hk.
    pose proof (Nat.div_mod_eq (length tickers + bs - 1) bs) as E.
    pose proof (Nat.mod_upper_bound (length tickers + bs - 1) bs
                  ltac:(lia)) as U.
    nia. }
  assert (Hfull : forall k, S k < n -> k * bs + bs <= length tickers).
  { intros k Hk. specialize (Hn (S k) Hk). simpl in Hn. lia. }
  refine (conj _ (conj _ (conj _ (conj _ _)))).
  - rewrite batches_cover_prefix.
    apply firstn_all2. now apply chunks_cover.
  - now rewrite !length_map, length_seq.
  - apply Forall_forall. intros b Hb.
    apply in_map_iff in Hb. destruct Hb as [i [<- Hi]].
    apply in_map_iff in Hi. destruct Hi as [k [<- Hk]].
    apply in_seq in Hk. specialize (Hn k ltac:(lia)).
    rewrite slice_chunk, length_firstn, length_skipn. lia.
  - intros k Hk. rewrite !length_map, length_seq in Hk.
    rewrite map_map.
    rewrite (nth_indep _ [] ((fun j => slice (j * bs) (j * bs + bs) tickers) 0))
      by (rewrite length_map, length_seq; lia).
    rewrite (map_nth (fun j => slice (j * bs) (j * bs + bs) tickers)).
    rewrite seq_nth by lia. simpl.
    specialize (Hfull k Hk).
    rewrite slice_chunk, length_firstn, length_skipn. lia.
  - intros Hne. rewrite !length_map, length_seq. fold n. unfold n.
    destruct tickers as [|t tickers]; [congruence|]. cbn [length].
    replace (S (length tickers) + bs - 1) with (length tickers + 1 * bs)
      by lia.
    replace (S (length tickers) - 1) with (length tickers) by lia.
    rewrite Nat.div_add by lia. reflexivity.
Qed.

Lemma batches_partition_witness :
  concat (batches 50 sample_tickers) = sample_tickers
  /\ length (batches 50 sample_tickers) = 3
  /\ Forall (fun b => 1 <= length b <= 50) (batches 50 sample_tickers).
Proof.
  destruct (batches_partition 50 sample_tickers (Nat.lt_0_succ 49))
    as (H1 & H2 & H3 & _).
  split; [exact H1|]. split; [exact H2|exact H3].
Defined.

(** ** The keys of the result *)

Lemma dict_set_NoDup {V : Type} k (v : V) d :
  NoDup (map fst d) -> NoDup (map fst (dict_set k v d)).
Proof.
  intros H. rewrite dict_set_keys.
  destruct (existsb (String.eqb k) (map fst d)) eqn:E; [exact H|].
  apply NoDup_app; [exact H|repeat constructor; simpl; tauto|].
  intros x Hx [<-|[]].
  assert (existsb (String.eqb k) (map fst d) = true).
  { apply existsb_exists. exists k. split; [exact Hx|apply String.eqb_refl]. }
  congruence.
Qed.

Lemma dict_set_length {V : Type} k (v : V) d :
  length (dict_set k v d)
  = if existsb (String.eqb k) (map fst d) then length d else S (length d).
Proof.
  rewrite <- !(length_map fst), dict_set_keys.
  destruct (existsb (String.eqb k) (map fst d)); [reflexivity|].
  rewrite length_app. simpl. lia.
Qed.

Lemma dict_set_key_in {V : Type} k (v : V) d x :
  In x (map fst (dict_set k v d)) -> x = k \/ In x (map fst d).
Proof.
  rewrite dict_set_keys.
  destruct (existsb (String.eqb k) (map fst d)); [now right|].
  intros H. apply in_app_or in H. destruct H as [H|[<-|[]]]; auto.
Qed.

Section KeyInvariant.

Variable qsqrt : Q -> Q.
Variable yf_Tickers : string -> list (string * Ticker).

(** An invariant that [handle] keeps on the tickers of the list holds of
    the result. *)
Lemma run_invariant_in (I : list (string * DataFrame) -> Prop) bs tickers :
  (forall symbols st t, In t tickers ->
      I (fst st) -> I (fst (handle qsqrt (yf_Tickers symbols) st t))) ->
  I [] -> I (fst (fetch_stock_data_run qsqrt yf_Tickers bs tickers)).
Proof.
  intros Hstep H0. unfold fetch_stock_data_run.
  assert (Hin : forall symbols batch st,
             incl batch tickers -> I (fst st) ->
             I (fst (fold_left (handle qsqrt (yf_Tickers symbols))
                               batch st))).
  { intros symbols batch. induction batch as [|t batch IH];
      intros st Hb Hst; [exact Hst|].
    simpl. apply IH; [intros x Hx; apply Hb; now right|].
    apply Hstep; [apply Hb; now left|exact Hst]. }
  assert (Hout : forall starts st,
             I (fst st) ->
             I (fst (fold_left (run_batch qsqrt yf_Tickers bs tickers)
                               starts st))).
  { induction starts as [|i starts IH]; intros st Hst; [exact Hst|].
    simpl. apply IH. unfold run_batch. apply Hin; [|exact Hst].
    intros x Hx. unfold slice in Hx.
    apply (In_nth _ _ x) in Hx. destruct Hx as [k [Hk <-]].
    rewrite nth_firstn in *. destruct (k <? i + bs - i) eqn:E.
    - rewrite nth_skipn. apply nth_In.
      rewrite length_firstn, length_skipn in Hk. lia.
    - rewrite length_firstn in Hk. apply Nat.ltb_ge in E. lia. }
  now apply Hout.
Qed.

(** X10.  Whatever the provider returns and whatever the group size, the
    keys of the result are identifiers of the list, each at most once; so
    the result has at most as many entries as the list has identifiers. *)
Theorem result_keys bs tickers :
  let all_data := fst (fetch_stock_data_run qsqrt yf_Tickers bs tickers) in
  NoDup (map fst all_data)
  /\ incl (map fst all_data) tickers
  /\ length all_data <= length tickers.
Proof.
  cbv zeta.
  assert (H : NoDup (map fst (fst (fetch_stock_data_run qsqrt yf_Tickers bs
                                     tickers)))
              /\ incl (map fst (fst (fetch_stock_data_run qsqrt yf_Tickers bs
                                       tickers))) tickers).
  { apply (run_invariant_in
             (fun d => NoDup (map fst d) /\ incl (map fst d) tickers)).
    - intros symbols [d out] t Ht [Hn Hi]. unfold handle.
      destruct (process qsqrt (yf_Tickers symbols) t) as [[w|]|e];
        cbn [fst]; try (split; assumption).
      split; [now apply dict_set_NoDup|].
      intros x Hx. apply dict_set_key_in in Hx.
      destruct Hx as [->|Hx]; auto.
    - split; [constructor|intros x []]. }
  destruct H as [Hn Hi]. refine (conj Hn (conj Hi _)).
  rewrite <- (length_map fst). now apply NoDup_incl_length.
Qed.

(** ** The windows of the result *)

Lemma naive_dates_len df : len (naive_dates df) = len df.
Proof.
  unfold naive_dates.
  destruct (lookup "Date" (columns df)) as [[| | |[z|] v]|]; reflexivity.
Qed.

Lemma dict_set_not_nil {V : Type} k (v : V) d : dict_set k v d <> [].
Proof.
  destruct d as [|[k' v'] d]; simpl; [discriminate|].
  destruct (String.eqb k k'); discriminate.
Qed.

Lemma naive_dates_columns df :
  columns df <> [] -> columns (naive_dates df) <> [].
Proof.
  intros H. unfold naive_dates.
  destruct (lookup "Date" (columns df)) as [[| | |[z|] v]|]; try exact H.
  apply dict_set_not_nil.
Qed.

Lemma reset_index_rows df r :
  reset_index df = Ok r -> len r = len df /\ columns r <> [].
Proof.
  unfold reset_index.
  destruct (lookup (index_label df) (columns df)); [discriminate|].
  intros H. injection H as <-. split; [|discriminate].
  unfold len at 1. cbn [index idx_vals].
  now rewrite length_map, length_seq.
Qed.

(** Whatever frame the provider returned, a window that [process] records
    has exactly five rows and at least one column: it is never [empty]. *)
Lemma process_window_rows data t w :
  process qsqrt data t = Ok (Window w) ->
  len w = 5 /\ empty w = false.
Proof.
  unfold process. intros H.
  destruct (dict_getitem t data) as [stock|e]; [|discriminate].
  cbn [bind] in H.
  destruct (ticker_info stock) as [info|e]; [|discriminate].
  cbn [bind] in H.
  destruct (ticker_history stock) as [hist|e]; [|discriminate].
  cbn [bind] in H.
  destruct (200 <=? len hist) eqn:Hlen; [|discriminate].
  apply Nat.leb_le in Hlen.
  destruct (indicators qsqrt hist) as [aug|e] eqn:Hi; [|discriminate].
  cbn [bind] in H.
  destruct (indicators_inv _ _ _ Hi) as (c & l & h & _ & _ & _ & Ha).
  assert (Hlen' : len aug = len hist)
    by (subst aug; apply len_set_columns).
  match type of H with
  | context [reset_index ?d] =>
      destruct (reset_index d) as [r|e] eqn:Hr; [|discriminate]
  end.
  cbn [bind] in H. injection H as <-.
  apply reset_index_rows in Hr. destruct Hr as [L C].
  assert (L5 : len (naive_dates r) = 5).
  { rewrite naive_dates_len, L, len_tail.
    unfold setitem_scalar. rewrite !len_setitem. lia. }
  split; [exact L5|].
  unfold empty. rewrite L5. cbn [Nat.eqb orb].
  apply Nat.eqb_neq. intros E. apply length_zero_iff_nil in E.
  revert E. now apply naive_dates_columns.
Qed.

(** Storing a frame keeps a property that it has and that the frames
    already stored have. *)
Lemma dict_set_Forall {V : Type} (Q : string * V -> Prop) k v d :
  (forall k', Q (k', v)) -> Forall Q d -> Forall Q (dict_set k v d).
Proof.
  intros Hv Hd. induction d as [|[k' v'] d IH]; simpl.
  - constructor; [apply Hv|constructor].
  - inversion Hd; subst. destruct (String.eqb k k').
    + constructor; [apply Hv|assumption].
    + constructor; [assumption|now apply IH].
Qed.

Lemma handle_windows data st t :
  Forall (fun kv => len (snd kv) = 5 /\ empty (snd kv) = false) (fst st) ->
  Forall (fun kv => len (snd kv) = 5 /\ empty (snd kv) = false)
         (fst (handle qsqrt data st t)).
Proof.
  destruct st as [d out]. intros Hd. unfold handle.
  destruct (process qsqrt data t) as [[w|]|e] eqn:E;
    cbn [fst] in *; try exact Hd.
  apply process_window_rows in E.
  apply dict_set_Forall; [intros k'; exact E|exact Hd].
Qed.

(** X11.  Whatever the provider returns and whatever the group size,
    every frame of the result has exactly five rows and is not [empty]:
    an identifier is in the result only with a full window. *)
Theorem result_windows bs tickers :
  forall ticker recent_hist,
    lookup ticker (fst (fetch_stock_data_run qsqrt yf_Tickers bs tickers))
    = Some recent_hist ->
    len recent_hist = 5 /\ empty recent_hist = false.
Proof.
  assert (H : Forall (fun kv => len (snd kv) = 5 /\ empty (snd kv) = false)
                     (fst (fetch_stock_data_run qsqrt yf_Tickers bs
                             tickers))).
  { apply (run_invariant qsqrt yf_Tickers
             (Forall (fun kv => len (snd kv) = 5
                                /\ empty (snd kv) = false)));
      [|constructor].
    intros symbols st t Hst. now apply handle_windows. }
  intros ticker recent_hist.
  induction H as [|[k v] d Hkv _ IH]; simpl; [discriminate|].
  destruct (String.eqb ticker k).
  - intros E. injection E as <-. exact Hkv.
  - exact IH.
Qed.

End KeyInvariant.

Lemma result_windows_witness :
  exists w,
    lookup "A" (fst (fetch_stock_data_run sqrt_floor sample_provider 50
                       ["A"; "B"]))
    = Some w
    /\ len w = 5 /\ empty w = false.
Proof.
  assert (Hl : lookup "A"
                 (fst (fetch_stock_data_run sqrt_floor sample_provider 50
                         ["A"; "B"]))
               = Some (report_window sqrt_floor "A"
                         [("sector", "Technology")] new_york
                         (flat 10 10 10 10 200))).
  { rewrite (fetch_stock_data_run_fst sqrt_floor sample_provider
               (process sqrt_floor (sample_provider ""))
               (fun _ _ _ => eq_refl) 50 ["A"; "B"] (Nat.lt_0_succ 49)).
    apply lookup_record_in; [|now left].
    apply (process_history_frame sqrt_floor _ "A" listed
             [("sector", "Technology")] new_york (flat 10 10 10 10 200));
      reflexivity. }
  exists (report_window sqrt_floor "A" [("sector", "Technology")] new_york
                        (flat 10 10 10 10 200)).
  split; [exact Hl|].
  exact (result_windows sqrt_floor sample_provider 50 ["A"; "B"] "A" _ Hl).
Defined.

(** ** The sheets of the report *)

Lemma substring_length m s :
  String.length (String.substring 0 m s) = Nat.min m (String.length s).
Proof.
  revert s; induction m as [|m IH]; intros [|c s]; simpl; auto.
Qed.

Lemma substring_short m s :
  String.length s <= m -> String.substring 0 m s = s.
Proof.
  revert s; induction m as [|m IH]; intros [|c s]; simpl; auto;
    intros H; [lia|]. f_equal. apply IH. lia.
Qed.

Lemma nonempty_items_all d :
  Forall (fun kv : string * DataFrame => empty (snd kv) = false) d ->
  nonempty_items d = d.
Proof.
  unfold nonempty_items. induction 1 as [|kv d H _ IH]; simpl;
    [reflexivity|].
  now rewrite H, IH.
Qed.

Lemma len_tail_1 w : 1 <= len w -> len (tail 1 w) = 1.
Proof. intros H. rewrite len_tail. lia. Qed.

Lemma NoDup_map_inj_on {A B : Type} (f : A -> B) l :
  NoDup (map f l) ->
  forall x y, In x l -> In y l -> f x = f y -> x = y.
Proof.
  induction l as [|a l IH]; intros Hn x y Hx Hy E; [destruct Hx|].
  simpl in Hn. inversion Hn as [|? ? Ha Hn']; subst.
  destruct Hx as [<-|Hx], Hy as [<-|Hy]; auto.
  - exfalso. apply Ha. rewrite E. now apply in_map.
  - exfalso. apply Ha. rewrite <- E. now apply in_map.
Qed.

Lemma NoDup_map_incl {A B : Type} (f : A -> B) k l :
  NoDup (map f l) -> NoDup k -> incl k l -> NoDup (map f k).
Proof.
  intros Hl Hk Hi. induction Hk as [|x k Hx Hk IH]; [constructor|].
  simpl. constructor.
  - intros Hin. apply in_map_iff in Hin. destruct Hin as [y [E Hy]].
    apply Hx.
    rewrite <- (NoDup_map_inj_on f l Hl y x); auto.
    + apply Hi. now right.
    + apply Hi. now left.
  - apply IH. intros y Hy. apply Hi. now right.
Qed.

Lemma plain_name_substring n m s :
  plain_name s = true -> plain_name (String.substring n m s) = true.
Proof.
  unfold plain_name. revert n m.
  induction s as [|c s IH]; intros [|n] [|m] H; simpl in *; auto.
  - apply andb_prop in H. destruct H as [Hc H].
    rewrite Hc. simpl. now apply IH.
  - apply andb_prop in H. destruct H as [_ H]. now apply IH.
  - apply andb_prop in H. destruct H as [_ H]. now apply IH.
Qed.

Section Report.

Variable qsqrt : Q -> Q.
Variable yf_Tickers : string -> list (string * Ticker).

Lemma run_keys bs tickers :
  NoDup (map fst (fst (fetch_stock_data_run qsqrt yf_Tickers bs tickers)))
  /\ incl (map fst (fst (fetch_stock_data_run qsqrt yf_Tickers bs tickers)))
          tickers.
Proof.
  apply (run_invariant_in qsqrt yf_Tickers
           (fun d => NoDup (map fst d) /\ incl (map fst d) tickers)).
  - intros symbols [d out] t Ht [Hn Hi]. unfold handle.
    destruct (process qsqrt (yf_Tickers symbols) t) as [[w|]|e];
      cbn [fst]; try (split; assumption).
    split; [now apply dict_set_NoDup|].
    intros x Hx. apply dict_set_key_in in Hx.
    destruct Hx as [->|Hx]; auto.
  - split; [constructor|intros x []].
Qed.

(** X12.  The [to_excel] calls of the script, for tickers that are plain
    ASCII names without a character that the writer refuses, whose first
    31 characters differ from one another and from [Summary] even when
    case is ignored.  The [empty] test drops no frame of the result of
    [fetch_stock_data].  When the result holds a frame, the first call
    writes the summary, one single-row frame per entry in the order of
    the result, and one call per entry follows with its five rows, under
    the first 31 characters of the ticker.  Every name asked for has at
    most 31 characters and none that the writer refuses, and no two calls
    ask for the same name, even when case is ignored: no call writes into
    the sheet of another. *)
Theorem report_layout tickers :
  NoDup (map lower ("Summary" :: map (String.substring 0 31) tickers)) ->
  Forall (fun t => plain_name t = true) tickers ->
  let ticker_data := fetch_stock_data qsqrt yf_Tickers tickers in
  let calls := report_sheets ticker_data in
  nonempty_items ticker_data = ticker_data
  /\ (ticker_data <> [] ->
      calls
      = Summary (map (fun kv => tail 1 (snd kv)) ticker_data)
          :: map (fun kv => Sheet (String.substring 0 31 (fst kv)) (snd kv))
                 ticker_data)
  /\ Forall (fun kv => len (tail 1 (snd kv)) = 1 /\ len (snd kv) = 5)
            ticker_data
  /\ Forall (fun s => String.length (sheet_title s) <= 31
                      /\ plain_name (sheet_title s) = true) calls
  /\ NoDup (map (fun s => lower (sheet_title s)) calls).
Proof.
  intros Hdistinct Hplain. cbv zeta. unfold fetch_stock_data.
  assert (HW : Forall (fun kv => len (snd kv) = 5
                                /\ empty (snd kv) = false)
                      (fst (fetch_stock_data_run qsqrt yf_Tickers 50
                              tickers))).
  { apply (run_invariant qsqrt yf_Tickers
             (Forall (fun kv => len (snd kv) = 5
                                /\ empty (snd kv) = false)));
      [|constructor].
    intros symbols st t Hst. now apply handle_windows. }
  destruct (run_keys 50 tickers) as [Hn Hi].
  set (d := fst (fetch_stock_data_run qsqrt yf_Tickers 50 tickers)) in *.
  assert (HE : nonempty_items d = d).
  { apply nonempty_items_all. eapply Forall_impl; [|exact HW].
    intros kv [_ H]. exact H. }
  assert (HR : report_sheets d
               = match d with
                 | [] => []
                 | _ :: _ => [Summary (map (fun kv => tail 1 (snd kv)) d)]
                 end
                 ++ map (fun kv => Sheet (String.substring 0 31 (fst kv))
                                         (snd kv)) d).
  { unfold report_sheets. rewrite HE. now destruct d. }
  assert (HT : map (fun s => lower (sheet_title s))
                   (map (fun kv => Sheet (String.substring 0 31 (fst kv))
                                         (snd kv)) d)
               = map (fun t => lower (String.substring 0 31 t))
                     (map fst d)).
  { rewrite !map_map. reflexivity. }
  simpl in Hdistinct. rewrite map_map in Hdistinct.
  inversion Hdistinct as [|? ? Hsum Hnames]; subst.
  assert (HK : NoDup (map (fun t => lower (String.substring 0 31 t))
                          (map fst d)))
    by (eapply NoDup_map_incl; eauto).
  refine (conj HE (conj _ (conj _ (conj _ _)))).
  - intros Hne. rewrite HR. destruct d; [congruence|reflexivity].
  - eapply Forall_impl; [|exact HW]. intros kv [H5 _]. split; [|exact H5].
    apply len_tail_1. lia.
  - rewrite HR. apply Forall_app. split.
    + destruct d; [constructor|].
      constructor; [split; [simpl; lia|reflexivity]|constructor].
    + apply Forall_forall. intros s Hs. apply in_map_iff in Hs.
      destruct Hs as [kv [<- Hkv]]. simpl. split.
      * rewrite substring_length. lia.
      * apply plain_name_substring.
        rewrite Forall_forall in Hplain. apply Hplain, Hi.
        now apply in_map.
  - rewrite HR, map_app, HT.
    assert (Hs : ~ In (lower "Summary")
                      (map (fun t => lower (String.substring 0 31 t))
                           (map fst d))).
    { intros Hin. apply Hsum.
      apply in_map_iff in Hin. destruct Hin as [t [E Ht]].
      apply in_map_iff. exists t. split; [exact E|]. now apply Hi. }
    set (names := map (fun t => lower (String.substring 0 31 t))
                      (map fst d)) in *.
    clearbody names. destruct d as [|kv d']; [exact HK|].
    cbn [map app sheet_title]. constructor; assumption.
Qed.

End Report.

Lemma report_layout_witness :
  NoDup (map (fun s => lower (sheet_title s))
             (report_sheets
                (fetch_stock_data sqrt_floor sample_provider
                                  ["A"; "B"; "C"; "NEW"])))
  /\ nonempty_items (fetch_stock_data sqrt_floor sample_provider
                                      ["A"; "B"; "C"; "NEW"])
     = fetch_stock_data sqrt_floor sample_provider ["A"; "B"; "C"; "NEW"].
Proof.
  destruct (report_layout sqrt_floor sample_provider ["A"; "B"; "C"; "NEW"])
    as (H1 & _ & _ & _ & H5).
  - vm_compute.
    repeat (apply NoDup_cons; [simpl; intuition discriminate|]).
    apply NoDup_nil.
  - repeat (apply Forall_cons; [reflexivity|]). apply Forall_nil.
  - split; [exact H5|exact H1].
Defined.

(** ** The columns of the window *)

Lemma lastn_repeat {A : Type} (v : A) n m :
  n <= m -> lastn n (repeat v m) = repeat v n.
Proof.
  intros H. unfold lastn. rewrite repeat_length.
  replace m with ((m - n) + n) at 2 by lia.
  rewrite repeat_app, skipn_app, repeat_length.
  rewrite skipn_all2 by (rewrite repeat_length; lia).
  now replace (m - n - (m - n)) with 0 by lia.
Qed.

Section WindowColumns.

Variable qsqrt : Q -> Q.

(** The window of a price series of at least 200 bars: its columns in
    order, the last five values of every indicator column of the augmented
    frame, and on every row the ticker and the [sector] and [industry]
    entries of [info] ([None] when [info] has no such key). *)
Lemma report_window_layout ticker info tz bars :
  200 <= length bars ->
  let aug :=
    set_columns
      (indicator_columns qsqrt (map close bars) (map low bars)
                         (map high bars))
      (history_frame tz bars) in
  let w := report_window qsqrt ticker info tz bars in
  map fst (columns w)
  = ["Date"; "Open"; "High"; "Low"; "Close"; "Volume"]
      ++ indicator_names ++ ["Ticker"; "Sector"; "Industry"]
  /\ (forall name, In name indicator_names ->
        lookup name (columns w)
        = Some (FloatS (lastn 5 (float_col name aug))))
  /\ lookup "Ticker" (columns w) = Some (ObjS (repeat (Some ticker) 5))
  /\ lookup "Sector" (columns w)
     = Some (ObjS (repeat (lookup "sector" info) 5))
  /\ lookup "Industry" (columns w)
     = Some (ObjS (repeat (lookup "industry" info) 5)).
Proof.
  intros Hlen. cbv zeta.
  assert (Hn : len (history_frame tz bars) = length bars)
    by (unfold len; simpl; apply length_map).
  assert (Hrep : forall v : option string,
             lastn 5 (repeat v (length bars)) = repeat v 5)
    by (intros v; apply lastn_repeat; lia).
  assert (Hcols : forall name,
     String.eqb name "Date" = false ->
     lookup name (columns (report_window qsqrt ticker info tz bars))
     = lookup name
         (columns
            (tail 5
               (setitem_scalar "Industry" (lookup "industry" info)
                  (setitem_scalar "Sector" (lookup "sector" info)
                     (setitem_scalar "Ticker" (Some ticker)
                        (set_columns
                           (indicator_columns qsqrt (map close bars)
                              (map low bars) (map high bars))
                           (history_frame tz bars)))))))).
  { intros name Hd. unfold report_window, naive_dates.
    cbn [columns lookup]. string_eqb.
    destruct tz as [z|].
    - rewrite lookup_setitem, Hd. cbn [columns lookup]. now rewrite Hd.
    - cbn [columns lookup]. now rewrite Hd. }
  refine (conj _ (conj _ (conj _ (conj _ _)))).
  - unfold report_window, naive_dates. cbn [columns lookup]. string_eqb.
    destruct tz as [z|]; reflexivity.
  - intros name Hin. rewrite Hcols
      by (unfold indicator_names in Hin; simpl in Hin;
          repeat (destruct Hin as [<-|Hin]; [reflexivity|]); destruct Hin).
    rewrite lookup_tail. unfold setitem_scalar. rewrite !lookup_setitem.
    unfold indicator_names in Hin. simpl in Hin.
    repeat (destruct Hin as [<-|Hin]; [
      string_eqb; unfold float_col;
      unfold set_columns, indicator_columns; cbn [fold_left fst snd];
      rewrite !lookup_setitem; string_eqb; reflexivity |]).
    destruct Hin.
  - rewrite Hcols by reflexivity. rewrite lookup_tail.
    unfold setitem_scalar. rewrite !lookup_setitem. string_eqb.
    cbn [option_map tail_series]. rewrite ?len_setitem, len_set_columns, Hn.
    now rewrite Hrep.
  - rewrite Hcols by reflexivity. rewrite lookup_tail.
    unfold setitem_scalar. rewrite !lookup_setitem. string_eqb.
    cbn [option_map tail_series]. rewrite ?len_setitem, len_set_columns, Hn.
    now rewrite Hrep.
  - rewrite Hcols by reflexivity. rewrite lookup_tail.
    unfold setitem_scalar. rewrite !lookup_setitem. string_eqb.
    cbn [option_map tail_series]. rewrite ?len_setitem, len_set_columns, Hn.
    now rewrite Hrep.
Qed.

(** X13.  For a price series of at least 200 bars, the recorded window
    has the index as its first column [Date], then the five price columns,
    the twelve indicator columns in the order the code assigns them, and
    [Ticker], [Sector], [Industry]; every indicator column holds the last
    five values of that column of the augmented frame, and the last three
    hold on every row the ticker and the [sector] and [industry] entries
    of [info] ([None] when [info] has no such key). *)
Theorem recorded_window_layout data ticker stock info tz bars :
  lookup ticker data = Some stock ->
  ticker_info stock = Ok info ->
  ticker_history stock = Ok (history_frame tz bars) ->
  200 <= length bars ->
  exists aug w,
    indicators qsqrt (history_frame tz bars) = Ok aug
    /\ process qsqrt data ticker = Ok (Window w)
    /\ map fst (columns w)
       = ["Date"; "Open"; "High"; "Low"; "Close"; "Volume";
          "50D MA"; "200D MA"; "MACD Line"; "MACD Signal"; "MACD Hist";
          "RSI"; "BB Middle"; "BB Upper"; "BB Lower"; "Stoch %K";
          "Stoch %D"; "ATR"; "Ticker"; "Sector"; "Industry"]
    /\ (forall name, In name indicator_names ->
          lookup name (columns w)
          = Some (FloatS (lastn 5 (float_col name aug))))
    /\ lookup "Ticker" (columns w) = Some (ObjS (repeat (Some ticker) 5))
    /\ lookup "Sector" (columns w)
       = Some (ObjS (repeat (lookup "sector" info) 5))
    /\ lookup "Industry" (columns w)
       = Some (ObjS (repeat (lookup "industry" info) 5)).
Proof.
  intros Hs Hi Hh Hlen.
  exists (set_columns
            (indicator_columns qsqrt (map close bars) (map low bars)
                               (map high bars))
            (history_frame tz bars)).
  exists (report_window qsqrt ticker info tz bars).
  destruct (report_window_layout ticker info tz bars Hlen)
    as (W1 & W2 & W3 & W4 & W5).
  split; [apply indicators_history_frame|].
  split; [now apply (process_history_frame qsqrt data ticker stock)|].
  split; [exact W1|]. split; [exact W2|]. split; [exact W3|].
  split; [exact W4|exact W5].
Qed.

End WindowColumns.

Lemma recorded_window_layout_witness :
  exists w,
    process sqrt_floor (sample_provider "") "A" = Ok (Window w)
    /\ lookup "Ticker" (columns w) = Some (ObjS (repeat (Some "A") 5))
    /\ lookup "Sector" (columns w)
       = Some (ObjS (repeat (Some "Technology") 5))
    /\ lookup "Industry" (columns w) = Some (ObjS (repeat None 5)).
Proof.
  destruct (recorded_window_layout sqrt_floor (sample_provider "") "A"
              listed [("sector", "Technology")] new_york
              (flat 10 10 10 10 200) eq_refl eq_refl eq_refl)
    as (aug & w & _ & Hp & _ & _ & Ht & Hs & Hi).
  - vm_compute. lia.
  - exists w. split; [exact Hp|]. split; [exact Ht|].
    split; [exact Hs|exact Hi].
Defined.

(** ** Errors of the [try] block *)

Lemma getitem_values_missing name df :
  lookup name (columns df) = None ->
  getitem_values name df = Raise (KeyError name).
Proof.
  intros H. unfold getitem_values, getitem, dict_getitem. now rewrite H.
Qed.

Section TryErrors.

Variable qsqrt : Q -> Q.

(** [indicators] reads [Close] first, then [Low], then [High]: it raises
    [KeyError] for the first of them that the frame lacks. *)
Lemma indicators_missing hist :
  (lookup "Close" (columns hist) = None ->
   indicators qsqrt hist = Raise (KeyError "Close"))
  /\ (forall close,
        getitem_float "Close" hist = Ok close ->
        lookup "Low" (columns hist) = None ->
        indicators qsqrt hist = Raise (KeyError "Low"))
  /\ (forall close low,
        getitem_float "Close" hist = Ok close ->
        getitem_float "Low" hist = Ok low ->
        lookup "High" (columns hist) = None ->
        indicators qsqrt hist = Raise (KeyError "High")).
Proof.
  refine (conj _ (conj _ _)).
  - intros H. apply indicators_raise_close.
    now apply getitem_values_missing.
  - intros close Hc Hl. apply getitem_values_missing in Hl.
    pose proof (getitem_float_values _ _ _ Hc) as Hv.
    unfold indicators.
    repeat (rewrite ?getitem_float_setitem, ?getitem_values_setitem;
            string_eqb;
            rewrite ?Hc, ?Hv, ?Hl; cbn [bind as_float as_values]).
    reflexivity.
  - intros close low Hc Hl Hh. apply getitem_values_missing in Hh.
    pose proof (getitem_float_values _ _ _ Hc) as Hv.
    apply getitem_float_values in Hl.
    unfold indicators.
    repeat (rewrite ?getitem_float_setitem, ?getitem_values_setitem;
            string_eqb;
            rewrite ?Hc, ?Hv, ?Hl, ?Hh; cbn [bind as_float as_values]).
    reflexivity.
Qed.

(** The errors of one identifier, in the order the [try] block meets
    them: a ticker the provider does not hold, a failing [info], a failing
    [history], and with at least 200 rows a missing price column or an
    index name that is already a column.  Each leaves [all_data] as it was
    and prints one line. *)
Lemma process_errors data ticker :
  (lookup ticker data = None ->
   process qsqrt data ticker = Raise (KeyError ticker))
  /\ (forall stock e,
        lookup ticker data = Some stock -> ticker_info stock = Raise e ->
        process qsqrt data ticker = Raise e)
  /\ (forall stock info e,
        lookup ticker data = Some stock -> ticker_info stock = Ok info ->
        ticker_history stock = Raise e ->
        process qsqrt data ticker = Raise e)
  /\ (forall stock info hist e,
        lookup ticker data = Some stock -> ticker_info stock = Ok info ->
        ticker_history stock = Ok hist -> 200 <= len hist ->
        indicators qsqrt hist = Raise e ->
        process qsqrt data ticker = Raise e)
  /\ (forall e all_data out,
        process qsqrt data ticker = Raise e ->
        handle qsqrt data (all_data, out) ticker
        = (all_data,
           out ++ [String.concat ""
                     ["Error processing "; ticker; ": "; exn_str e]])).
Proof.
  unfold process, dict_getitem.
  refine (conj _ (conj _ (conj _ (conj _ _)))).
  - intros H. now rewrite H.
  - intros stock e Hs Hi. rewrite Hs. cbn [bind]. now rewrite Hi.
  - intros stock info e Hs Hi Hh. rewrite Hs. cbn [bind].
    rewrite Hi. cbn [bind]. now rewrite Hh.
  - intros stock info hist e Hs Hi Hh Hlen He. rewrite Hs. cbn [bind].
    rewrite Hi. cbn [bind]. rewrite Hh. cbn [bind].
    apply Nat.leb_le in Hlen. rewrite Hlen. now rewrite He.
  - intros e all_data out H. unfold handle.
    fold (dict_getitem ticker data) in H.
    change (process qsqrt data ticker = Raise e) in H. now rewrite H.
Qed.

(** X14.  When the provider returns at least 200 rows but the frame
    lacks a price column that the indicators read, the [try] block raises
    [KeyError] for the first missing one in the order the code reads them
    ([Close], then [Low], then [High]); the loop then leaves [all_data] as
    it was and prints one line, the ticker followed by the quoted column
    name. *)
Theorem missing_price_column data ticker stock info hist all_data out name :
  lookup ticker data = Some stock ->
  ticker_info stock = Ok info ->
  ticker_history stock = Ok hist ->
  200 <= len hist ->
  (name = "Close" /\ lookup "Close" (columns hist) = None)
  \/ (name = "Low"
      /\ (exists close, getitem_float "Close" hist = Ok close)
      /\ lookup "Low" (columns hist) = None)
  \/ (name = "High"
      /\ (exists close, getitem_float "Close" hist = Ok close)
      /\ (exists low, getitem_float "Low" hist = Ok low)
      /\ lookup "High" (columns hist) = None) ->
  process qsqrt data ticker = Raise (KeyError name)
  /\ handle qsqrt data (all_data, out) ticker
     = (all_data,
        out ++ [String.concat ""
                  ["Error processing "; ticker; ": '"; name; "'"]]).
Proof.
  intros Hs Hi Hh Hlen Hmiss.
  destruct (indicators_missing hist) as (M1 & M2 & M3).
  destruct (process_errors data ticker) as (_ & _ & _ & P4 & P5).
  assert (E : indicators qsqrt hist = Raise (KeyError name)).
  { destruct Hmiss as [[-> H]|[(-> & [c Hc] & H)|(-> & [c Hc] & [l Hl] & H)]].
    - now apply M1.
    - now apply (M2 c).
    - now apply (M3 c l). }
  assert (EP : process qsqrt data ticker = Raise (KeyError name))
    by now apply (P4 stock info hist).
  split; [exact EP|]. rewrite (P5 _ all_data out EP).
  reflexivity.
Qed.

End TryErrors.

Lemma missing_price_column_witness :
  handle sqrt_floor
         [("X", mkTicker (Ok [])
                  (Ok (without_column "Low"
                         (history_frame new_york (ramp 200)))))]
         ([], []) "X"
  = ([], ["Error processing X: 'Low'"]).
Proof.
  refine (proj2
            (missing_price_column sqrt_floor
               [("X", mkTicker (Ok [])
                        (Ok (without_column "Low"
                               (history_frame new_york (ramp 200)))))]
               "X" _ [] _ [] [] "Low" eq_refl eq_refl eq_refl _ _)).
  - vm_compute. lia.
  - right. left. split; [reflexivity|]. split; [|reflexivity].
    exists (map close (ramp 200)). reflexivity.
Defined.

(** ** Counting what a run prints and records *)

Lemma filter_split_length {A : Type} (f : A -> bool) l :
  length (filter f l) + length (filter (fun x => negb (f x)) l) = length l.
Proof.
  induction l as [|x l IH]; [reflexivity|].
  simpl. destruct (f x); simpl; lia.
Qed.

Lemma record_length P ts d :
  NoDup ts -> (forall t, In t ts -> ~ In t (map fst d)) ->
  length (fold_left (record P) ts d)
  = length d + length (filter (fun t => negb (not_recorded (P t))) ts).
Proof.
  revert d; induction ts as [|t ts IH]; intros d Hn Hd; [simpl; lia|].
  inversion Hn as [|? ? Ht Hn']; subst. cbn [fold_left filter].
  assert (Hfresh : existsb (String.eqb t) (map fst d) = false).
  { destruct (existsb (String.eqb t) (map fst d)) eqn:E; [|reflexivity].
    apply existsb_exists in E. destruct E as [x [Hx Ex]].
    apply String.eqb_eq in Ex. subst x.
    exfalso. apply (Hd t); [now left|exact Hx]. }
  unfold record at 2. destruct (P t) as [[w|]|e]; cbn [not_recorded negb].
  - rewrite IH; [|exact Hn'|].
    + rewrite dict_set_length, Hfresh. simpl. lia.
    + intros x Hx Hin. apply dict_set_key_in in Hin.
      destruct Hin as [->|Hin]; [contradiction|].
      apply (Hd x); [now right|exact Hin].
  - apply IH; [exact Hn'|]. intros x Hx. apply Hd. now right.
  - apply IH; [exact Hn'|]. intros x Hx. apply Hd. now right.
Qed.

Section Counting.

Variable qsqrt : Q -> Q.
Variable yf_Tickers : string -> list (string * Ticker).
Variable P : string -> result outcome.
Hypothesis per_identifier :
  forall batch t, In t batch ->
    process qsqrt (yf_Tickers (String.concat " " batch)) t = P t.

Lemma handle_snd data st t :
  process qsqrt data t = P t ->
  length (snd (handle qsqrt data st t))
  = length (snd st) + (if not_recorded (P t) then 1 else 0).
Proof.
  intros H. unfold handle. destruct st as [d out]. rewrite H.
  destruct (P t) as [[w|]|e]; cbn [snd not_recorded];
    rewrite ?length_app; simpl; lia.
Qed.

Lemma fold_handle_snd data batch st :
  (forall t, In t batch -> process qsqrt data t = P t) ->
  length (snd (fold_left (handle qsqrt data) batch st))
  = length (snd st)
    + length (filter (fun t => not_recorded (P t)) batch).
Proof.
  revert st; induction batch as [|t batch IH]; intros st H; [simpl; lia|].
  cbn [fold_left filter]. rewrite IH by (intros; apply H; now right).
  rewrite handle_snd by (apply H; now left).
  destruct (not_recorded (P t)); simpl; lia.
Qed.

Lemma fold_run_batch_snd bs tickers k st :
  length (snd (fold_left (run_batch qsqrt yf_Tickers bs tickers)
                         (map (fun j => j * bs) (seq 0 k)) st))
  = length (snd st) + k
    + length (filter (fun t => not_recorded (P t)) (firstn (k * bs) tickers)).
Proof.
  induction k as [|k IH]; [simpl; lia|].
  rewrite seq_S, map_app, fold_left_app. cbn [map fold_left Nat.add].
  unfold run_batch at 1. rewrite slice_chunk.
  rewrite fold_handle_snd by (intros t Ht; now apply per_identifier).
  cbn [snd fst]. rewrite length_app, IH. cbn [length].
  replace (S k * bs) with (k * bs + bs) by lia.
  rewrite firstn_add, filter_app, length_app.
  replace (0 + k * bs) with (k * bs) by lia. lia.
Qed.

(** X15.  When the provider answers for an identifier the same way in
    every group, a run prints one line per group and one line per
    identifier whose [try] block records no window; when the identifiers
    are distinct, the result has one entry per identifier whose block
    records a window, so the entries and the printed lines add up to the
    identifiers plus the groups. *)
Theorem run_counts bs tickers :
  0 < bs ->
  let st := fetch_stock_data_run qsqrt yf_Tickers bs tickers in
  length (snd st)
  = (length tickers + bs - 1) / bs
    + length (filter (fun t => not_recorded (P t)) tickers)
  /\ (NoDup tickers ->
      length (fst st)
      = length (filter (fun t => negb (not_recorded (P t))) tickers)
      /\ length (fst st) + length (snd st)
         = length tickers + (length tickers + bs - 1) / bs).
Proof.
  intros Hbs. cbv zeta.
  assert (Hout : length (snd (fetch_stock_data_run qsqrt yf_Tickers bs
                                tickers))
                 = (length tickers + bs - 1) / bs
                   + length (filter (fun t => not_recorded (P t)) tickers)).
  { unfold fetch_stock_data_run, range_step.
    rewrite fold_run_batch_snd. cbn [snd length].
    now rewrite firstn_all2 by now apply chunks_cover. }
  split; [exact Hout|]. intros Hn.
  assert (Hd : length (fst (fetch_stock_data_run qsqrt yf_Tickers bs
                              tickers))
               = length (filter (fun t => negb (not_recorded (P t)))
                                tickers)).
  { rewrite (fetch_stock_data_run_fst qsqrt yf_Tickers P per_identifier)
      by assumption.
    rewrite record_length; [reflexivity|exact Hn|intros t _ []]. }
  split; [exact Hd|]. rewrite Hd, Hout.
  pose proof (filter_split_length (fun t => not_recorded (P t)) tickers).
  lia.
Qed.

End Counting.

Lemma run_counts_witness :
  length (fst (fetch_stock_data_run sqrt_floor sample_provider 2
                 ["A"; "B"; "C"; "NEW"; "ZZZ"]))
  + length (snd (fetch_stock_data_run sqrt_floor sample_provider 2
                   ["A"; "B"; "C"; "NEW"; "ZZZ"]))
  = 5 + 3.
Proof.
  assert (Hn : NoDup ["A"; "B"; "C"; "NEW"; "ZZZ"]).
  { repeat (apply NoDup_cons; [simpl; intuition discriminate|]).
    apply NoDup_nil. }
  exact (proj2 (proj2 (run_counts sqrt_floor sample_provider
                         (process sqrt_floor (sample_provider ""))
                         (fun _ _ _ => eq_refl) 2
                         ["A"; "B"; "C"; "NEW"; "ZZZ"] (Nat.lt_0_succ 1))
                      Hn)).
Defined.
